(** * The workflow executor of go-workflows, embedded in Rocq

    This development follows [internal/workflow/executor.go]: the
    executor that replays persisted history, dispatches the events of a
    workflow task to their handlers and translates the commands issued by
    the workflow into outgoing history events.

    Go packages become modules of the same name.  A Go function that
    mutates the executor and returns an [error] becomes a function from
    the executor state to the new state and the returned error; a runtime
    panic (a failed type assertion) is the outcome [Panic]. *)

From Stdlib Require Import ZArith String List Lia Bool.
From stdpp Require Import base option list gmap strings.
Import ListNotations.
Local Open Scope string_scope.
Local Open Scope Z_scope.
Local Open Scope list_scope.

(** ** Go values *)

(** Outcome of running Go code: it returns normally or panics. *)
Inductive Res (A : Type) : Type :=
| Ret (a : A)
| Panic.
Arguments Ret {A} a.
Arguments Panic {A}.

#[global] Instance Res_ret : MRet Res := fun A a => Ret a.
#[global] Instance Res_bind : MBind Res := fun A B f m =>
  match m with
  | Ret a => f a
  | Panic => Panic
  end.

(** A Go [error]: [None] is [nil], [Some msg] an error whose [Error()]
    text is [msg]. *)
Definition error := option string.

(** [fmt.Errorf("<prefix>: %w", err)]. *)
Definition Errorf_w (prefix msg : string) : string := prefix +:+ ": " +:+ msg.

(** [int64] arithmetic wraps around. *)
Definition min_int64 : Z := - 2 ^ 63.
Definition max_int64 : Z := 2 ^ 63 - 1.
Definition wrap64 (z : Z) : Z := (z + 2 ^ 63) mod 2 ^ 64 - 2 ^ 63.

Module time.
(** [time.Time], as nanoseconds. *)
Definition Time := Z.
End time.

Module payload.
(** [payload.Payload] is a byte slice; [None] is the nil payload. *)
Definition Payload := option string.
End payload.

Module core.

(** Modelled from the spec: [core.WorkflowInstance] is (instanceId,
    executionId) plus the optional (parentInstanceId, parentScheduleEventId)
    of a sub-workflow; the executor reads the fields below. *)
Record WorkflowInstance := {
  InstanceID : string;
  ExecutionID : string;
  ParentInstanceID : string;
  ParentEventID : Z
}.

#[global] Instance WorkflowInstance_eq_dec : EqDecision WorkflowInstance.
Proof. solve_decision. Defined.

(** Modelled from the spec: [core.NewWorkflowInstance] builds an instance
    identified by (instanceId, executionId) that has no parent. *)
Definition NewWorkflowInstance (instanceID executionID : string) : WorkflowInstance :=
  {| InstanceID := instanceID; ExecutionID := executionID;
     ParentInstanceID := ""; ParentEventID := 0 |}.

(** Modelled from the spec: [WorkflowInstance.SubWorkflow] holds when the
    instance carries the optional parent instance id. *)
Definition SubWorkflow (wi : WorkflowInstance) : bool :=
  negb (String.eqb (ParentInstanceID wi) "").

End core.

Module history.

(** Modelled from the spec: the event types, a closed set;
    [EventType_Unknown] stands for any other value of the Go integer type,
    the one the [default] case of [executeEvent] receives. *)
Inductive EventType :=
| EventType_WorkflowExecutionStarted
| EventType_WorkflowExecutionFinished
| EventType_WorkflowExecutionCanceled
| EventType_WorkflowTaskStarted
| EventType_ActivityScheduled
| EventType_ActivityCompleted
| EventType_ActivityFailed
| EventType_TimerScheduled
| EventType_TimerFired
| EventType_TimerCanceled
| EventType_SignalReceived
| EventType_SideEffectResult
| EventType_SubWorkflowScheduled
| EventType_SubWorkflowCancellationRequested
| EventType_SubWorkflowCompleted
| EventType_SubWorkflowFailed
| EventType_Unknown.

#[global] Instance EventType_eq_dec : EqDecision EventType.
Proof. solve_decision. Defined.

(** Modelled from the spec: the attribute records an event can carry in
    its [Attributes] interface value; each constructor is one Go struct
    type, with the fields the executor reads or writes. *)
Inductive EventAttributes :=
| ExecutionStartedAttributes (Name : string) (Inputs : list payload.Payload)
| ExecutionCompletedAttributes (Result : payload.Payload) (Error : string)
| ExecutionCanceledAttributes
| WorkflowTaskStartedAttributes
| ActivityScheduledAttributes (Name : string) (Inputs : list payload.Payload)
| ActivityCompletedAttributes (Result : payload.Payload)
| ActivityFailedAttributes (Reason : string)
| TimerScheduledAttributes (At : time.Time)
| TimerFiredAttributes (At : time.Time)
| TimerCanceledAttributes
| SignalReceivedAttributes (Name : string) (Arg : payload.Payload)
| SideEffectResultAttributes (Result : payload.Payload)
| SubWorkflowScheduledAttributes (SubWorkflowInstance : core.WorkflowInstance)
    (Name : string) (Inputs : list payload.Payload)
| SubWorkflowCancellationRequestedAttributes (SubWorkflowInstance : core.WorkflowInstance)
| SubWorkflowFailedAttributes (Error : string)
| SubWorkflowCompletedAttributes (Result : payload.Payload).

(** Modelled from the spec: [history.Event] is the tagged record
    {id, sequenceId, type, timestamp, scheduleEventId, visibleAt?,
    attributes}.  The random identifier of an event is left out: the
    executor only logs it. *)
Record Event := {
  SequenceID : Z;
  Type_ : EventType;
  Timestamp : time.Time;
  ScheduleEventID : Z;
  VisibleAt : option time.Time;
  Attributes : EventAttributes
}.

Definition set_SequenceID (id : Z) (e : Event) : Event :=
  {| SequenceID := id; Type_ := Type_ e; Timestamp := Timestamp e;
     ScheduleEventID := ScheduleEventID e; VisibleAt := VisibleAt e;
     Attributes := Attributes e |}.

Record WorkflowEvent := {
  WorkflowInstance : core.WorkflowInstance;
  HistoryEvent : Event
}.

(** Modelled from the spec: a [history.HistoryEventOption] edits the
    event under construction; [history.ScheduleEventID] and
    [history.VisibleAt] set the field of their name. *)
Definition HistoryEventOption := Event -> Event.

Definition ScheduleEventID_opt (scheduleEventID : Z) : HistoryEventOption :=
  fun e =>
  {| SequenceID := SequenceID e; Type_ := Type_ e; Timestamp := Timestamp e;
     ScheduleEventID := scheduleEventID; VisibleAt := VisibleAt e;
     Attributes := Attributes e |}.

Definition VisibleAt_opt (visibleAt : time.Time) : HistoryEventOption :=
  fun e =>
  {| SequenceID := SequenceID e; Type_ := Type_ e; Timestamp := Timestamp e;
     ScheduleEventID := ScheduleEventID e; VisibleAt := Some visibleAt;
     Attributes := Attributes e |}.

(** Modelled from the spec: [history.NewPendingEvent] builds an event of
    the given type, timestamp and attributes and applies the options; the
    sequence id is not assigned yet (the executor assigns it at emission),
    so it holds the zero value, as does an unset schedule event id. *)
Definition NewPendingEvent (timestamp : time.Time) (eventType : EventType)
    (attributes : EventAttributes) (opts : list HistoryEventOption) : Event :=
  fold_left (fun e opt => opt e) opts
    {| SequenceID := 0; Type_ := eventType; Timestamp := timestamp;
       ScheduleEventID := 0; VisibleAt := None; Attributes := attributes |}.

(** Modelled from the spec: [history.NewWorkflowCancellationEvent] is the
    pending workflow-cancellation message sent to another instance. *)
Definition NewWorkflowCancellationEvent (timestamp : time.Time) : Event :=
  NewPendingEvent timestamp EventType_WorkflowExecutionCanceled
    ExecutionCanceledAttributes [].

End history.

Module command.

(** Modelled from the spec: the command types, a closed set;
    [CommandType_Unknown] stands for any other value of the Go integer
    type, the one the [default] case of [processCommands] receives. *)
Inductive CommandType :=
| CommandType_ScheduleActivity
| CommandType_ScheduleSubWorkflow
| CommandType_CancelSubWorkflow
| CommandType_ScheduleTimer
| CommandType_CancelTimer
| CommandType_SideEffect
| CommandType_CompleteWorkflow
| CommandType_Unknown.

#[global] Instance CommandType_eq_dec : EqDecision CommandType.
Proof. solve_decision. Defined.

(** Modelled from the spec: a command is [Pending] or [Committed]. *)
Inductive CommandState :=
| CommandState_Pending
| CommandState_Committed.

#[global] Instance CommandState_eq_dec : EqDecision CommandState.
Proof. solve_decision. Defined.

(** Modelled from the spec: the attribute records a command can carry in
    its [Attr] interface value, with the fields the executor reads. *)
Inductive CommandAttr :=
| ScheduleActivityTaskCommandAttr (Name : string) (Inputs : list payload.Payload)
| ScheduleSubWorkflowCommandAttr (Instance : core.WorkflowInstance)
    (Name : string) (Inputs : list payload.Payload)
| CancelSubWorkflowCommandAttr (SubWorkflowInstance : core.WorkflowInstance)
| SideEffectCommandAttr (Result : payload.Payload)
| ScheduleTimerCommandAttr (At : time.Time)
| CancelTimerCommandAttr (TimerScheduleEventID : Z)
| CompleteWorkflowCommandAttr (Result : payload.Payload) (Error : string).

#[global] Instance CommandAttr_eq_dec : EqDecision CommandAttr.
Proof. solve_decision. Defined.

(** Modelled from the spec: [command.Command] is {id, type, state,
    attributes}; the id is the schedule event id of its events. *)
Record Command := {
  State : CommandState;
  ID : Z;
  Type_ : CommandType;
  Attr : CommandAttr
}.

Definition set_State (s : CommandState) (c : Command) : Command :=
  {| State := s; ID := ID c; Type_ := Type_ c; Attr := Attr c |}.

Definition set_Attr (a : CommandAttr) (c : Command) : Command :=
  {| State := State c; ID := ID c; Type_ := Type_ c; Attr := a |}.

(** Modelled from the spec: [command.NewCompleteWorkflowCommand] is a
    pending [CompleteWorkflow] command carrying the result and the error
    string (empty when the error is nil). *)
Definition NewCompleteWorkflowCommand (id : Z) (result : payload.Payload)
    (err : error) : Command :=
  {| State := CommandState_Pending; ID := id;
     Type_ := CommandType_CompleteWorkflow;
     Attr := CompleteWorkflowCommandAttr result (default "" err) |}.

End command.

Module task.

(** Modelled from the spec: the task {id, workflowInstance,
    lastSequenceId, newEvents} delivered by the backend. *)
Record Workflow := {
  ID : string;
  WorkflowInstance : core.WorkflowInstance;
  LastSequenceID : Z;
  NewEvents : list history.Event
}.

End task.

Module workflowstate.

(** Modelled from the spec: [workflowstate.WfState] owns the command log
    (an insertion-ordered sequence of commands looked up by id), the future
    registry (schedule event id to resolver), the workflow-visible time,
    the replay flag, the schedule-event-id counter and the pending signals.
    [Settable] is the type of the resolvers ([DecodingSettable]). *)
Record WfState (Settable : Type) := {
  instance : core.WorkflowInstance;
  scheduleEventID : Z;
  commands : list command.Command;
  pendingFutures : gmap Z Settable;
  replaying : bool;
  pendingSignals : gmap string (list payload.Payload);
  time_ : time.Time
}.
Arguments instance {Settable} _.
Arguments scheduleEventID {Settable} _.
Arguments commands {Settable} _.
Arguments pendingFutures {Settable} _.
Arguments replaying {Settable} _.
Arguments pendingSignals {Settable} _.
Arguments time_ {Settable} _.

Section Ops.
Context {Settable : Type}.

(** The state with another command log. *)
Definition set_commands (cs : list command.Command) (s : WfState Settable) : WfState Settable :=
  {| instance := instance s; scheduleEventID := scheduleEventID s;
     commands := cs; pendingFutures := pendingFutures s;
     replaying := replaying s; pendingSignals := pendingSignals s;
     time_ := time_ s |}.

(** Modelled from the spec: a fresh state has an empty command log, no
    futures, and a counter whose first id is 1. *)
Definition NewWorkflowState (i : core.WorkflowInstance) (now : time.Time) : WfState Settable :=
  {| instance := i; scheduleEventID := 1; commands := [];
     pendingFutures := ∅; replaying := false; pendingSignals := ∅;
     time_ := now |}.

(** Modelled from the spec: the accessors and setters of the fields. *)
Definition Instance (s : WfState Settable) : core.WorkflowInstance := instance s.

(** Modelled from the spec: the counter hands out strictly increasing ids. *)
Definition GetNextScheduleEventID (s : WfState Settable) : Z * WfState Settable :=
  (scheduleEventID s,
   {| instance := instance s; scheduleEventID := wrap64 (scheduleEventID s + 1);
      commands := commands s; pendingFutures := pendingFutures s;
      replaying := replaying s; pendingSignals := pendingSignals s;
      time_ := time_ s |}).

(** Modelled from the spec: sets the replay flag. *)
Definition SetReplaying (b : bool) (s : WfState Settable) : WfState Settable :=
  {| instance := instance s; scheduleEventID := scheduleEventID s;
     commands := commands s; pendingFutures := pendingFutures s;
     replaying := b; pendingSignals := pendingSignals s; time_ := time_ s |}.

(** Modelled from the spec: sets the workflow-visible time. *)
Definition SetTime (t : time.Time) (s : WfState Settable) : WfState Settable :=
  {| instance := instance s; scheduleEventID := scheduleEventID s;
     commands := commands s; pendingFutures := pendingFutures s;
     replaying := replaying s; pendingSignals := pendingSignals s; time_ := t |}.

(** Modelled from the spec: registers the resolver of a blocking
    primitive under its schedule event id. *)
Definition TrackFuture (id : Z) (f : Settable) (s : WfState Settable) : WfState Settable :=
  {| instance := instance s; scheduleEventID := scheduleEventID s;
     commands := commands s; pendingFutures := <[id := f]> (pendingFutures s);
     replaying := replaying s; pendingSignals := pendingSignals s;
     time_ := time_ s |}.

(** Modelled from the spec: the Future Registry maps a schedule event id
    to its resolver; the second result of the Go function is whether the
    id is registered. *)
Definition FutureByScheduleEventID (id : Z) (s : WfState Settable) : option Settable :=
  pendingFutures s !! id.

(** Modelled from the spec: the command log, in insertion order. *)
Definition Commands (s : WfState Settable) : list command.Command := commands s.

(** Modelled from the spec: commands are kept in the order the workflow
    issued them. *)
Definition AddCommand (c : command.Command) (s : WfState Settable) : WfState Settable :=
  set_commands (commands s ++ [c]) s.

(** Modelled from the spec: clears the commands left from a prior turn. *)
Definition ClearCommands (s : WfState Settable) : WfState Settable :=
  set_commands [] s.

(** Modelled from the spec: "remove command" matches by schedule event id;
    the removed command is returned, [None] (nil) when there is none. *)
Fixpoint remove_by_id (id : Z) (cs : list command.Command)
    : option command.Command * list command.Command :=
  match cs with
  | [] => (None, [])
  | c :: cs' =>
      if Z.eqb (command.ID c) id then (Some c, cs')
      else let '(r, rest) := remove_by_id id cs' in (r, c :: rest)
  end.

(** Modelled from the spec: [RemoveCommandByEventID] takes the command
    with the given schedule event id out of the log and returns it. *)
Definition RemoveCommandByEventID (id : Z) (s : WfState Settable)
    : option command.Command * WfState Settable :=
  let '(r, rest) := remove_by_id id (commands s) in
  (r, set_commands rest s).

End Ops.
End workflowstate.

(** ** The collaborators of the executor

    The cooperative scheduler, the workflow function and the futures it
    awaits live outside the executor.  [World] is the memory reachable from
    the workflow context (coroutine, future cells, signal channels,
    cancellation state); the operations below are the calls the executor
    makes into that code. *)
Class Runtime := {
  World : Type;
  WorkflowFn : Type;
  Workflow : Type;
  Settable : Type;
  (** [sync.WithCancel(WithWorkflowState(Background(), s))] *)
  World_init : World;
  (** calling a [DecodingSettable]: [f(v, err)] *)
  Settable_call : Settable -> payload.Payload -> error -> World -> Res (World * error);
  NewWorkflow : WorkflowFn -> Workflow;
  (** [w.Execute(ctx, inputs)] *)
  Workflow_Execute : option Workflow -> list payload.Payload ->
    workflowstate.WfState Settable -> World ->
    Res (workflowstate.WfState Settable * World * error);
  (** [w.Continue(ctx)] *)
  Workflow_Continue : option Workflow ->
    workflowstate.WfState Settable -> World ->
    Res (workflowstate.WfState Settable * World * error);
  Workflow_Completed : option Workflow -> World -> Res bool;
  Workflow_Result : option Workflow -> World -> Res payload.Payload;
  Workflow_Error : option Workflow -> World -> Res error;
  (** the [sync.CancelFunc] of the workflow context *)
  Context_cancel : World -> Res World;
  (** [workflowstate.ReceiveSignal(ctx, state, name, arg)] *)
  ReceiveSignal : string -> payload.Payload ->
    workflowstate.WfState Settable -> World ->
    Res (workflowstate.WfState Settable * World);
  (** a write through the pointer to a command the workflow still holds *)
  Command_written : command.Command -> World -> World;
  (** [time.Now()] *)
  time_Now : time.Time;
  (** [%v] of the enumerations *)
  CommandType_String : command.CommandType -> string;
  EventType_String : history.EventType -> string
}.

Record ExecutionResult := {
  Completed : bool;
  Executed : list history.Event;
  ActivityEvents : list history.Event;
  WorkflowEvents : list history.WorkflowEvent
}.

Section Executor.
Context {RT : Runtime}.

Abbreviation WfState := (workflowstate.WfState Settable).

(** [WorkflowHistoryProvider.GetWorkflowInstanceHistory]; the second
    argument is the value behind the [lastSequenceID] pointer. *)
Definition WorkflowHistoryProvider :=
  core.WorkflowInstance -> Z -> list history.Event * error.

(** [Registry.GetWorkflow]: [None] stands for the not-found error. *)
Definition Registry := string -> option WorkflowFn.

Record executor := {
  registry : Registry;
  historyProvider : WorkflowHistoryProvider;
  workflow : option Workflow;
  workflowState : WfState;
  workflowCtx : World;
  clock : time.Time;
  lastSequenceID : Z
}.

Definition with_workflow (w : option Workflow) (e : executor) : executor :=
  {| registry := registry e; historyProvider := historyProvider e;
     workflow := w; workflowState := workflowState e;
     workflowCtx := workflowCtx e; clock := clock e;
     lastSequenceID := lastSequenceID e |}.

Definition with_workflowState (s : WfState) (e : executor) : executor :=
  {| registry := registry e; historyProvider := historyProvider e;
     workflow := workflow e; workflowState := s;
     workflowCtx := workflowCtx e; clock := clock e;
     lastSequenceID := lastSequenceID e |}.

Definition with_workflowCtx (w : World) (e : executor) : executor :=
  {| registry := registry e; historyProvider := historyProvider e;
     workflow := workflow e; workflowState := workflowState e;
     workflowCtx := w; clock := clock e;
     lastSequenceID := lastSequenceID e |}.

Definition with_lastSequenceID (n : Z) (e : executor) : executor :=
  {| registry := registry e; historyProvider := historyProvider e;
     workflow := workflow e; workflowState := workflowState e;
     workflowCtx := workflowCtx e; clock := clock e;
     lastSequenceID := n |}.

Definition NewExecutor (registry : Registry) (historyProvider : WorkflowHistoryProvider)
    (instance : core.WorkflowInstance) (clock : time.Time) : executor :=
  {| registry := registry; historyProvider := historyProvider;
     workflow := None;
     workflowState := workflowstate.NewWorkflowState instance clock;
     workflowCtx := World_init; clock := clock; lastSequenceID := 0 |}.

(** [e.nextSequenceID()] *)
Definition nextSequenceID (e : executor) : Z * executor :=
  let e := with_lastSequenceID (wrap64 (lastSequenceID e + 1)) e in
  (lastSequenceID e, e).

(** [e.createNewEvent(eventType, attributes, opts...)] *)
Definition createNewEvent (e : executor) (eventType : history.EventType)
    (attributes : history.EventAttributes)
    (opts : list history.HistoryEventOption) : history.Event :=
  history.NewPendingEvent (clock e) eventType attributes opts.

(** [e.workflowCompleted(result, err)] *)
Definition workflowCompleted (result : payload.Payload) (err : error)
    (e : executor) : executor :=
  let '(eventId, s) := workflowstate.GetNextScheduleEventID (workflowState e) in
  let cmd := command.NewCompleteWorkflowCommand eventId result err in
  with_workflowState (workflowstate.AddCommand cmd s) e.

(** [e.workflowState.RemoveCommandByEventID(id)] *)
Definition removeCommand (id : Z) (e : executor) : option command.Command * executor :=
  let '(c, s) := workflowstate.RemoveCommandByEventID id (workflowState e) in
  (c, with_workflowState s e).

(** [f(v, err)] for a resolver [f] taken from the future registry. *)
Definition callSettable (f : Settable) (v : payload.Payload) (err : error)
    (e : executor) : Res (executor * error) :=
  '(w, r) ← Settable_call f v err (workflowCtx e);
  mret (with_workflowCtx w e, r).

(** [e.workflow.Continue(e.workflowCtx)] *)
Definition continueWorkflow (e : executor) : Res (executor * error) :=
  '(s, w, r) ← Workflow_Continue (workflow e) (workflowState e) (workflowCtx e);
  mret (with_workflowCtx w (with_workflowState s e), r).


(** *** Event handlers *)

Definition handleWorkflowExecutionStarted (Name : string)
    (Inputs : list payload.Payload) (e : executor) : Res (executor * error) :=
  match registry e Name with
  | None => mret (e, Some ("workflow " +:+ Name +:+ " not found"))
  | Some wfFn =>
      let e := with_workflow (Some (NewWorkflow wfFn)) e in
      '(s, w, r) ← Workflow_Execute (workflow e) Inputs (workflowState e) (workflowCtx e);
      mret (with_workflowCtx w (with_workflowState s e), r)
  end.

Definition handleWorkflowCanceled (e : executor) : Res (executor * error) :=
  w ← Context_cancel (workflowCtx e);
  continueWorkflow (with_workflowCtx w e).

Definition handleWorkflowTaskStarted (event : history.Event) (e : executor)
    : Res (executor * error) :=
  mret (with_workflowState
          (workflowstate.SetTime (history.Timestamp event) (workflowState e)) e,
        None).

Definition handleActivityScheduled (event : history.Event) (Name : string)
    (e : executor) : Res (executor * error) :=
  let '(c, e) := removeCommand (history.ScheduleEventID event) e in
  match c with
  | None =>
      mret (e, Some "previous workflow execution scheduled an activity which could not be found")
  | Some c =>
      if negb (bool_decide (command.Type_ c = command.CommandType_ScheduleActivity)) then
        mret (e, Some ("previous workflow execution scheduled an activity, this time: "
                       +:+ CommandType_String (command.Type_ c)))
      else
        match command.Attr c with
        | command.ScheduleActivityTaskCommandAttr caName _ =>
            if negb (String.eqb Name caName) then
              mret (e, Some ("previous workflow execution scheduled different type of activity: "
                             +:+ Name +:+ ", " +:+ caName))
            else mret (e, None)
        | _ => Panic
        end
  end.

Definition handleActivityCompleted (event : history.Event) (Result : payload.Payload)
    (e : executor) : Res (executor * error) :=
  match workflowstate.FutureByScheduleEventID (history.ScheduleEventID event) (workflowState e) with
  | None => mret (e, Some "could not find pending future for activity completion")
  | Some f =>
      let '(_, e) := removeCommand (history.ScheduleEventID event) e in
      '(e, err) ← callSettable f Result None e;
      match err with
      | Some m => mret (e, Some (Errorf_w "setting result" m))
      | None => continueWorkflow e
      end
  end.

Definition handleActivityFailed (event : history.Event) (Reason : string)
    (e : executor) : Res (executor * error) :=
  match workflowstate.FutureByScheduleEventID (history.ScheduleEventID event) (workflowState e) with
  | None => mret (e, Some "no pending future for activity failed event")
  | Some f =>
      let '(_, e) := removeCommand (history.ScheduleEventID event) e in
      '(e, err) ← callSettable f None (Some Reason) e;
      match err with
      | Some m => mret (e, Some (Errorf_w "setting result" m))
      | None => continueWorkflow e
      end
  end.

Definition handleTimerScheduled (event : history.Event) (e : executor)
    : Res (executor * error) :=
  let '(_, e) := removeCommand (history.ScheduleEventID event) e in
  mret (e, None).

Definition handleTimerFired (event : history.Event) (e : executor)
    : Res (executor * error) :=
  match workflowstate.FutureByScheduleEventID (history.ScheduleEventID event) (workflowState e) with
  | None =>
      (* Timer already canceled ignore *)
      mret (e, None)
  | Some f =>
      let '(c, e) := removeCommand (history.ScheduleEventID event) e in
      match c with
      | None => mret (e, Some "previous workflow execution scheduled a timer")
      | Some c =>
          if negb (bool_decide (command.Type_ c = command.CommandType_ScheduleTimer)) then
            mret (e, Some ("previous workflow execution scheduled a timer, this time: "
                           +:+ CommandType_String (command.Type_ c)))
          else
            '(e, err) ← callSettable f None None e;
            match err with
            | Some m => mret (e, Some (Errorf_w "setting result" m))
            | None => continueWorkflow e
            end
      end
  end.

Definition handleTimerCanceled (event : history.Event) (e : executor)
    : Res (executor * error) :=
  match workflowstate.FutureByScheduleEventID (history.ScheduleEventID event) (workflowState e) with
  | None =>
      (* Timer already canceled ignore *)
      mret (e, None)
  | Some f =>
      let '(_, e) := removeCommand (history.ScheduleEventID event) e in
      '(e, err) ← callSettable f None None e;
      match err with
      | Some m => mret (e, Some (Errorf_w "setting result" m))
      | None => continueWorkflow e
      end
  end.

Definition handleSubWorkflowScheduled (event : history.Event)
    (SubWorkflowInstance : core.WorkflowInstance) (Name : string)
    (e : executor) : Res (executor * error) :=
  let '(c, e) := removeCommand (history.ScheduleEventID event) e in
  match c with
  | None => mret (e, Some "previous workflow execution scheduled a sub workflow")
  | Some c =>
      if negb (bool_decide (command.Type_ c = command.CommandType_ScheduleSubWorkflow)) then
        mret (e, Some ("previous workflow execution scheduled a sub workflow, this time: "
                       +:+ CommandType_String (command.Type_ c)))
      else
        match command.Attr c with
        | command.ScheduleSubWorkflowCommandAttr _ caName caInputs =>
            if negb (String.eqb Name caName) then
              mret (e, Some ("previous workflow execution scheduled different type of sub workflow: "
                             +:+ Name +:+ ", " +:+ caName))
            else
              (* Set correct InstanceID here. *)
              let c' := command.set_Attr
                (command.ScheduleSubWorkflowCommandAttr SubWorkflowInstance caName caInputs) c in
              mret (with_workflowCtx (Command_written c' (workflowCtx e)) e, None)
        | _ => Panic
        end
  end.

Definition handleSubWorkflowCancellationRequest (event : history.Event)
    (e : executor) : Res (executor * error) :=
  let '(c, e) := removeCommand (history.ScheduleEventID event) e in
  match c with
  | None => mret (e, Some "previous workflow execution cancelled a sub-workflow execution")
  | Some c =>
      if negb (bool_decide (command.Type_ c = command.CommandType_CancelSubWorkflow)) then
        mret (e, Some ("previous workflow execution cancelled a sub-workflow execution, this time: "
                       +:+ CommandType_String (command.Type_ c)))
      else continueWorkflow e
  end.

Definition handleSubWorkflowFailed (event : history.Event) (Error : string)
    (e : executor) : Res (executor * error) :=
  match workflowstate.FutureByScheduleEventID (history.ScheduleEventID event) (workflowState e) with
  | None => mret (e, Some "no pending future found for sub workflow failed event")
  | Some f =>
      let '(_, e) := removeCommand (history.ScheduleEventID event) e in
      '(e, err) ← callSettable f None (Some Error) e;
      match err with
      | Some m => mret (e, Some (Errorf_w "setting result" m))
      | None => continueWorkflow e
      end
  end.

Definition handleSubWorkflowCompleted (event : history.Event)
    (Result : payload.Payload) (e : executor) : Res (executor * error) :=
  match workflowstate.FutureByScheduleEventID (history.ScheduleEventID event) (workflowState e) with
  | None => mret (e, Some "no pending future found for sub workflow completed event")
  | Some f =>
      let '(_, e) := removeCommand (history.ScheduleEventID event) e in
      '(e, err) ← callSettable f Result None e;
      match err with
      | Some m => mret (e, Some (Errorf_w "setting result" m))
      | None => continueWorkflow e
      end
  end.

Definition handleSignalReceived (event : history.Event) (Name : string)
    (Arg : payload.Payload) (e : executor) : Res (executor * error) :=
  (* Send signal to workflow channel *)
  '(s, w) ← ReceiveSignal Name Arg (workflowState e) (workflowCtx e);
  let e := with_workflowCtx w (with_workflowState s e) in
  let '(_, e) := removeCommand (history.ScheduleEventID event) e in
  continueWorkflow e.

Definition handleSideEffectResult (event : history.Event)
    (Result : payload.Payload) (e : executor) : Res (executor * error) :=
  match workflowstate.FutureByScheduleEventID (history.ScheduleEventID event) (workflowState e) with
  | None => mret (e, Some "no pending future found for side effect result event")
  | Some f =>
      '(e, _) ← callSettable f Result None e;
      continueWorkflow e
  end.

(** [e.executeEvent(event)].  Each case asserts the dynamic type of
    [event.Attributes]; the assertion panics when the event carries another
    attribute type. *)
Definition executeEvent (event : history.Event) (e : executor)
    : Res (executor * error) :=
  match history.Type_ event with
  | history.EventType_WorkflowExecutionStarted =>
      match history.Attributes event with
      | history.ExecutionStartedAttributes Name Inputs =>
          handleWorkflowExecutionStarted Name Inputs e
      | _ => Panic
      end
  | history.EventType_WorkflowExecutionFinished =>
      (* Ignore *)
      mret (e, None)
  | history.EventType_WorkflowExecutionCanceled =>
      handleWorkflowCanceled e
  | history.EventType_WorkflowTaskStarted =>
      match history.Attributes event with
      | history.WorkflowTaskStartedAttributes => handleWorkflowTaskStarted event e
      | _ => Panic
      end
  | history.EventType_ActivityScheduled =>
      match history.Attributes event with
      | history.ActivityScheduledAttributes Name _ => handleActivityScheduled event Name e
      | _ => Panic
      end
  | history.EventType_ActivityFailed =>
      match history.Attributes event with
      | history.ActivityFailedAttributes Reason => handleActivityFailed event Reason e
      | _ => Panic
      end
  | history.EventType_ActivityCompleted =>
      match history.Attributes event with
      | history.ActivityCompletedAttributes Result => handleActivityCompleted event Result e
      | _ => Panic
      end
  | history.EventType_TimerScheduled =>
      match history.Attributes event with
      | history.TimerScheduledAttributes _ => handleTimerScheduled event e
      | _ => Panic
      end
  | history.EventType_TimerFired =>
      match history.Attributes event with
      | history.TimerFiredAttributes _ => handleTimerFired event e
      | _ => Panic
      end
  | history.EventType_TimerCanceled =>
      match history.Attributes event with
      | history.TimerCanceledAttributes => handleTimerCanceled event e
      | _ => Panic
      end
  | history.EventType_SignalReceived =>
      match history.Attributes event with
      | history.SignalReceivedAttributes Name Arg => handleSignalReceived event Name Arg e
      | _ => Panic
      end
  | history.EventType_SideEffectResult =>
      match history.Attributes event with
      | history.SideEffectResultAttributes Result => handleSideEffectResult event Result e
      | _ => Panic
      end
  | history.EventType_SubWorkflowScheduled =>
      match history.Attributes event with
      | history.SubWorkflowScheduledAttributes inst Name _ =>
          handleSubWorkflowScheduled event inst Name e
      | _ => Panic
      end
  | history.EventType_SubWorkflowCancellationRequested =>
      match history.Attributes event with
      | history.SubWorkflowCancellationRequestedAttributes _ =>
          handleSubWorkflowCancellationRequest event e
      | _ => Panic
      end
  | history.EventType_SubWorkflowFailed =>
      match history.Attributes event with
      | history.SubWorkflowFailedAttributes Err => handleSubWorkflowFailed event Err e
      | _ => Panic
      end
  | history.EventType_SubWorkflowCompleted =>
      match history.Attributes event with
      | history.SubWorkflowCompletedAttributes Result => handleSubWorkflowCompleted event Result e
      | _ => Panic
      end
  | history.EventType_Unknown =>
      mret (e, Some ("unknown event type: " +:+ EventType_String (history.Type_ event)))
  end.


(** *** Replay and execution of new events *)

Fixpoint replayHistory_loop (history : list history.Event) (e : executor)
    : Res (executor * error) :=
  match history with
  | [] => mret (e, None)
  | event :: rest =>
      '(e, err) ← executeEvent event e;
      match err with
      | Some m => mret (e, Some m)
      | None =>
          replayHistory_loop rest
            (with_lastSequenceID (history.SequenceID event) e)
      end
  end.

Definition replayHistory (history : list history.Event) (e : executor)
    : Res (executor * error) :=
  let e := with_workflowState (workflowstate.SetReplaying true (workflowState e)) e in
  replayHistory_loop history e.

(** The loop of [executeNewEvents] at index [i], with [rest] the events
    from index [i] on, followed by the code after the loop. *)
Fixpoint executeNewEvents_loop (newEvents : list history.Event) (i : nat)
    (rest : list history.Event) (e : executor)
    : Res (executor * (list history.Event * error)) :=
  match rest with
  | [] =>
      completed ← Workflow_Completed (workflow e) (workflowCtx e);
      if completed : bool then
        result ← Workflow_Result (workflow e) (workflowCtx e);
        err ← Workflow_Error (workflow e) (workflowCtx e);
        mret (workflowCompleted result err e, (newEvents, None))
      else mret (e, (newEvents, None))
  | event :: rest =>
      '(e, err) ← executeEvent event e;
      match err with
      | Some m => mret (e, (take i newEvents, Some m))
      | None => executeNewEvents_loop newEvents (S i) rest e
      end
  end.

Definition executeNewEvents (newEvents : list history.Event) (e : executor)
    : Res (executor * (list history.Event * error)) :=
  let e := with_workflowState (workflowstate.SetReplaying false (workflowState e)) e in
  executeNewEvents_loop newEvents 0%nat newEvents e.

(** *** Translation of commands into events *)

(** The values of the locals [completed], [newEvents], [activityEvents]
    and [workflowEvents] of [processCommands]. *)
Definition CommandEvents : Type :=
  bool * list history.Event * list history.Event * list history.WorkflowEvent.

(** The [switch c.Type] of [processCommands] for one command: the updated
    locals, or the message of the error returned by the default case. *)
Definition processCommand (e : executor) (instance : core.WorkflowInstance)
    (c : command.Command) (completed : bool)
    (newEvents activityEvents : list history.Event)
    (workflowEvents : list history.WorkflowEvent)
    : Res (CommandEvents + string) :=
  match command.Type_ c with
  | command.CommandType_ScheduleActivity =>
      match command.Attr c with
      | command.ScheduleActivityTaskCommandAttr aName aInputs =>
          let scheduleActivityEvent :=
            createNewEvent e history.EventType_ActivityScheduled
              (history.ActivityScheduledAttributes aName aInputs)
              [history.ScheduleEventID_opt (command.ID c)] in
          mret (inl (completed,
                     newEvents ++ [scheduleActivityEvent],
                     activityEvents ++ [scheduleActivityEvent],
                     workflowEvents))
      | _ => Panic
      end
  | command.CommandType_ScheduleSubWorkflow =>
      match command.Attr c with
      | command.ScheduleSubWorkflowCommandAttr aInstance aName aInputs =>
          mret (inl (completed,
                     newEvents ++ [createNewEvent e history.EventType_SubWorkflowScheduled
                        (history.SubWorkflowScheduledAttributes aInstance aName aInputs)
                        [history.ScheduleEventID_opt (command.ID c)]],
                     activityEvents,
                     (* Send message to new workflow instance *)
                     workflowEvents ++ [
                       {| history.WorkflowInstance := aInstance;
                          history.HistoryEvent :=
                            createNewEvent e history.EventType_WorkflowExecutionStarted
                              (history.ExecutionStartedAttributes aName aInputs)
                              [history.ScheduleEventID_opt (command.ID c)] |}]))
      | _ => Panic
      end
  | command.CommandType_CancelSubWorkflow =>
      match command.Attr c with
      | command.CancelSubWorkflowCommandAttr aSubWorkflowInstance =>
          mret (inl (completed,
                     (* Record sub-workflow cancellation request event *)
                     newEvents ++ [createNewEvent e history.EventType_SubWorkflowCancellationRequested
                        (history.SubWorkflowScheduledAttributes aSubWorkflowInstance "" [])
                        []],
                     activityEvents,
                     (* Send cancellation event to sub-workflow *)
                     workflowEvents ++ [
                       {| history.WorkflowInstance := aSubWorkflowInstance;
                          history.HistoryEvent :=
                            history.NewWorkflowCancellationEvent time_Now |}]))
      | _ => Panic
      end
  | command.CommandType_SideEffect =>
      match command.Attr c with
      | command.SideEffectCommandAttr aResult =>
          mret (inl (completed,
                     newEvents ++ [createNewEvent e history.EventType_SideEffectResult
                        (history.SideEffectResultAttributes aResult)
                        [history.ScheduleEventID_opt (command.ID c)]],
                     activityEvents,
                     workflowEvents))
      | _ => Panic
      end
  | command.CommandType_ScheduleTimer =>
      match command.Attr c with
      | command.ScheduleTimerCommandAttr aAt =>
          mret (inl (completed,
                     newEvents ++ [createNewEvent e history.EventType_TimerScheduled
                        (history.TimerScheduledAttributes aAt)
                        [history.ScheduleEventID_opt (command.ID c)]],
                     activityEvents,
                     (* Create timer_fired event which will become visible in the future *)
                     workflowEvents ++ [
                       {| history.WorkflowInstance := instance;
                          history.HistoryEvent :=
                            createNewEvent e history.EventType_TimerFired
                              (history.TimerFiredAttributes aAt)
                              [history.ScheduleEventID_opt (command.ID c);
                               history.VisibleAt_opt aAt] |}]))
      | _ => Panic
      end
  | command.CommandType_CancelTimer =>
      match command.Attr c with
      | command.CancelTimerCommandAttr aTimerScheduleEventID =>
          mret (inl (completed,
                     newEvents,
                     activityEvents,
                     workflowEvents ++ [
                       {| history.WorkflowInstance := instance;
                          history.HistoryEvent :=
                            createNewEvent e history.EventType_TimerCanceled
                              history.TimerCanceledAttributes
                              [history.ScheduleEventID_opt aTimerScheduleEventID] |}]))
      | _ => Panic
      end
  | command.CommandType_CompleteWorkflow =>
      match command.Attr c with
      | command.CompleteWorkflowCommandAttr aResult aError =>
          let newEvents :=
            newEvents ++ [createNewEvent e history.EventType_WorkflowExecutionFinished
              (history.ExecutionCompletedAttributes aResult aError)
              [history.ScheduleEventID_opt (command.ID c)]] in
          if core.SubWorkflow instance then
            (* Send completion message back to parent workflow instance *)
            let historyEvent :=
              if negb (String.eqb aError "") then
                (* Sub workflow failed *)
                createNewEvent e history.EventType_SubWorkflowFailed
                  (history.SubWorkflowFailedAttributes aError)
                  [history.ScheduleEventID_opt (core.ParentEventID instance)]
              else
                createNewEvent e history.EventType_SubWorkflowCompleted
                  (history.SubWorkflowCompletedAttributes aResult)
                  [history.ScheduleEventID_opt (core.ParentEventID instance)] in
            mret (inl (true, newEvents, activityEvents,
                       workflowEvents ++ [
                         {| history.WorkflowInstance :=
                              core.NewWorkflowInstance (core.ParentInstanceID instance) "";
                            history.HistoryEvent := historyEvent |}]))
          else mret (inl (true, newEvents, activityEvents, workflowEvents))
      | _ => Panic
      end
  | command.CommandType_Unknown =>
      mret (inr ("unknown command type: " +:+ CommandType_String (command.Type_ c)))
  end.

(** The [for _, c := range commands] loop of [processCommands].  The
    commands are pointers into the command log, so the first component of
    the result is the log after the loop marked the visited commands. *)
Fixpoint processCommands_loop (e : executor) (instance : core.WorkflowInstance)
    (commands : list command.Command) (completed : bool)
    (newEvents activityEvents : list history.Event)
    (workflowEvents : list history.WorkflowEvent)
    : Res (list command.Command *
           (bool * list history.Event * list history.Event *
            list history.WorkflowEvent * error)) :=
  match commands with
  | [] => mret ([], (completed, newEvents, activityEvents, workflowEvents, None))
  | c :: rest =>
      (* Mark this command as committed. *)
      let c := command.set_State command.CommandState_Committed c in
      r ← processCommand e instance c completed newEvents activityEvents workflowEvents;
      match r with
      | inr msg => mret (c :: rest, (false, [], [], [], Some msg))
      | inl (completed, newEvents, activityEvents, workflowEvents) =>
          '(rest, out) ← processCommands_loop e instance rest
                            completed newEvents activityEvents workflowEvents;
          mret (c :: rest, out)
      end
  end.

Definition processCommands (t : task.Workflow) (e : executor)
    : Res (executor *
           (bool * list history.Event * list history.Event *
            list history.WorkflowEvent * error)) :=
  let instance := task.WorkflowInstance t in
  let commands := workflowstate.Commands (workflowState e) in
  '(commands, out) ← processCommands_loop e instance commands false [] [] [];
  mret (with_workflowState (workflowstate.set_commands commands (workflowState e)) e, out).

(** *** ExecuteTask *)

(** [for i := range executedEvents { executedEvents[i].SequenceID = e.nextSequenceID() }] *)
Fixpoint setSequenceIDs (executedEvents : list history.Event) (e : executor)
    : list history.Event * executor :=
  match executedEvents with
  | [] => ([], e)
  | event :: rest =>
      let '(id, e) := nextSequenceID e in
      let '(rest, e) := setSequenceIDs rest e in
      (history.set_SequenceID id event :: rest, e)
  end.

(** [ExecuteTask] from the creation of the [WorkflowTaskStarted] event to
    the end; [skipNewEvents] is the local set by the replay branch. *)
Definition ExecuteTask_events (t : task.Workflow) (skipNewEvents : bool)
    (e : executor) : Res (executor * (option ExecutionResult * error)) :=
  (* Always add a WorkflowTaskStarted event before executing new tasks *)
  let toExecute :=
    [createNewEvent e history.EventType_WorkflowTaskStarted
       history.WorkflowTaskStartedAttributes []] in
  let executedEvents := toExecute in
  let toExecute := toExecute ++ task.NewEvents t in
  (* Execute new events received from the backend *)
  '(e, executedEvents) ←
    (if negb skipNewEvents then
       '(e, (executedEvents, err)) ← executeNewEvents toExecute e;
       match err with
       | Some m => mret (workflowCompleted None (Some m) e, executedEvents)
       | None => mret (e, executedEvents)
       end
     else mret (e, executedEvents));
  (* Process any commands added while executing new events *)
  '(e, (completed, newCommandEvents, activityEvents, workflowEvents, err)) ←
    processCommands t e;
  match err with
  | Some m => mret (e, (None, Some (Errorf_w "processing commands" m)))
  | None =>
      let executedEvents := executedEvents ++ newCommandEvents in
      (* Set SequenceIDs for all executed events *)
      let '(executedEvents, e) := setSequenceIDs executedEvents e in
      mret (e, (Some {| Completed := completed;
                        Executed := executedEvents;
                        ActivityEvents := activityEvents;
                        WorkflowEvents := workflowEvents |}, None))
  end.

Definition ExecuteTask (t : task.Workflow) (e : executor)
    : Res (executor * (option ExecutionResult * error)) :=
  let e := with_workflowState (workflowstate.ClearCommands (workflowState e)) e in
  if task.LastSequenceID t >? lastSequenceID e then
    let '(h, err) := historyProvider e (task.WorkflowInstance t) (lastSequenceID e) in
    match err with
    | Some m => mret (e, (None, Some (Errorf_w "getting workflow history" m)))
    | None =>
        '(e, err) ← replayHistory h e;
        let '(e, skipNewEvents) :=
          match err with
          | Some m =>
              (* Fail workflow with an error. Skip executing new events, but
                 still go through the commands *)
              (workflowCompleted None (Some m) e, true)
          | None => (e, false)
          end in
        if negb (task.LastSequenceID t =? lastSequenceID e) then
          mret (e, (None, Some "even after fetching history and replaying history executor state does not match task"))
        else ExecuteTask_events t skipNewEvents e
    end
  else if task.LastSequenceID t <? lastSequenceID e then
    mret (e, (None, Some "task has older history than current state, cannot execute"))
  else ExecuteTask_events t false e.

End Executor.

(** ** A small runtime to run the executor on concrete tasks

    Three workflow functions: [ActivityWorkflow] schedules the activity
    "add" on its inputs and returns its result; [TimerWorkflow] sleeps on
    one timer; [CrashingWorkflow] records a side effect and fails in the
    scheduler when it is resumed. *)
Module Demo.

Inductive Fn :=
| ActivityWorkflow
| TimerWorkflow
| CrashingWorkflow.

(** The memory of the toy scheduler: resolved future cells, the future the
    coroutine is blocked on, and the outcome of the workflow function. *)
Record Memory := {
  resolved : gmap Z (payload.Payload * error);
  waiting : option Z;
  finished : option (payload.Payload * error);
  canceled : bool
}.

Definition Memory_init : Memory :=
  {| resolved := ∅; waiting := None; finished := None; canceled := false |}.

Definition set_future (id : Z) (v : payload.Payload) (err : error) (m : Memory)
    : Res (Memory * error) :=
  match resolved m !! id with
  | Some _ => Ret (m, Some "future already has value")
  | None =>
      Ret ({| resolved := <[id := (v, err)]> (resolved m); waiting := waiting m;
              finished := finished m; canceled := canceled m |}, None)
  end.

Definition block_on (id : Z) (m : Memory) : Memory :=
  {| resolved := resolved m; waiting := Some id;
     finished := finished m; canceled := canceled m |}.

Definition schedule (ty : command.CommandType) (attr : command.CommandAttr)
    (s : workflowstate.WfState Z) (m : Memory) : workflowstate.WfState Z * Memory :=
  let '(id, s) := workflowstate.GetNextScheduleEventID s in
  let c := {| command.State := command.CommandState_Pending; command.ID := id;
              command.Type_ := ty; command.Attr := attr |} in
  (workflowstate.TrackFuture id id (workflowstate.AddCommand c s), block_on id m).

Definition execute (w : option Fn) (inputs : list payload.Payload)
    (s : workflowstate.WfState Z) (m : Memory)
    : Res (workflowstate.WfState Z * Memory * error) :=
  match w with
  | None => Panic
  | Some ActivityWorkflow =>
      let '(s, m) := schedule command.CommandType_ScheduleActivity
                       (command.ScheduleActivityTaskCommandAttr "add" inputs) s m in
      Ret (s, m, None)
  | Some TimerWorkflow =>
      let '(s, m) := schedule command.CommandType_ScheduleTimer
                       (command.ScheduleTimerCommandAttr (workflowstate.time_ s + 10)) s m in
      Ret (s, m, None)
  | Some CrashingWorkflow =>
      let '(s, m) := schedule command.CommandType_SideEffect
                       (command.SideEffectCommandAttr (Some "42")) s m in
      Ret (s, m, None)
  end.

Definition resume (w : option Fn) (s : workflowstate.WfState Z) (m : Memory)
    : Res (workflowstate.WfState Z * Memory * error) :=
  match w with
  | None => Panic
  | Some fn =>
      match waiting m with
      | None => Ret (s, m, None)
      | Some id =>
          match resolved m !! id with
          | None => Ret (s, m, None)
          | Some r =>
              match fn with
              | CrashingWorkflow => Ret (s, m, Some "panic in workflow function")
              | _ =>
                  Ret (s, {| resolved := resolved m; waiting := None;
                             finished := Some r; canceled := canceled m |}, None)
              end
          end
      end
  end.

Definition commandTypeName (ty : command.CommandType) : string :=
  match ty with
  | command.CommandType_ScheduleActivity => "ScheduleActivity"
  | command.CommandType_ScheduleSubWorkflow => "ScheduleSubWorkflow"
  | command.CommandType_CancelSubWorkflow => "CancelSubWorkflow"
  | command.CommandType_ScheduleTimer => "ScheduleTimer"
  | command.CommandType_CancelTimer => "CancelTimer"
  | command.CommandType_SideEffect => "SideEffect"
  | command.CommandType_CompleteWorkflow => "CompleteWorkflow"
  | command.CommandType_Unknown => "Unknown"
  end.

Definition runtime : Runtime :=
  {| World := Memory;
     WorkflowFn := Fn;
     Workflow := Fn;
     Settable := Z;
     World_init := Memory_init;
     Settable_call := set_future;
     NewWorkflow := fun fn => fn;
     Workflow_Execute := execute;
     Workflow_Continue := resume;
     Workflow_Completed := fun _ m => Ret (bool_decide (finished m ≠ None));
     Workflow_Result := fun _ m => Ret (from_option fst None (finished m));
     Workflow_Error := fun _ m => Ret (from_option snd None (finished m));
     Context_cancel := fun m =>
       Ret {| resolved := resolved m; waiting := waiting m;
              finished := finished m; canceled := true |};
     ReceiveSignal := fun _ _ s m => Ret (s, m);
     Command_written := fun _ m => m;
     time_Now := 0;
     CommandType_String := commandTypeName;
     EventType_String := fun _ => "Unknown" |}.

Definition demoRegistry : @Registry runtime := fun name =>
  if String.eqb name "W" then Some ActivityWorkflow
  else if String.eqb name "Sleep" then Some TimerWorkflow
  else if String.eqb name "Crash" then Some CrashingWorkflow
  else None.

Definition instance : core.WorkflowInstance := core.NewWorkflowInstance "i1" "x1".

Definition event (seq : Z) (ty : history.EventType) (sched : Z)
    (attrs : history.EventAttributes) : history.Event :=
  {| history.SequenceID := seq; history.Type_ := ty; history.Timestamp := 100;
     history.ScheduleEventID := sched; history.VisibleAt := None;
     history.Attributes := attrs |}.

(** A history provider serving a fixed persisted history: the events with
    a sequence id greater than the one asked for. *)
Definition provider (h : list history.Event) : @WorkflowHistoryProvider :=
  fun _ after => (List.filter (fun ev => Z.ltb after (history.SequenceID ev)) h, None).

Definition fresh (h : list history.Event) : @executor runtime :=
  NewExecutor demoRegistry (provider h) instance 100.

(** The executor after a first turn's [WorkflowExecutionStarted] event for
    the workflow registered under [name] has been dispatched. *)
Definition started (name : string) : @executor runtime :=
  match handleWorkflowExecutionStarted name [] (fresh []) with
  | Ret (e, _) => e
  | Panic => fresh []
  end.

Definition withCommands (cs : list command.Command) : @executor runtime :=
  with_workflowState (workflowstate.set_commands cs (workflowState (fresh []))) (fresh []).

Definition pendingCommandOf (id : Z) (ty : command.CommandType)
    (attr : command.CommandAttr) : command.Command :=
  {| command.State := command.CommandState_Pending; command.ID := id;
     command.Type_ := ty; command.Attr := attr |}.

Definition taskOf (i : core.WorkflowInstance) (last : Z)
    (events : list history.Event) : task.Workflow :=
  {| task.ID := "t"; task.WorkflowInstance := i;
     task.LastSequenceID := last; task.NewEvents := events |}.

Definition inputs : list payload.Payload := [Some "1"; Some "2"].

(** First turn of the activity workflow. *)
Definition firstTask : task.Workflow :=
  taskOf instance 0
    [event 0 history.EventType_WorkflowExecutionStarted 0
       (history.ExecutionStartedAttributes "W" inputs)].

(** A first turn whose second new event completes an activity that was
    never scheduled. *)
Definition strayCompletion : history.Event :=
  event 0 history.EventType_ActivityCompleted 7
    (history.ActivityCompletedAttributes (Some "3")).

Definition strayTask : task.Workflow :=
  taskOf instance 0
    [event 0 history.EventType_WorkflowExecutionStarted 0
       (history.ExecutionStartedAttributes "W" inputs);
     strayCompletion].

Definition strayTaskEvents : list history.Event :=
  event 0 history.EventType_WorkflowTaskStarted 0 history.WorkflowTaskStartedAttributes
  :: task.NewEvents strayTask.

(** A persisted history recorded by a run that scheduled the activity "B",
    replayed by the workflow that now schedules "add". *)
Definition changedHistory : list history.Event :=
  [event 1 history.EventType_WorkflowTaskStarted 0 history.WorkflowTaskStartedAttributes;
   event 2 history.EventType_WorkflowExecutionStarted 0
     (history.ExecutionStartedAttributes "W" inputs);
   event 3 history.EventType_ActivityScheduled 1
     (history.ActivityScheduledAttributes "B" inputs)].

Definition staleTask : task.Workflow :=
  taskOf instance 3
    [event 0 history.EventType_ActivityCompleted 1
       (history.ActivityCompletedAttributes (Some "3"))].

(** Two timers, the first of them cancelled. *)
Definition cancelFirstTimer : command.Command :=
  pendingCommandOf 3 command.CommandType_CancelTimer (command.CancelTimerCommandAttr 1).

Definition timerLog : list command.Command :=
  [pendingCommandOf 1 command.CommandType_ScheduleTimer (command.ScheduleTimerCommandAttr 110);
   pendingCommandOf 2 command.CommandType_ScheduleTimer (command.ScheduleTimerCommandAttr 120);
   cancelFirstTimer].

(** A sub-workflow instance started by the command 5 of the instance "i1". *)
Definition child : core.WorkflowInstance :=
  {| core.InstanceID := "c1"; core.ExecutionID := "x2";
     core.ParentInstanceID := "i1"; core.ParentEventID := 5 |}.

Definition completeCommand : command.Command :=
  command.NewCompleteWorkflowCommand 1 (Some "R") None.

(** A pending event created at the demo clock. *)
Definition pending (ty : history.EventType) (sched : Z)
    (visibleAt : option time.Time) (attrs : history.EventAttributes) : history.Event :=
  {| history.SequenceID := 0; history.Type_ := ty; history.Timestamp := 100;
     history.ScheduleEventID := sched; history.VisibleAt := visibleAt;
     history.Attributes := attrs |}.

Definition firstResult : ExecutionResult :=
  {| Completed := false;
     Executed :=
       [event 1 history.EventType_WorkflowTaskStarted 0 history.WorkflowTaskStartedAttributes;
        event 2 history.EventType_WorkflowExecutionStarted 0
          (history.ExecutionStartedAttributes "W" inputs);
        event 3 history.EventType_ActivityScheduled 1
          (history.ActivityScheduledAttributes "add" inputs)];
     ActivityEvents :=
       [pending history.EventType_ActivityScheduled 1 None
          (history.ActivityScheduledAttributes "add" inputs)];
     WorkflowEvents := [] |}.

Definition mismatch : string :=
  "previous workflow execution scheduled different type of activity: B, add".

Definition noFuture : string :=
  "could not find pending future for activity completion".

Definition timerTask : task.Workflow := taskOf instance 0 [].

Definition timerNewEvents : list history.Event :=
  [pending history.EventType_TimerScheduled 1 None (history.TimerScheduledAttributes 110);
   pending history.EventType_TimerScheduled 2 None (history.TimerScheduledAttributes 120)].

Definition timerWorkflowEvents : list history.WorkflowEvent :=
  [{| history.WorkflowInstance := instance;
      history.HistoryEvent :=
        pending history.EventType_TimerFired 1 (Some 110) (history.TimerFiredAttributes 110) |};
   {| history.WorkflowInstance := instance;
      history.HistoryEvent :=
        pending history.EventType_TimerFired 2 (Some 120) (history.TimerFiredAttributes 120) |};
   {| history.WorkflowInstance := instance;
      history.HistoryEvent :=
        pending history.EventType_TimerCanceled 1 None history.TimerCanceledAttributes |}].

Definition childTask : task.Workflow := taskOf child 0 [].

Definition childFinished : history.Event :=
  pending history.EventType_WorkflowExecutionFinished 1 None
    (history.ExecutionCompletedAttributes (Some "R") "").

Definition childNotification : history.WorkflowEvent :=
  {| history.WorkflowInstance := core.NewWorkflowInstance "i1" "";
     history.HistoryEvent :=
       pending history.EventType_SubWorkflowCompleted 5 None
         (history.SubWorkflowCompletedAttributes (Some "R")) |}.

End Demo.

(** ** Definitions used to state the properties *)

Section Statements.
Context {RT : Runtime}.

(** The handler returned normally with a non-nil error. *)
Definition returnsError (r : Res (executor * error)) : Prop :=
  exists e' msg, r = Ret (e', Some msg).

Definition returnsErrorb (r : Res (executor * error)) : bool :=
  match r with
  | Ret (_, Some _) => true
  | _ => false
  end.

(** Resolve the future [f] with no value ([f(nil, nil)]) and resume the
    workflow; a failing resolution is reported as "setting result". *)
Definition resolveWithNoValueAndResume (f : Settable) (e : executor)
    : Res (executor * error) :=
  '(e, err) ← callSettable f None None e;
  match err with
  | Some m => mret (e, Some (Errorf_w "setting result" m))
  | None => continueWorkflow e
  end.

(** The command of the log that "remove command" finds for a schedule
    event id, and the log that is left. *)
Definition pendingCommand (id : Z) (e : executor) : option command.Command :=
  (workflowstate.remove_by_id id (workflowstate.commands (workflowState e))).1.

Definition commandsWithout (id : Z) (e : executor) : list command.Command :=
  (workflowstate.remove_by_id id (workflowstate.commands (workflowState e))).2.

(** The name of the activity a command schedules, when it carries the
    attributes of a [ScheduleActivity] command. *)
Definition activityName (c : command.Command) : option string :=
  match command.Attr c with
  | command.ScheduleActivityTaskCommandAttr n _ => Some n
  | _ => None
  end.

(** [c.State = command.CommandState_Committed] *)
Definition commit (c : command.Command) : command.Command :=
  command.set_State command.CommandState_Committed c.

(** A command log [cs] is translated without error into the outputs
    [out] when [processCommands], started on it with empty outputs, marks
    every command committed and returns [out] with a nil error. *)
Definition translates (e : executor) (instance : core.WorkflowInstance)
    (cs : list command.Command) (out : CommandEvents) : Prop :=
  processCommands_loop e instance cs false [] [] [] = Ret (map commit cs, (out, None)).

(** The outputs of one command, i.e. of the [switch] started on empty
    outputs. *)
Definition commandEvents (e : executor) (instance : core.WorkflowInstance)
    (c : command.Command) : Res (CommandEvents + string) :=
  processCommand e instance c false [] [] [].

(** Outputs [o1] followed by outputs [o2]. *)
Definition appendOutputs (o1 o2 : CommandEvents) : CommandEvents :=
  let '(b1, n1, a1, w1) := o1 in
  let '(b2, n2, a2, w2) := o2 in
  (b1 || b2, n1 ++ n2, a1 ++ a2, w1 ++ w2).

Definition completedOf (o : CommandEvents) : bool := o.1.1.1.
Definition newEventsOf (o : CommandEvents) : list history.Event := o.1.1.2.
Definition activityEventsOf (o : CommandEvents) : list history.Event := o.1.2.
Definition workflowEventsOf (o : CommandEvents) : list history.WorkflowEvent := o.2.

(** A pending event as the executor creates it at time [clock e]: no
    sequence id yet. *)
Definition pendingEvent (e : executor) (ty : history.EventType) (scheduleEventID : Z)
    (visibleAt : option time.Time) (attributes : history.EventAttributes)
    : history.Event :=
  {| history.SequenceID := 0; history.Type_ := ty;
     history.Timestamp := clock e; history.ScheduleEventID := scheduleEventID;
     history.VisibleAt := visibleAt; history.Attributes := attributes |}.

(** The message a finished sub-workflow sends to its parent:
    [SubWorkflowFailed] when it ended with an error, [SubWorkflowCompleted]
    with the result otherwise, under the parent's schedule event id; an
    instance without a parent sends nothing. *)
Definition parentNotification (e : executor) (instance : core.WorkflowInstance)
    (result : payload.Payload) (err : string) : list history.WorkflowEvent :=
  if core.SubWorkflow instance then
    [{| history.WorkflowInstance :=
          {| core.InstanceID := core.ParentInstanceID instance;
             core.ExecutionID := ""; core.ParentInstanceID := "";
             core.ParentEventID := 0 |};
        history.HistoryEvent :=
          if decide (err = "") then
            pendingEvent e history.EventType_SubWorkflowCompleted
              (core.ParentEventID instance) None
              (history.SubWorkflowCompletedAttributes result)
          else
            pendingEvent e history.EventType_SubWorkflowFailed
              (core.ParentEventID instance) None
              (history.SubWorkflowFailedAttributes err) |}]
  else [].

(** The history event that records a command of the given type. *)
Definition matchingEventType (ty : command.CommandType) : history.EventType :=
  match ty with
  | command.CommandType_ScheduleActivity => history.EventType_ActivityScheduled
  | command.CommandType_ScheduleSubWorkflow => history.EventType_SubWorkflowScheduled
  | command.CommandType_CancelSubWorkflow => history.EventType_SubWorkflowCancellationRequested
  | command.CommandType_ScheduleTimer => history.EventType_TimerScheduled
  | command.CommandType_CancelTimer => history.EventType_TimerCanceled
  | command.CommandType_SideEffect => history.EventType_SideEffectResult
  | command.CommandType_CompleteWorkflow => history.EventType_WorkflowExecutionFinished
  | command.CommandType_Unknown => history.EventType_Unknown
  end.

(** The events produced for a turn: the local new events together with
    the events of the cross-instance messages. *)
Definition turnEvents (newEvents : list history.Event)
    (workflowEvents : list history.WorkflowEvent) : list history.Event :=
  newEvents ++ map history.HistoryEvent workflowEvents.

(** The events of a turn that come from the outputs [o]. *)
Definition eventsOf (o : CommandEvents) : list history.Event :=
  turnEvents (newEventsOf o) (workflowEventsOf o).

(** How many of the events have the given schedule event id and type. *)
Definition countEvents (id : Z) (ty : history.EventType)
    (events : list history.Event) : nat :=
  length (List.filter
            (fun ev => bool_decide (history.ScheduleEventID ev = id /\ history.Type_ ev = ty))
            events).

(** How many commands of the log have the given id and type. *)
Definition countCommands (id : Z) (ty : command.CommandType)
    (cs : list command.Command) : nat :=
  length (List.filter
            (fun c => bool_decide (command.ID c = id /\ command.Type_ c = ty)) cs).

(** How many [CancelTimer] commands of the log cancel the timer [id]. *)
Definition countCancellations (id : Z) (cs : list command.Command) : nat :=
  length (List.filter
            (fun c => bool_decide
               (command.Type_ c = command.CommandType_CancelTimer /\
                command.Attr c = command.CancelTimerCommandAttr id)) cs).

(** The command types whose event carries the id of the command itself. *)
Definition recordedUnderOwnId (ty : command.CommandType) : bool :=
  match ty with
  | command.CommandType_ScheduleActivity
  | command.CommandType_ScheduleSubWorkflow
  | command.CommandType_SideEffect
  | command.CommandType_ScheduleTimer
  | command.CommandType_CompleteWorkflow => true
  | _ => false
  end.

(** The command log and the events of the turn after a [processCommands]
    that returned no error. *)
Definition processed (t : task.Workflow) (e : executor)
    : option (list command.Command * list history.Event) :=
  match processCommands t e with
  | Ret (e', (_, newEvents, _, workflowEvents, None)) =>
      Some (workflowstate.commands (workflowState e'),
            turnEvents newEvents workflowEvents)
  | _ => None
  end.

(** The fields of the executor that dispatching events and translating
    commands leave alone. *)
Definition sameFrame (e e' : executor) : Prop :=
  lastSequenceID e' = lastSequenceID e /\ clock e' = clock e.

(** The events [evs] are dispatched one after the other from [e], each
    handler returning nil, and leave the executor [e']. *)
Inductive dispatched : executor -> list history.Event -> executor -> Prop :=
| dispatched_nil e : dispatched e [] e
| dispatched_cons e event e1 events e2 :
    executeEvent event e = Ret (e1, None) ->
    dispatched e1 events e2 ->
    dispatched e (event :: events) e2.

(** A command whose type is one of the seven known ones and whose
    attributes are those of its type. *)
Definition knownCommand (c : command.Command) : bool :=
  match command.Type_ c, command.Attr c with
  | command.CommandType_ScheduleActivity, command.ScheduleActivityTaskCommandAttr _ _
  | command.CommandType_ScheduleSubWorkflow, command.ScheduleSubWorkflowCommandAttr _ _ _
  | command.CommandType_CancelSubWorkflow, command.CancelSubWorkflowCommandAttr _
  | command.CommandType_SideEffect, command.SideEffectCommandAttr _
  | command.CommandType_ScheduleTimer, command.ScheduleTimerCommandAttr _
  | command.CommandType_CancelTimer, command.CancelTimerCommandAttr _
  | command.CommandType_CompleteWorkflow, command.CompleteWorkflowCommandAttr _ _ => true
  | _, _ => false
  end.

(** Outputs of [processCommands] whose events are all still pending (no
    sequence id) and whose activity events all occur among the new events. *)
Definition pendingOutputs (o : CommandEvents) : Prop :=
  Forall (fun ev => history.SequenceID ev = 0) (newEventsOf o) /\
  Forall (fun ev => history.SequenceID ev = 0) (activityEventsOf o) /\
  Forall (fun we => history.SequenceID (history.HistoryEvent we) = 0) (workflowEventsOf o) /\
  activityEventsOf o ⊆ newEventsOf o.

(** The events with the sequence ids the executor hands out after [n]. *)
Fixpoint assignFrom (n : Z) (events : list history.Event) : list history.Event :=
  match events with
  | [] => []
  | event :: rest =>
      history.set_SequenceID (wrap64 (n + 1)) event :: assignFrom (wrap64 (n + 1)) rest
  end.

(** The ids are strictly increasing and all greater than [n]: what the
    history provider promises for the events after sequence id [n]. *)
Fixpoint increasingFrom (n : Z) (ids : list Z) : Prop :=
  match ids with
  | [] => True
  | id :: rest => n < id /\ increasingFrom id rest
  end.

(** What a Go function returned to its caller, if it returned, and the
    executor it left (the executor [d] after a panic). *)
Definition returned {A : Type} (r : Res (executor * A)) : option A :=
  match r with
  | Ret (_, out) => Some out
  | Panic => None
  end.

Definition stateOf {A : Type} (r : Res (executor * A)) (d : executor) : executor :=
  match r with
  | Ret (e, _) => e
  | Panic => d
  end.

(** Dispatches the events one after the other as long as the handlers
    return nil: whether all of them did, and the executor reached. *)
Fixpoint dispatchAll (events : list history.Event) (e : executor) : bool * executor :=
  match events with
  | [] => (true, e)
  | event :: rest =>
      match executeEvent event e with
      | Ret (e1, None) => dispatchAll rest e1
      | _ => (false, e)
      end
  end.

(** The sequence ids [n+1, n+2, ...] handed out for [k] events when no
    [int64] overflow occurs. *)
Definition consecutiveFrom (n : Z) (k : nat) : list Z := seqZ (n + 1) (Z.of_nat k).

End Statements.

(** ** Definitions used to state further properties *)

Section FurtherStatements.
Context {RT : Runtime}.

(** The executor after [e.workflowState.ClearCommands()], the first
    statement of [ExecuteTask]. *)
Definition cleared (e : executor) : executor :=
  with_workflowState (workflowstate.ClearCommands (workflowState e)) e.

(** The sequence id of the last event of a history; [n] when the history
    is empty. *)
Definition lastReplayed (n : Z) (h : list history.Event) : Z :=
  List.last (map history.SequenceID h) n.

Definition isActivityScheduled (ev : history.Event) : bool :=
  bool_decide (history.Type_ ev = history.EventType_ActivityScheduled).

Definition isCompleteWorkflow (c : command.Command) : bool :=
  bool_decide (command.Type_ c = command.CommandType_CompleteWorkflow).

(** Resolve the future [f] with the payload [v] and the error [err], and
    resume the workflow; a failing resolution is reported as
    "setting result". *)
Definition resolveAndResume (f : Settable) (v : payload.Payload) (err : error)
    (e : executor) : Res (executor * error) :=
  '(e, r) ← callSettable f v err e;
  match r with
  | Some m => mret (e, Some (Errorf_w "setting result" m))
  | None => continueWorkflow e
  end.

(** The executor [e] without the command of schedule event id [id]. *)
Definition withoutCommand (id : Z) (e : executor) : executor :=
  with_workflowState
    (workflowstate.set_commands (commandsWithout id e) (workflowState e)) e.

(** The name of the sub-workflow a command schedules, when it carries the
    attributes of a [ScheduleSubWorkflow] command. *)
Definition subWorkflowName (c : command.Command) : option string :=
  match command.Attr c with
  | command.ScheduleSubWorkflowCommandAttr _ n _ => Some n
  | _ => None
  end.

(** The command [c] after [handleSubWorkflowScheduled] has written the
    instance of the event into its attributes. *)
Definition withSubWorkflowInstance (i : core.WorkflowInstance) (c : command.Command)
    : command.Command :=
  match command.Attr c with
  | command.ScheduleSubWorkflowCommandAttr _ n inputs =>
      command.set_Attr (command.ScheduleSubWorkflowCommandAttr i n inputs) c
  | _ => c
  end.

(** The executor as [executeNewEvents] leaves it after its loop has
    dispatched every event: when the workflow function has finished
    ([completed]), the [CompleteWorkflow] command with its result and error
    is added. *)
Definition afterEvents (completed : bool) (result : payload.Payload) (err : error)
    (e : executor) : executor :=
  if completed then workflowCompleted result err e else e.

(** The executor after [processCommands] has marked every command of the
    log committed. *)
Definition committed (e : executor) : executor :=
  with_workflowState
    (workflowstate.set_commands
       (map commit (workflowstate.commands (workflowState e))) (workflowState e)) e.

(** What [ExecuteTask] returns once the events [executedEvents] have been
    executed and the command log has been translated into the outputs [o]:
    the sequence ids are set and the result is built. *)
Definition taskResult (executedEvents : list history.Event) (o : CommandEvents)
    (e : executor) : executor * (option ExecutionResult * error) :=
  let '(executed, e') := setSequenceIDs (executedEvents ++ newEventsOf o) e in
  (e', (Some {| Completed := completedOf o; Executed := executed;
                ActivityEvents := activityEventsOf o;
                WorkflowEvents := workflowEventsOf o |}, None)).

(** The [WorkflowTaskStarted] event [ExecuteTask] creates for a turn. *)
Definition taskStarted (e : executor) : history.Event :=
  pendingEvent e history.EventType_WorkflowTaskStarted 0 None
    history.WorkflowTaskStartedAttributes.

(** The [WorkflowExecutionFinished] event of a [CompleteWorkflow] command
    with the given id, result and error. *)
Definition finishedEvent (e : executor) (id : Z) (result : payload.Payload)
    (err : error) : history.Event :=
  pendingEvent e history.EventType_WorkflowExecutionFinished id None
    (history.ExecutionCompletedAttributes result (default "" err)).

(** The value and the error with which the future of a finished activity
    or sub-workflow is resolved, read off the event that reports it. *)
Definition completionOf (event : history.Event) : option (payload.Payload * error) :=
  match history.Type_ event, history.Attributes event with
  | history.EventType_ActivityCompleted, history.ActivityCompletedAttributes result =>
      Some (result, None)
  | history.EventType_ActivityFailed, history.ActivityFailedAttributes reason =>
      Some (None, Some reason)
  | history.EventType_SubWorkflowCompleted, history.SubWorkflowCompletedAttributes result =>
      Some (result, None)
  | history.EventType_SubWorkflowFailed, history.SubWorkflowFailedAttributes err =>
      Some (None, Some err)
  | _, _ => None
  end.

(** Whether attributes have the dynamic type that [executeEvent] asserts
    for events of the given type; the three cases without an assertion
    accept every attribute. *)
Definition attributesMatch (ty : history.EventType) (a : history.EventAttributes) : bool :=
  match ty, a with
  | history.EventType_WorkflowExecutionStarted, history.ExecutionStartedAttributes _ _
  | history.EventType_WorkflowExecutionFinished, _
  | history.EventType_WorkflowExecutionCanceled, _
  | history.EventType_WorkflowTaskStarted, history.WorkflowTaskStartedAttributes
  | history.EventType_ActivityScheduled, history.ActivityScheduledAttributes _ _
  | history.EventType_ActivityFailed, history.ActivityFailedAttributes _
  | history.EventType_ActivityCompleted, history.ActivityCompletedAttributes _
  | history.EventType_TimerScheduled, history.TimerScheduledAttributes _
  | history.EventType_TimerFired, history.TimerFiredAttributes _
  | history.EventType_TimerCanceled, history.TimerCanceledAttributes
  | history.EventType_SignalReceived, history.SignalReceivedAttributes _ _
  | history.EventType_SideEffectResult, history.SideEffectResultAttributes _
  | history.EventType_SubWorkflowScheduled, history.SubWorkflowScheduledAttributes _ _ _
  | history.EventType_SubWorkflowCancellationRequested,
      history.SubWorkflowCancellationRequestedAttributes _
  | history.EventType_SubWorkflowFailed, history.SubWorkflowFailedAttributes _
  | history.EventType_SubWorkflowCompleted, history.SubWorkflowCompletedAttributes _
  | history.EventType_Unknown, _ => true
  | _, _ => false
  end.

End FurtherStatements.

(** ** Further scenarios on the demo runtime *)

Module Cases.

(** An executor whose history provider fails. *)
Definition offline : @executor Demo.runtime :=
  NewExecutor Demo.demoRegistry (fun _ _ => ([], Some "backend down")) Demo.instance 100.

(** An executor that has already seen five events. *)
Definition ahead : @executor Demo.runtime := with_lastSequenceID 5 (Demo.fresh []).

(** The persisted history of a first turn of the activity workflow. *)
Definition recorded : list history.Event :=
  [Demo.event 1 history.EventType_WorkflowTaskStarted 0 history.WorkflowTaskStartedAttributes;
   Demo.event 2 history.EventType_WorkflowExecutionStarted 0
     (history.ExecutionStartedAttributes "W" Demo.inputs);
   Demo.event 3 history.EventType_ActivityScheduled 1
     (history.ActivityScheduledAttributes "add" Demo.inputs)].

(** A task that claims two more events than were persisted. *)
Definition lateTask : task.Workflow := Demo.taskOf Demo.instance 5 [].

(** A persisted history whose last event schedules an activity although
    no workflow was started, and the task that follows its first event. *)
Definition broken : list history.Event :=
  [Demo.event 1 history.EventType_WorkflowTaskStarted 0 history.WorkflowTaskStartedAttributes;
   Demo.event 1 history.EventType_ActivityScheduled 1
     (history.ActivityScheduledAttributes "add" Demo.inputs)].

Definition brokenTask : task.Workflow :=
  Demo.taskOf Demo.instance 1
    [Demo.event 0 history.EventType_WorkflowExecutionStarted 0
       (history.ExecutionStartedAttributes "W" Demo.inputs)].

Definition notScheduled : string :=
  "previous workflow execution scheduled an activity which could not be found".

Definition older : string := "task has older history than current state, cannot execute".

Definition timer (id : Z) (at_ : time.Time) : command.Command :=
  Demo.pendingCommandOf id command.CommandType_ScheduleTimer
    (command.ScheduleTimerCommandAttr at_).

Definition unknown : command.Command :=
  Demo.pendingCommandOf 2 command.CommandType_Unknown (command.ScheduleTimerCommandAttr 0).

Definition timerOutputs : CommandEvents :=
  (false,
   [Demo.pending history.EventType_TimerScheduled 1 None (history.TimerScheduledAttributes 110)],
   [],
   [{| history.WorkflowInstance := Demo.instance;
       history.HistoryEvent :=
         Demo.pending history.EventType_TimerFired 1 (Some 110)
           (history.TimerFiredAttributes 110) |}]).

Definition activity : command.Command :=
  Demo.pendingCommandOf 1 command.CommandType_ScheduleActivity
    (command.ScheduleActivityTaskCommandAttr "add" []).

Definition activityScheduled : history.Event :=
  Demo.pending history.EventType_ActivityScheduled 1 None
    (history.ActivityScheduledAttributes "add" []).

Definition timerScheduled : history.Event :=
  Demo.pending history.EventType_TimerScheduled 2 None (history.TimerScheduledAttributes 120).

Definition timerFired : history.WorkflowEvent :=
  {| history.WorkflowInstance := Demo.instance;
     history.HistoryEvent :=
       Demo.pending history.EventType_TimerFired 2 (Some 120)
         (history.TimerFiredAttributes 120) |}.

Definition subWorkflow : command.Command :=
  Demo.pendingCommandOf 5 command.CommandType_ScheduleSubWorkflow
    (command.ScheduleSubWorkflowCommandAttr Demo.child "Sub" Demo.inputs).

Definition subWorkflowScheduled : history.Event :=
  Demo.pending history.EventType_SubWorkflowScheduled 5 None
    (history.SubWorkflowScheduledAttributes Demo.child "Sub" Demo.inputs).

Definition subWorkflowStarted : history.WorkflowEvent :=
  {| history.WorkflowInstance := Demo.child;
     history.HistoryEvent :=
       Demo.pending history.EventType_WorkflowExecutionStarted 5 None
         (history.ExecutionStartedAttributes "Sub" Demo.inputs) |}.

Definition sideEffect : command.Command :=
  Demo.pendingCommandOf 4 command.CommandType_SideEffect
    (command.SideEffectCommandAttr (Some "42")).

Definition sideEffectResult : history.Event :=
  Demo.pending history.EventType_SideEffectResult 4 None
    (history.SideEffectResultAttributes (Some "42")).

Definition cancelSubWorkflow : command.Command :=
  Demo.pendingCommandOf 6 command.CommandType_CancelSubWorkflow
    (command.CancelSubWorkflowCommandAttr Demo.child).

Definition cancellationRequested : history.Event :=
  Demo.pending history.EventType_SubWorkflowCancellationRequested 0 None
    (history.SubWorkflowScheduledAttributes Demo.child "" []).

Definition cancellationSent : history.WorkflowEvent :=
  {| history.WorkflowInstance := Demo.child;
     history.HistoryEvent :=
       {| history.SequenceID := 0;
          history.Type_ := history.EventType_WorkflowExecutionCanceled;
          history.Timestamp := 0;
          history.ScheduleEventID := 0;
          history.VisibleAt := None;
          history.Attributes := history.ExecutionCanceledAttributes |} |}.

(** An [ActivityCompleted] event that carries the attributes of a
    cancelled timer. *)
Definition corrupted : history.Event :=
  Demo.event 4 history.EventType_ActivityCompleted 1 history.TimerCanceledAttributes.

End Cases.

(** ** Properties of the event handlers *)

Section HandlerProperties.
Context {RT : Runtime}.

(** Case analysis on hypotheses that equate outcomes of Go code. *)
Ltac destruct_res :=
  repeat match goal with
  | H : exists _, _ |- _ => destruct H
  | H : _ /\ _ |- _ => destruct H
  | H : _ \/ _ |- _ => destruct H
  | H : Some _ = Some _ |- _ => inversion H; clear H; subst
  | H : Ret _ = Ret _ |- _ => inversion H; clear H; subst
  | H : Panic = Ret _ |- _ => discriminate H
  | H : Ret _ = Panic |- _ => discriminate H
  | H : Some _ = None |- _ => discriminate H
  | H : None = Some _ |- _ => discriminate H
  | |- _ /\ _ => split
  end.

Lemma returnsError_iff (r : Res (executor * error)) :
  returnsError r <-> returnsErrorb r = true.
Proof.
  unfold returnsError. destruct r as [[e' [msg|]]|]; simpl; split;
    intros; destruct_res; eauto; discriminate.
Qed.

Lemma remove_by_id_Some id cs c rest :
  workflowstate.remove_by_id id cs = (Some c, rest) ->
  command.ID c = id /\
  exists l1 l2, cs = l1 ++ c :: l2 /\ rest = l1 ++ l2 /\
    Forall (fun x => command.ID x <> id) l1.
Proof.
  revert rest. induction cs as [|x cs IH]; intros rest H; simpl in H.
  - discriminate.
  - destruct (Z.eqb_spec (command.ID x) id) as [Heq|Hne].
    + inversion H; subst. split; [reflexivity|].
      exists [], rest. repeat split. constructor.
    + destruct (workflowstate.remove_by_id id cs) as [r rest'] eqn:Hr.
      inversion H; subst.
      destruct (IH rest' eq_refl) as [Hid (l1 & l2 & -> & -> & Hall)].
      split; [exact Hid|].
      exists (x :: l1), l2. repeat split. constructor; assumption.
Qed.

Lemma remove_by_id_None id cs rest :
  workflowstate.remove_by_id id cs = (None, rest) ->
  rest = cs /\ Forall (fun x => command.ID x <> id) cs.
Proof.
  revert rest. induction cs as [|x cs IH]; intros rest H; simpl in H.
  - inversion H. split; [reflexivity|constructor].
  - destruct (Z.eqb_spec (command.ID x) id) as [Heq|Hne]; [discriminate|].
    destruct (workflowstate.remove_by_id id cs) as [r rest'] eqn:Hr.
    inversion H; subst.
    destruct (IH rest' eq_refl) as [-> Hall].
    split; [reflexivity|constructor; assumption].
Qed.

Lemma removeCommand_eq id e :
  removeCommand id e =
  (pendingCommand id e,
   with_workflowState
     (workflowstate.set_commands (commandsWithout id e) (workflowState e)) e).
Proof.
  unfold removeCommand, workflowstate.RemoveCommandByEventID,
    pendingCommand, commandsWithout.
  destruct (workflowstate.remove_by_id id _); reflexivity.
Qed.

(** C6. [handleActivityScheduled] takes the command with the event's
    schedule event id out of the command log.  It returns an error exactly
    when there is no such command, the command is not of type
    [ScheduleActivity], or its activity name differs from the event's; on a
    matching command it returns nil.  Whatever it returns, only the command
    log changes: no future is called and the future registry is as before. *)
Theorem handleActivityScheduled_determinism_check
    (event : history.Event) (Name : string) (e : executor) :
  let id := history.ScheduleEventID event in
  let e1 := with_workflowState
              (workflowstate.set_commands (commandsWithout id e) (workflowState e)) e in
  (returnsError (handleActivityScheduled event Name e) <->
     (pendingCommand id e = None \/
      exists c, pendingCommand id e = Some c /\
        (command.Type_ c <> command.CommandType_ScheduleActivity \/
         exists n, activityName c = Some n /\ n <> Name))) /\
  (forall c, pendingCommand id e = Some c ->
     command.Type_ c = command.CommandType_ScheduleActivity ->
     activityName c = Some Name ->
     handleActivityScheduled event Name e = Ret (e1, None)) /\
  (forall e' r, handleActivityScheduled event Name e = Ret (e', r) ->
     e' = e1 /\
     workflowCtx e' = workflowCtx e /\
     workflowstate.pendingFutures (workflowState e') =
       workflowstate.pendingFutures (workflowState e)).
Proof.
  intros id e1. unfold handleActivityScheduled, returnsError.
  rewrite removeCommand_eq. fold id. fold e1.
  destruct (pendingCommand id e) as [c|] eqn:Hc.
  - unfold activityName.
    destruct (decide (command.Type_ c = command.CommandType_ScheduleActivity)) as [Hty|Hty].
    + rewrite (bool_decide_eq_true_2 _ Hty). simpl.
      destruct (command.Attr c) as [n i| | | | | |] eqn:Hattr.
      1: destruct (String.eqb_spec Name n) as [->|Hn]; simpl.
      all: cbv [mret Res_ret].
      all: split; [split|split].
      all: try solve [intros; destruct_res; rewrite ?Hattr in *; destruct_res; try congruence; eauto 8].
      * intros _. right. exists c. split; [reflexivity|]. right. exists n.
        rewrite Hattr. split; [reflexivity|congruence].
    + rewrite (bool_decide_eq_false_2 _ Hty). simpl. cbv [mret Res_ret].
      split; [split|split].
      all: try solve [intros; destruct_res; try congruence; eauto 8].
  - cbv [mret Res_ret]. split; [split|split].
    all: try solve [intros; destruct_res; try congruence; eauto 8].
Qed.

(** C5. A [TimerFired] or [TimerCanceled] event whose schedule event id
    has no registered future is a no-op: both handlers return nil and leave
    the executor as it was.  When the future is registered,
    [handleTimerCanceled] removes the command with that id, resolves the
    future with no value and resumes the workflow; [handleTimerFired] does
    the same when the removed command is a [ScheduleTimer] command, and
    fails, without resolving or resuming, when the command is absent or of
    another type. *)
Theorem timer_handlers_tolerate_absent_future
    (event : history.Event) (e : executor) :
  let id := history.ScheduleEventID event in
  let e1 := with_workflowState
              (workflowstate.set_commands (commandsWithout id e) (workflowState e)) e in
  match workflowstate.FutureByScheduleEventID id (workflowState e) with
  | None =>
      handleTimerFired event e = Ret (e, None) /\
      handleTimerCanceled event e = Ret (e, None)
  | Some f =>
      handleTimerCanceled event e = resolveWithNoValueAndResume f e1 /\
      match pendingCommand id e with
      | None => exists msg, handleTimerFired event e = Ret (e1, Some msg)
      | Some c =>
          if decide (command.Type_ c = command.CommandType_ScheduleTimer)
          then handleTimerFired event e = resolveWithNoValueAndResume f e1
          else exists msg, handleTimerFired event e = Ret (e1, Some msg)
      end
  end.
Proof.
  intros id e1. unfold handleTimerFired, handleTimerCanceled.
  fold id. destruct (workflowstate.FutureByScheduleEventID id (workflowState e)) as [f|].
  - rewrite removeCommand_eq. fold e1. split; [reflexivity|].
    destruct (pendingCommand id e) as [c|].
    + destruct (decide (command.Type_ c = command.CommandType_ScheduleTimer)) as [Hty|Hty].
      * rewrite (bool_decide_eq_true_2 _ Hty). reflexivity.
      * rewrite (bool_decide_eq_false_2 _ Hty). simpl. eauto.
    + eauto.
  - split; reflexivity.
Qed.

(** C9 (as the code has it).  [handleSideEffectResult] returns the error
    "no pending future found for side effect result event", leaving the
    executor unchanged, when no future is registered for the event's
    schedule event id.  When the future [f] is registered it calls
    [f(result, nil)], drops the error of that call, and resumes the
    workflow on the workflow state it was given: the handler removes no
    command.  It returns what the resumption returns, so with a registered
    future it returns an error exactly when resuming the workflow does. *)
Theorem handleSideEffectResult_resolves_and_resumes
    (event : history.Event) (Result : payload.Payload) (e : executor) :
  let id := history.ScheduleEventID event in
  match workflowstate.FutureByScheduleEventID id (workflowState e) with
  | None =>
      handleSideEffectResult event Result e =
        Ret (e, Some "no pending future found for side effect result event")
  | Some f =>
      match Settable_call f Result None (workflowCtx e) with
      | Panic => handleSideEffectResult event Result e = Panic
      | Ret (w, _) =>
          handleSideEffectResult event Result e =
            ('(s, w', r) ← Workflow_Continue (workflow e) (workflowState e) w;
             mret (with_workflowCtx w' (with_workflowState s (with_workflowCtx w e)), r)) /\
          (returnsError (handleSideEffectResult event Result e) <->
           exists s w' msg,
             Workflow_Continue (workflow e) (workflowState e) w = Ret (s, w', Some msg))
      end
  end.
Proof.
  intros id. unfold handleSideEffectResult. fold id.
  destruct (workflowstate.FutureByScheduleEventID id (workflowState e)) as [f|];
    [|reflexivity].
  unfold callSettable.
  destruct (Settable_call f Result None (workflowCtx e)) as [[w r0]|]; [|reflexivity].
  cbn. unfold continueWorkflow. cbn.
  split; [reflexivity|].
  unfold returnsError.
  destruct (Workflow_Continue (workflow e) (workflowState e) w) as [[[s w'] r]|]; cbn.
  - split.
    + intros (e' & msg & H). inversion H; subst. eauto.
    + intros (s0 & w0 & msg & H). inversion H; subst. eauto.
  - split.
    + intros (e' & msg & H). discriminate.
    + intros (s0 & w0 & msg & H). discriminate.
Qed.

End HandlerProperties.

(** ** Properties of the translation of commands *)

Section CommandProperties.
Context {RT : Runtime}.

Lemma processCommand_commit e instance c completed newEvents activityEvents workflowEvents :
  processCommand e instance (commit c) completed newEvents activityEvents workflowEvents =
  processCommand e instance c completed newEvents activityEvents workflowEvents.
Proof. reflexivity. Qed.

Lemma processCommand_acc e instance c completed newEvents activityEvents workflowEvents :
  processCommand e instance c completed newEvents activityEvents workflowEvents =
  r ← commandEvents e instance c;
  mret (match r with
        | inl o => inl (appendOutputs (completed, newEvents, activityEvents, workflowEvents) o)
        | inr m => inr m
        end).
Proof.
  unfold commandEvents, processCommand.
  destruct (command.Type_ c), (command.Attr c); try reflexivity;
    try destruct (core.SubWorkflow instance); cbn;
    rewrite ?orb_false_r, ?orb_true_r, ?app_nil_r; reflexivity.
Qed.

Lemma appendOutputs_assoc o1 o2 o3 :
  appendOutputs (appendOutputs o1 o2) o3 = appendOutputs o1 (appendOutputs o2 o3).
Proof.
  destruct o1 as [[[b1 n1] a1] w1], o2 as [[[b2 n2] a2] w2], o3 as [[[b3 n3] a3] w3].
  cbn. rewrite orb_assoc, <- !app_assoc. reflexivity.
Qed.

Lemma appendOutputs_empty_l o : appendOutputs (false, [], [], []) o = o.
Proof. destruct o as [[[b n] a] w]. reflexivity. Qed.

Lemma appendOutputs_empty_r o : appendOutputs o (false, [], [], []) = o.
Proof.
  destruct o as [[[b n] a] w]. cbn. rewrite orb_false_r, !app_nil_r. reflexivity.
Qed.

(** The loop started on arbitrary outputs, in terms of the loop started on
    empty outputs. *)
Lemma processCommands_loop_acc e instance cs :
  forall completed newEvents activityEvents workflowEvents,
  processCommands_loop e instance cs completed newEvents activityEvents workflowEvents =
  '(cs', (o, err)) ← processCommands_loop e instance cs false [] [] [];
  mret (cs', match err with
             | None => (appendOutputs (completed, newEvents, activityEvents, workflowEvents) o, None)
             | Some m => (o, Some m)
             end).
Proof.
  induction cs as [|c cs IH]; intros completed newEvents activityEvents workflowEvents.
  - cbn. rewrite orb_false_r, !app_nil_r. reflexivity.
  - cbn [processCommands_loop]. fold (commit c).
    rewrite !(processCommand_acc e instance (commit c)).
    destruct (commandEvents e instance (commit c)) as [[o1|m]|]; cbn; [|reflexivity..].
    destruct o1 as [[[b1 n1] a1] w1]. cbn.
    rewrite (IH (completed || b1) (newEvents ++ n1) (activityEvents ++ a1) (workflowEvents ++ w1)).
    rewrite (IH b1 n1 a1 w1).
    destruct (processCommands_loop e instance cs false [] [] []) as [[cs' [o err]]|];
      cbn; [|reflexivity].
    destruct err as [m|]; cbn; [reflexivity|].
    destruct o as [[[b2 n2] a2] w2]. cbn.
    rewrite orb_assoc, <- !app_assoc. reflexivity.
Qed.

Lemma translates_nil e instance out :
  translates e instance [] out <-> out = (false, [], [], []).
Proof.
  unfold translates. cbn. split.
  - intros H. inversion H. reflexivity.
  - intros ->. reflexivity.
Qed.

Lemma translates_cons e instance c cs out :
  translates e instance (c :: cs) out <->
  exists o1 o2, commandEvents e instance c = Ret (inl o1) /\
    translates e instance cs o2 /\ out = appendOutputs o1 o2.
Proof.
  unfold translates. cbn [processCommands_loop map]. fold (commit c).
  rewrite processCommand_acc. unfold commandEvents at 1.
  rewrite processCommand_commit. fold (commandEvents e instance c).
  destruct (commandEvents e instance c) as [[o1|m]|]; cbn.
  - destruct o1 as [[[b1 n1] a1] w1].
    rewrite processCommands_loop_acc.
    destruct (processCommands_loop e instance cs false [] [] []) as [[cs' [o err]]|]; cbn.
    + destruct err as [m|]; split.
      * intros H. inversion H.
      * intros (o1 & o2 & H1 & H2 & ->). inversion H2.
      * intros H. inversion H; subst. exists (b1, n1, a1, w1), o.
        repeat split; congruence.
      * intros (o1 & o2 & H1 & H2 & ->). inversion H1; subst. inversion H2; subst.
        reflexivity.
    + split; [intros H; inversion H|intros (o1 & o2 & H1 & H2 & ->); inversion H2].
  - split; [intros H; inversion H|intros (o1 & o2 & H1 & H2 & ->); inversion H1].
  - split; [intros H; inversion H|intros (o1 & o2 & H1 & H2 & ->); inversion H1].
Qed.

Lemma translates_app e instance l1 l2 out :
  translates e instance (l1 ++ l2) out <->
  exists o1 o2, translates e instance l1 o1 /\ translates e instance l2 o2 /\
    out = appendOutputs o1 o2.
Proof.
  revert out. induction l1 as [|c l1 IH]; intros out.
  - cbn [app]. split.
    + intros H. exists (false, [], [], []), out.
      rewrite translates_nil, appendOutputs_empty_l. auto.
    + intros (o1 & o2 & H1 & H2 & ->). apply translates_nil in H1 as ->.
      rewrite appendOutputs_empty_l. exact H2.
  - rewrite <- app_comm_cons, translates_cons. split.
    + intros (oc & o & Hc & H & ->). apply IH in H as (o1 & o2 & H1 & H2 & ->).
      exists (appendOutputs oc o1), o2. split; [|split; [exact H2|]].
      * apply translates_cons. eauto.
      * symmetry. apply appendOutputs_assoc.
    + intros (o1 & o2 & H1 & H2 & ->).
      apply translates_cons in H1 as (oc & o & Hc & H & ->).
      exists oc, (appendOutputs o o2). split; [exact Hc|]. split.
      * apply IH. eauto.
      * apply appendOutputs_assoc.
Qed.

(** A loop that ends without error has marked every command committed. *)
Lemma processCommands_loop_commits e instance cs :
  forall cs' out,
  processCommands_loop e instance cs false [] [] [] = Ret (cs', (out, None)) ->
  cs' = map commit cs.
Proof.
  induction cs as [|c cs IH]; intros cs' out H.
  - cbn in H. inversion H. reflexivity.
  - cbn [processCommands_loop] in H. fold (commit c) in H.
    destruct (processCommand e instance (commit c) false [] [] []) as [[o1|m]|];
      cbn in H; [|inversion H..].
    destruct o1 as [[[b1 n1] a1] w1].
    rewrite processCommands_loop_acc in H.
    destruct (processCommands_loop e instance cs false [] [] []) as [[cs0 [o err]]|] eqn:Hl;
      cbn in H; [|inversion H].
    destruct err as [m|]; inversion H; subst.
    cbn. f_equal. eapply IH. reflexivity.
Qed.

(** [processCommands] without error is the translation of the command log. *)
Lemma processCommands_translates t e e' completed newEvents activityEvents workflowEvents :
  processCommands t e =
    Ret (e', (completed, newEvents, activityEvents, workflowEvents, None)) ->
  translates e (task.WorkflowInstance t) (workflowstate.commands (workflowState e))
    (completed, newEvents, activityEvents, workflowEvents) /\
  e' = with_workflowState
         (workflowstate.set_commands
            (map commit (workflowstate.commands (workflowState e))) (workflowState e)) e.
Proof.
  unfold processCommands, workflowstate.Commands, translates. intros H.
  destruct (processCommands_loop e (task.WorkflowInstance t)
              (workflowstate.commands (workflowState e)) false [] [] [])
    as [[cs' [o err]]|] eqn:Hl; cbn in H; [|inversion H].
  inversion H; subst.
  pose proof (processCommands_loop_commits _ _ _ _ _ Hl) as ->.
  split; reflexivity.
Qed.

Lemma processCommands_split t e e' completed newEvents activityEvents workflowEvents l1 c l2 :
  processCommands t e =
    Ret (e', (completed, newEvents, activityEvents, workflowEvents, None)) ->
  workflowstate.commands (workflowState e) = l1 ++ c :: l2 ->
  exists o1 oc o2,
    translates e (task.WorkflowInstance t) l1 o1 /\
    commandEvents e (task.WorkflowInstance t) c = Ret (inl oc) /\
    translates e (task.WorkflowInstance t) l2 o2 /\
    (completed, newEvents, activityEvents, workflowEvents) =
      appendOutputs o1 (appendOutputs oc o2).
Proof.
  intros H Hlog. apply processCommands_translates in H as [H _].
  rewrite Hlog in H. apply translates_app in H as (o1 & o & H1 & H & Hout).
  apply translates_cons in H as (oc & o2 & Hc & H2 & ->).
  exists o1, oc, o2. auto.
Qed.

(** C4. Every [ScheduleTimer] command that [processCommands] processes
    appends exactly one event to the local new events, the [TimerScheduled]
    event with the command's id as schedule event id, and exactly one
    message to the workflow events, addressed to the workflow's own
    instance: the [TimerFired] event with the same schedule event id and
    [VisibleAt] set to the fire time of the timer.  The outputs of the turn
    are those of the commands before it, these two, and those of the
    commands after it. *)
Theorem ScheduleTimer_scheduled_and_fired
    (t : task.Workflow) (e e' : executor) (completed : bool)
    (newEvents activityEvents : list history.Event)
    (workflowEvents : list history.WorkflowEvent)
    (l1 l2 : list command.Command) (c : command.Command) :
  processCommands t e =
    Ret (e', (completed, newEvents, activityEvents, workflowEvents, None)) ->
  workflowstate.commands (workflowState e) = l1 ++ c :: l2 ->
  command.Type_ c = command.CommandType_ScheduleTimer ->
  exists At o1 o2,
    command.Attr c = command.ScheduleTimerCommandAttr At /\
    translates e (task.WorkflowInstance t) l1 o1 /\
    translates e (task.WorkflowInstance t) l2 o2 /\
    newEvents =
      newEventsOf o1 ++
      [pendingEvent e history.EventType_TimerScheduled (command.ID c) None
         (history.TimerScheduledAttributes At)] ++
      newEventsOf o2 /\
    activityEvents = activityEventsOf o1 ++ activityEventsOf o2 /\
    workflowEvents =
      workflowEventsOf o1 ++
      [{| history.WorkflowInstance := task.WorkflowInstance t;
          history.HistoryEvent :=
            pendingEvent e history.EventType_TimerFired (command.ID c) (Some At)
              (history.TimerFiredAttributes At) |}] ++
      workflowEventsOf o2.
Proof.
  intros H Hlog Hty.
  destruct (processCommands_split _ _ _ _ _ _ _ _ _ _ H Hlog)
    as (o1 & oc & o2 & H1 & Hc & H2 & Hout).
  unfold commandEvents, processCommand in Hc. rewrite Hty in Hc.
  destruct (command.Attr c) as [| | | |At| |]; try discriminate Hc.
  cbn in Hc. inversion Hc; subst oc. clear Hc.
  exists At, o1, o2.
  destruct o1 as [[[b1 n1] a1] w1], o2 as [[[b2 n2] a2] w2].
  cbn in Hout. inversion Hout; subst.
  repeat split; assumption.
Qed.

(** C7. Every [CompleteWorkflow] command that [processCommands] processes
    makes the completed flag true and appends to the local new events the
    [WorkflowExecutionFinished] event carrying the command's result and
    error.  To the workflow events it appends, exactly when the instance is
    a sub-workflow, one message addressed to the parent instance, with the
    instance's parent schedule event id: [SubWorkflowFailed] when the error
    string is not empty, [SubWorkflowCompleted] with the result otherwise. *)
Theorem CompleteWorkflow_finishes_and_notifies_parent
    (t : task.Workflow) (e e' : executor) (completed : bool)
    (newEvents activityEvents : list history.Event)
    (workflowEvents : list history.WorkflowEvent)
    (l1 l2 : list command.Command) (c : command.Command) :
  processCommands t e =
    Ret (e', (completed, newEvents, activityEvents, workflowEvents, None)) ->
  workflowstate.commands (workflowState e) = l1 ++ c :: l2 ->
  command.Type_ c = command.CommandType_CompleteWorkflow ->
  exists result err o1 o2,
    command.Attr c = command.CompleteWorkflowCommandAttr result err /\
    translates e (task.WorkflowInstance t) l1 o1 /\
    translates e (task.WorkflowInstance t) l2 o2 /\
    completed = true /\
    newEvents =
      newEventsOf o1 ++
      [pendingEvent e history.EventType_WorkflowExecutionFinished (command.ID c) None
         (history.ExecutionCompletedAttributes result err)] ++
      newEventsOf o2 /\
    activityEvents = activityEventsOf o1 ++ activityEventsOf o2 /\
    workflowEvents =
      workflowEventsOf o1 ++
      parentNotification e (task.WorkflowInstance t) result err ++
      workflowEventsOf o2.
Proof.
  intros H Hlog Hty.
  destruct (processCommands_split _ _ _ _ _ _ _ _ _ _ H Hlog)
    as (o1 & oc & o2 & H1 & Hc & H2 & Hout).
  unfold commandEvents, processCommand in Hc. rewrite Hty in Hc.
  destruct (command.Attr c) as [| | | | | |result err]; try discriminate Hc.
  exists result, err, o1, o2.
  destruct o1 as [[[b1 n1] a1] w1], o2 as [[[b2 n2] a2] w2].
  unfold parentNotification.
  destruct (core.SubWorkflow (task.WorkflowInstance t)).
  - destruct (decide (err = "")) as [->|Hne].
    + cbn in Hc. inversion Hc; subst oc. clear Hc.
      cbn in Hout. inversion Hout; subst.
      rewrite orb_true_r. repeat split; assumption.
    + assert (Heq : String.eqb err "" = false) by (apply String.eqb_neq; exact Hne).
      rewrite Heq in Hc. cbn in Hc. inversion Hc; subst oc. clear Hc.
      cbn in Hout. inversion Hout; subst.
      rewrite orb_true_r. repeat split; assumption.
  - cbn in Hc. inversion Hc; subst oc. clear Hc.
    cbn in Hout. inversion Hout; subst.
    rewrite orb_true_r. repeat split; assumption.
Qed.

(** *** Counting the events of a command *)

Lemma countEvents_app id ty l1 l2 :
  countEvents id ty (l1 ++ l2) = (countEvents id ty l1 + countEvents id ty l2)%nat.
Proof. unfold countEvents. rewrite List.filter_app, length_app. reflexivity. Qed.

Lemma countEvents_appendOutputs id ty o1 o2 :
  countEvents id ty (eventsOf (appendOutputs o1 o2)) =
  (countEvents id ty (eventsOf o1) + countEvents id ty (eventsOf o2))%nat.
Proof.
  destruct o1 as [[[b1 n1] a1] w1], o2 as [[[b2 n2] a2] w2].
  unfold eventsOf, turnEvents, appendOutputs, newEventsOf, workflowEventsOf.
  cbn [fst snd]. rewrite map_app, !countEvents_app. lia.
Qed.

Ltac count_cases :=
  unfold countEvents, countCommands, countCancellations, eventsOf, turnEvents;
  cbn;
  repeat match goal with
  | H : command.Type_ ?c = _ |- context [command.Type_ ?c] => rewrite H
  | H : command.Attr ?c = _ |- context [command.Attr ?c] => rewrite H
  end;
  repeat case_bool_decide; cbn; try reflexivity;
  exfalso; destruct_and?; simplify_eq; intuition congruence.

(** An event of a command of one of the five types recorded under their
    own id is counted for that id and the matching event type, and for no
    other. *)
Lemma countEvents_command e instance c o id ty :
  commandEvents e instance c = Ret (inl o) ->
  recordedUnderOwnId ty = true ->
  countEvents id (matchingEventType ty) (eventsOf o) = countCommands id ty [c].
Proof.
  intros H Hty. unfold commandEvents, processCommand in H.
  destruct (command.Type_ c) eqn:Hc, (command.Attr c) eqn:Ha; try discriminate H;
    try destruct (core.SubWorkflow instance);
    try match type of H with context [String.eqb ?a ?b] => destruct (String.eqb a b) end;
    cbn in H; inversion H; subst o; clear H;
    destruct ty; try discriminate Hty; clear Hty;
    count_cases.
Qed.

(** A [TimerCanceled] event is counted for the timer its [CancelTimer]
    command names. *)
Lemma countEvents_cancellation e instance c o id :
  commandEvents e instance c = Ret (inl o) ->
  countEvents id history.EventType_TimerCanceled (eventsOf o) =
  countCancellations id [c].
Proof.
  intros H. unfold commandEvents, processCommand in H.
  destruct (command.Type_ c) eqn:Hc, (command.Attr c) eqn:Ha; try discriminate H;
    try destruct (core.SubWorkflow instance);
    try match type of H with context [String.eqb ?a ?b] => destruct (String.eqb a b) end;
    cbn in H; inversion H; subst o; clear H;
    count_cases.
Qed.

Lemma countCommands_cons id ty c cs :
  countCommands id ty (c :: cs) = (countCommands id ty [c] + countCommands id ty cs)%nat.
Proof.
  unfold countCommands. cbn. case_bool_decide; reflexivity.
Qed.

Lemma countCancellations_cons id c cs :
  countCancellations id (c :: cs) =
  (countCancellations id [c] + countCancellations id cs)%nat.
Proof.
  unfold countCancellations. cbn. case_bool_decide; reflexivity.
Qed.

Lemma countEvents_translates e instance cs :
  forall o, translates e instance cs o ->
  forall id,
    (forall ty, recordedUnderOwnId ty = true ->
       countEvents id (matchingEventType ty) (eventsOf o) = countCommands id ty cs) /\
    countEvents id history.EventType_TimerCanceled (eventsOf o) =
      countCancellations id cs.
Proof.
  induction cs as [|c cs IH]; intros o H id.
  - apply translates_nil in H as ->. split; [intros ty _|]; reflexivity.
  - apply translates_cons in H as (oc & o2 & Hc & H2 & ->).
    destruct (IH o2 H2 id) as [IH1 IH2]. split.
    + intros ty Hty. rewrite countEvents_appendOutputs, countCommands_cons.
      rewrite (countEvents_command _ _ _ _ id ty Hc Hty), (IH1 ty Hty). reflexivity.
    + rewrite countEvents_appendOutputs, countCancellations_cons.
      rewrite (countEvents_cancellation _ _ _ _ id Hc), IH2. reflexivity.
Qed.

Lemma countCommands_absent id ty cs :
  id ∉ map command.ID cs -> countCommands id ty cs = 0%nat.
Proof.
  induction cs as [|c cs IH]; intros Hn; [reflexivity|].
  rewrite countCommands_cons, IH.
  - unfold countCommands. cbn. case_bool_decide as Hd; [|reflexivity].
    exfalso. apply Hn. destruct Hd as [<- _]. cbn. left.
  - intros Hin. apply Hn. cbn. right. exact Hin.
Qed.

(** In a log without repeated ids a command is the only one with its id. *)
Lemma countCommands_unique cs c :
  NoDup (map command.ID cs) -> c ∈ cs ->
  countCommands (command.ID c) (command.Type_ c) cs = 1%nat.
Proof.
  induction cs as [|x cs IH]; intros Hnd Hin.
  - inversion Hin.
  - cbn in Hnd. apply NoDup_cons in Hnd as [Hx Hnd].
    rewrite countCommands_cons.
    apply elem_of_cons in Hin as [->|Hin].
    + rewrite (countCommands_absent _ _ _ Hx).
      unfold countCommands. cbn. case_bool_decide as Hd; [reflexivity|].
      exfalso. apply Hd. split; reflexivity.
    + rewrite (IH Hnd Hin).
      unfold countCommands. cbn. case_bool_decide as Hd; [|reflexivity].
      exfalso. apply Hx. destruct Hd as [Hd _]. rewrite Hd.
      apply list_elem_of_fmap. exists c. split; [reflexivity|exact Hin].
Qed.

Lemma countCommands_commit id ty cs :
  countCommands id ty (map commit cs) = countCommands id ty cs.
Proof.
  induction cs as [|c cs IH]; [reflexivity|].
  cbn [map]. rewrite (countCommands_cons _ _ (commit c)), (countCommands_cons _ _ c), IH.
  f_equal. unfold countCommands. cbn. case_bool_decide; reflexivity.
Qed.

Lemma countCancellations_commit id cs :
  countCancellations id (map commit cs) = countCancellations id cs.
Proof.
  induction cs as [|c cs IH]; [reflexivity|].
  cbn [map].
  rewrite (countCancellations_cons _ (commit c)), (countCancellations_cons _ c), IH.
  f_equal. unfold countCancellations. cbn. case_bool_decide; reflexivity.
Qed.

Lemma countCancellations_positive id cs c :
  c ∈ cs -> command.Type_ c = command.CommandType_CancelTimer ->
  command.Attr c = command.CancelTimerCommandAttr id ->
  (1 <= countCancellations id cs)%nat.
Proof.
  induction cs as [|x cs IH]; intros Hin Hty Ha.
  - inversion Hin.
  - rewrite countCancellations_cons.
    apply elem_of_cons in Hin as [->|Hin].
    + unfold countCancellations at 1. cbn. case_bool_decide as Hd; [cbn; lia|].
      exfalso. apply Hd. split; assumption.
    + specialize (IH Hin Hty Ha). lia.
Qed.

Lemma processed_Some t e cs events :
  processed t e = Some (cs, events) ->
  exists o,
    translates e (task.WorkflowInstance t) (workflowstate.commands (workflowState e)) o /\
    cs = map commit (workflowstate.commands (workflowState e)) /\
    events = eventsOf o.
Proof.
  unfold processed. intros H.
  destruct (processCommands t e) as [[e' [[[[b n] a] w] err]]|] eqn:Hp; [|discriminate].
  destruct err; [discriminate|]. inversion H; subst.
  apply processCommands_translates in Hp as [Htr ->].
  exists (b, n, a, w). split; [exact Htr|]. split; reflexivity.
Qed.

(** C2 (as the code has it).  After [processCommands] has run without
    error on a command log whose ids are pairwise distinct, every command of
    the log is marked [Committed].  For every such command of type
    [ScheduleActivity], [ScheduleSubWorkflow], [SideEffect], [ScheduleTimer]
    or [CompleteWorkflow], the events of the turn contain exactly one event
    with the command's id as schedule event id and the type matching the
    command.  A [CancelTimer] command is recorded under the id of the timer
    it cancels instead: the [TimerCanceled] events with that timer's id are
    as many as the [CancelTimer] commands naming it, hence at least one. *)
Theorem committed_commands_have_their_event
    (t : task.Workflow) (e : executor)
    (cs : list command.Command) (events : list history.Event) :
  processed t e = Some (cs, events) ->
  NoDup (map command.ID (workflowstate.commands (workflowState e))) ->
  Forall (fun c => command.State c = command.CommandState_Committed) cs /\
  forall c, c ∈ cs ->
    (recordedUnderOwnId (command.Type_ c) = true ->
     countEvents (command.ID c) (matchingEventType (command.Type_ c)) events = 1%nat) /\
    (forall timer,
       command.Type_ c = command.CommandType_CancelTimer ->
       command.Attr c = command.CancelTimerCommandAttr timer ->
       countEvents timer history.EventType_TimerCanceled events =
         countCancellations timer cs /\
       (1 <= countCancellations timer cs)%nat).
Proof.
  intros H Hnd. apply processed_Some in H as (o & Htr & -> & ->).
  split.
  - apply Forall_forall. intros c Hin.
    apply list_elem_of_fmap in Hin as (c0 & -> & _). reflexivity.
  - intros c Hin. split.
    + intros Hty.
      destruct (countEvents_translates _ _ _ _ Htr (command.ID c)) as [Hcount _].
      rewrite (Hcount _ Hty), <- countCommands_commit.
      apply countCommands_unique; [|exact Hin].
      rewrite map_map. cbn. exact Hnd.
    + intros timer Hty Ha.
      destruct (countEvents_translates _ _ _ _ Htr timer) as [_ Hcount].
      rewrite Hcount, countCancellations_commit. split; [reflexivity|].
      rewrite <- countCancellations_commit.
      eapply countCancellations_positive; eassumption.
Qed.

End CommandProperties.

(** ** Properties of ExecuteTask *)

Section TaskProperties.
Context {RT : Runtime}.

Lemma sameFrame_refl e : sameFrame e e.
Proof. split; reflexivity. Qed.

Lemma returned_Ret {A : Type} (r : Res (executor * A)) (d : executor) (a : A) :
  returned r = Some a -> r = Ret (stateOf r d, a).
Proof. destruct r as [[e x]|]; cbn; intros H; inversion H; reflexivity. Qed.

Lemma dispatchAll_dispatched events : forall e,
  (dispatchAll events e).1 = true -> dispatched e events (dispatchAll events e).2.
Proof.
  induction events as [|event rest IH]; intros e H.
  - constructor.
  - cbn [dispatchAll] in *.
    destruct (executeEvent event e) as [[e1 [m|]]|] eqn:He; try discriminate H.
    econstructor; [exact He|apply IH, H].
Qed.

Lemma forallb_knownCommand cs :
  forallb knownCommand cs = true -> Forall (fun c => knownCommand c = true) cs.
Proof.
  induction cs as [|c cs IH]; cbn; intros H; constructor.
  - apply andb_true_iff in H as [H _]. exact H.
  - apply IH. apply andb_true_iff in H as [_ H]. exact H.
Qed.

Lemma sameFrame_trans e1 e2 e3 : sameFrame e1 e2 -> sameFrame e2 e3 -> sameFrame e1 e3.
Proof. unfold sameFrame. intros [H1 H2] [H3 H4]. split; congruence. Qed.

Lemma removeCommand_frame id e c e' :
  removeCommand id e = (c, e') -> sameFrame e e'.
Proof. rewrite removeCommand_eq. intros H. inversion H. split; reflexivity. Qed.

Lemma callSettable_frame f v err e e' r :
  callSettable f v err e = Ret (e', r) -> sameFrame e e'.
Proof.
  unfold callSettable. destruct (Settable_call f v err (workflowCtx e)) as [[w r0]|];
    cbn; intros H; inversion H. split; reflexivity.
Qed.

Lemma continueWorkflow_frame e e' r :
  continueWorkflow e = Ret (e', r) -> sameFrame e e'.
Proof.
  unfold continueWorkflow.
  destruct (Workflow_Continue (workflow e) (workflowState e) (workflowCtx e))
    as [[[s w] r0]|]; cbn; intros H; inversion H. split; reflexivity.
Qed.

Lemma workflowCompleted_frame result err e :
  sameFrame e (workflowCompleted result err e).
Proof. split; reflexivity. Qed.

(** The tail shared by the handlers that resolve a future: call it, give
    up on an error of the call, resume the workflow otherwise. *)
Lemma resolve_resume_frame f v err (wrap : string -> string) e e' r :
  ('(e1, err1) ← callSettable f v err e;
   match err1 with
   | Some m => mret (e1, Some (wrap m))
   | None => continueWorkflow e1
   end) = Ret (e', r) ->
  sameFrame e e'.
Proof.
  destruct (callSettable f v err e) as [[e1 [m|]]|] eqn:Hc; intros H.
  - inversion H; subst. eapply callSettable_frame, Hc.
  - eapply sameFrame_trans.
    + eapply callSettable_frame, Hc.
    + eapply continueWorkflow_frame, H.
  - discriminate H.
Qed.

Lemma with_workflowState_frame s e : sameFrame e (with_workflowState s e).
Proof. split; reflexivity. Qed.

Lemma with_workflowCtx_frame w e : sameFrame e (with_workflowCtx w e).
Proof. split; reflexivity. Qed.

Lemma with_workflow_frame w e : sameFrame e (with_workflow w e).
Proof. split; reflexivity. Qed.

Ltac ret_frame H :=
  inversion H; subst;
  repeat first [ apply sameFrame_refl
               | eapply sameFrame_trans; [|apply with_workflowState_frame]
               | eapply sameFrame_trans; [|apply with_workflowCtx_frame]
               | eapply sameFrame_trans; [|apply with_workflow_frame] ].

(** Handlers of the shape: look the future up, remove the command,
    resolve, resume. *)
Ltac resolving_handler_frame H :=
  match type of H with
  | context [workflowstate.FutureByScheduleEventID ?id ?s] =>
      destruct (workflowstate.FutureByScheduleEventID id s);
      [|solve [ret_frame H]]
  end;
  rewrite removeCommand_eq in H;
  apply resolve_resume_frame in H;
  (eapply sameFrame_trans; [|exact H]); apply with_workflowState_frame.

Lemma handleWorkflowExecutionStarted_frame Name Inputs e e' r :
  handleWorkflowExecutionStarted Name Inputs e = Ret (e', r) -> sameFrame e e'.
Proof.
  unfold handleWorkflowExecutionStarted. intros H.
  destruct (registry e Name) as [fn|]; [|ret_frame H].
  match type of H with context [Workflow_Execute ?a ?b ?c ?d] =>
    destruct (Workflow_Execute a b c d) as [[[s w] r0]|] end;
    [|discriminate H].
  ret_frame H.
Qed.

Lemma handleWorkflowCanceled_frame e e' r :
  handleWorkflowCanceled e = Ret (e', r) -> sameFrame e e'.
Proof.
  unfold handleWorkflowCanceled. intros H.
  destruct (Context_cancel (workflowCtx e)) as [w|]; [|discriminate H].
  apply continueWorkflow_frame in H.
  eapply sameFrame_trans; [|exact H]. apply with_workflowCtx_frame.
Qed.

Lemma handleWorkflowTaskStarted_frame event e e' r :
  handleWorkflowTaskStarted event e = Ret (e', r) -> sameFrame e e'.
Proof. unfold handleWorkflowTaskStarted. intros H. ret_frame H. Qed.

Lemma handleActivityScheduled_frame event Name e e' r :
  handleActivityScheduled event Name e = Ret (e', r) -> sameFrame e e'.
Proof.
  unfold handleActivityScheduled. rewrite removeCommand_eq. intros H.
  destruct (pendingCommand _ e) as [c|]; [|ret_frame H].
  destruct (negb _); [ret_frame H|].
  destruct (command.Attr c); try discriminate H.
  destruct (negb _); ret_frame H.
Qed.

Lemma handleActivityCompleted_frame event Result e e' r :
  handleActivityCompleted event Result e = Ret (e', r) -> sameFrame e e'.
Proof. unfold handleActivityCompleted. intros H. resolving_handler_frame H. Qed.

Lemma handleActivityFailed_frame event Reason e e' r :
  handleActivityFailed event Reason e = Ret (e', r) -> sameFrame e e'.
Proof. unfold handleActivityFailed. intros H. resolving_handler_frame H. Qed.

Lemma handleTimerScheduled_frame event e e' r :
  handleTimerScheduled event e = Ret (e', r) -> sameFrame e e'.
Proof.
  unfold handleTimerScheduled. rewrite removeCommand_eq. intros H. ret_frame H.
Qed.

Lemma handleTimerFired_frame event e e' r :
  handleTimerFired event e = Ret (e', r) -> sameFrame e e'.
Proof.
  unfold handleTimerFired. intros H.
  destruct (workflowstate.FutureByScheduleEventID _ _); [|ret_frame H].
  rewrite removeCommand_eq in H.
  destruct (pendingCommand _ e) as [c|]; [|ret_frame H].
  destruct (negb _); [ret_frame H|].
  apply resolve_resume_frame in H.
  eapply sameFrame_trans; [|exact H]. apply with_workflowState_frame.
Qed.

Lemma handleTimerCanceled_frame event e e' r :
  handleTimerCanceled event e = Ret (e', r) -> sameFrame e e'.
Proof. unfold handleTimerCanceled. intros H. resolving_handler_frame H. Qed.

Lemma handleSubWorkflowScheduled_frame event inst Name e e' r :
  handleSubWorkflowScheduled event inst Name e = Ret (e', r) -> sameFrame e e'.
Proof.
  unfold handleSubWorkflowScheduled. rewrite removeCommand_eq. intros H.
  destruct (pendingCommand _ e) as [c|]; [|ret_frame H].
  destruct (negb _); [ret_frame H|].
  destruct (command.Attr c); try discriminate H.
  destruct (negb _); ret_frame H.
Qed.

Lemma handleSubWorkflowCancellationRequest_frame event e e' r :
  handleSubWorkflowCancellationRequest event e = Ret (e', r) -> sameFrame e e'.
Proof.
  unfold handleSubWorkflowCancellationRequest. rewrite removeCommand_eq. intros H.
  destruct (pendingCommand _ e) as [c|]; [|ret_frame H].
  destruct (negb _); [ret_frame H|].
  apply continueWorkflow_frame in H.
  eapply sameFrame_trans; [|exact H]. apply with_workflowState_frame.
Qed.

Lemma handleSubWorkflowFailed_frame event Err e e' r :
  handleSubWorkflowFailed event Err e = Ret (e', r) -> sameFrame e e'.
Proof. unfold handleSubWorkflowFailed. intros H. resolving_handler_frame H. Qed.

Lemma handleSubWorkflowCompleted_frame event Result e e' r :
  handleSubWorkflowCompleted event Result e = Ret (e', r) -> sameFrame e e'.
Proof. unfold handleSubWorkflowCompleted. intros H. resolving_handler_frame H. Qed.

Lemma handleSignalReceived_frame event Name Arg e e' r :
  handleSignalReceived event Name Arg e = Ret (e', r) -> sameFrame e e'.
Proof.
  unfold handleSignalReceived. intros H.
  destruct (ReceiveSignal Name Arg (workflowState e) (workflowCtx e)) as [[s w]|];
    [|discriminate H].
  cbv [mbind Res_bind] in H. cbv beta iota in H.
  rewrite removeCommand_eq in H.
  apply continueWorkflow_frame in H.
  eapply sameFrame_trans; [|exact H].
  eapply sameFrame_trans; [|apply with_workflowState_frame].
  eapply sameFrame_trans; [|apply with_workflowCtx_frame].
  apply with_workflowState_frame.
Qed.

Lemma handleSideEffectResult_frame event Result e e' r :
  handleSideEffectResult event Result e = Ret (e', r) -> sameFrame e e'.
Proof.
  unfold handleSideEffectResult. intros H.
  destruct (workflowstate.FutureByScheduleEventID _ _) as [f|]; [|ret_frame H].
  destruct (callSettable f Result None e) as [[e1 r0]|] eqn:Hc; [|discriminate H].
  apply callSettable_frame in Hc. apply continueWorkflow_frame in H.
  eapply sameFrame_trans; eassumption.
Qed.

Ltac handler_frame H :=
  lazymatch type of H with
  | context [handleWorkflowExecutionStarted] => apply handleWorkflowExecutionStarted_frame in H; exact H
  | context [handleWorkflowCanceled] => apply handleWorkflowCanceled_frame in H; exact H
  | context [handleWorkflowTaskStarted] => apply handleWorkflowTaskStarted_frame in H; exact H
  | context [handleActivityScheduled] => apply handleActivityScheduled_frame in H; exact H
  | context [handleActivityCompleted] => apply handleActivityCompleted_frame in H; exact H
  | context [handleActivityFailed] => apply handleActivityFailed_frame in H; exact H
  | context [handleTimerScheduled] => apply handleTimerScheduled_frame in H; exact H
  | context [handleTimerFired] => apply handleTimerFired_frame in H; exact H
  | context [handleTimerCanceled] => apply handleTimerCanceled_frame in H; exact H
  | context [handleSubWorkflowScheduled] => apply handleSubWorkflowScheduled_frame in H; exact H
  | context [handleSubWorkflowCancellationRequest] => apply handleSubWorkflowCancellationRequest_frame in H; exact H
  | context [handleSubWorkflowFailed] => apply handleSubWorkflowFailed_frame in H; exact H
  | context [handleSubWorkflowCompleted] => apply handleSubWorkflowCompleted_frame in H; exact H
  | context [handleSignalReceived] => apply handleSignalReceived_frame in H; exact H
  | context [handleSideEffectResult] => apply handleSideEffectResult_frame in H; exact H
  | Ret _ = Ret _ => inversion H; apply sameFrame_refl
  | mret _ = Ret _ => inversion H; apply sameFrame_refl
  | Panic = Ret _ => discriminate H
  end.

Lemma executeEvent_frame event e e' r :
  executeEvent event e = Ret (e', r) -> sameFrame e e'.
Proof.
  unfold executeEvent. intros H.
  destruct (history.Type_ event);
    try (destruct (history.Attributes event)); handler_frame H.
Qed.

(** *** Sequence ids *)

Lemma wrap64_id z : min_int64 <= z <= max_int64 -> wrap64 z = z.
Proof.
  unfold wrap64, min_int64, max_int64. intros H.
  rewrite Z.mod_small; lia.
Qed.

Lemma setSequenceIDs_length events : forall e,
  length (setSequenceIDs events e).1 = length events.
Proof.
  induction events as [|event events IH]; intros e; [reflexivity|].
  cbn [setSequenceIDs]. unfold nextSequenceID.
  specialize (IH (with_lastSequenceID (wrap64 (lastSequenceID e + 1)) e)).
  destruct (setSequenceIDs events _) as [rest e1]. cbn in *. rewrite IH. reflexivity.
Qed.

(** The loop changes nothing of an event but its sequence id. *)
Lemma setSequenceIDs_events events : forall e,
  map (history.set_SequenceID 0) (setSequenceIDs events e).1 =
  map (history.set_SequenceID 0) events.
Proof.
  induction events as [|event events IH]; intros e; [reflexivity|].
  cbn [setSequenceIDs]. unfold nextSequenceID.
  specialize (IH (with_lastSequenceID (wrap64 (lastSequenceID e + 1)) e)).
  destruct (setSequenceIDs events _) as [rest e1]. cbn in *. rewrite IH. reflexivity.
Qed.

Lemma setSequenceIDs_consecutive events : forall e,
  min_int64 <= lastSequenceID e ->
  lastSequenceID e + Z.of_nat (length events) <= max_int64 ->
  map history.SequenceID (setSequenceIDs events e).1 =
    consecutiveFrom (lastSequenceID e) (length events) /\
  lastSequenceID (setSequenceIDs events e).2 =
    lastSequenceID e + Z.of_nat (length events).
Proof.
  unfold consecutiveFrom.
  induction events as [|event events IH]; intros e Hmin Hmax.
  - cbn. split; [reflexivity|lia].
  - cbn [setSequenceIDs length]. unfold nextSequenceID.
    cbn [length] in Hmax.
    assert (Hw : wrap64 (lastSequenceID e + 1) = lastSequenceID e + 1)
      by (apply wrap64_id; lia).
    specialize (IH (with_lastSequenceID (wrap64 (lastSequenceID e + 1)) e)).
    cbn [lastSequenceID with_lastSequenceID] in IH |- *.
    rewrite Hw in IH |- *.
    destruct IH as [IH1 IH2]; [lia..|].
    destruct (setSequenceIDs events _) as [rest e1]. cbn [fst snd map] in *.
    split.
    + rewrite IH1. cbn [history.SequenceID history.set_SequenceID].
      replace (Z.of_nat (S (length events))) with (Z.succ (Z.of_nat (length events))) by lia.
      rewrite (seqZ_cons (lastSequenceID e + 1)) by lia. f_equal. f_equal; lia.
    + rewrite IH2. lia.
Qed.

(** *** The shape of a successful task execution *)

Lemma replayHistory_loop_frame history : forall e e' r,
  replayHistory_loop history e = Ret (e', r) -> clock e' = clock e.
Proof.
  induction history as [|event rest IH]; intros e e' r H.
  - inversion H. reflexivity.
  - cbn [replayHistory_loop] in H.
    destruct (executeEvent event e) as [[e1 [m|]]|] eqn:He; cbn in H;
      [| |discriminate H].
    + inversion H; subst. apply executeEvent_frame in He as [_ Hc]. exact Hc.
    + apply IH in H. apply executeEvent_frame in He as [_ Hc].
      cbn in H. congruence.
Qed.

Lemma executeNewEvents_loop_frame newEvents rest : forall i e e' out,
  executeNewEvents_loop newEvents i rest e = Ret (e', out) -> sameFrame e e'.
Proof.
  induction rest as [|event rest IH]; intros i e e' out H.
  - cbn [executeNewEvents_loop] in H.
    destruct (Workflow_Completed (workflow e) (workflowCtx e)) as [[|]|];
      cbn in H; [| |discriminate H].
    + destruct (Workflow_Result (workflow e) (workflowCtx e)); cbn in H; [|discriminate H].
      destruct (Workflow_Error (workflow e) (workflowCtx e)); cbn in H; [|discriminate H].
      inversion H; subst. apply workflowCompleted_frame.
    + inversion H; subst. apply sameFrame_refl.
  - cbn [executeNewEvents_loop] in H.
    destruct (executeEvent event e) as [[e1 [m|]]|] eqn:He; cbn in H;
      [| |discriminate H].
    + inversion H; subst. eapply executeEvent_frame, He.
    + eapply sameFrame_trans; [eapply executeEvent_frame, He|eapply IH, H].
Qed.

Lemma executeNewEvents_frame newEvents e e' out :
  executeNewEvents newEvents e = Ret (e', out) -> sameFrame e e'.
Proof.
  unfold executeNewEvents. intros H. apply executeNewEvents_loop_frame in H.
  eapply sameFrame_trans; [|exact H]. apply with_workflowState_frame.
Qed.

Lemma processCommands_frame t e e' out :
  processCommands t e = Ret (e', out) -> sameFrame e e'.
Proof.
  unfold processCommands. intros H.
  destruct (processCommands_loop _ _ _ _ _ _ _) as [[cs o]|]; [|discriminate H].
  inversion H; subst. apply with_workflowState_frame.
Qed.

(** What [executeNewEvents] returns as executed events: all of them, or
    the events before the index at which the loop stopped. *)
Lemma executeNewEvents_loop_result newEvents rest : forall i e e' events err,
  executeNewEvents_loop newEvents i rest e = Ret (e', (events, err)) ->
  events = newEvents \/ exists j, (i <= j)%nat /\ events = take j newEvents.
Proof.
  induction rest as [|event rest IH]; intros i e e' events err H.
  - cbn [executeNewEvents_loop] in H.
    destruct (Workflow_Completed (workflow e) (workflowCtx e)) as [[|]|];
      cbn in H; [| |discriminate H].
    + destruct (Workflow_Result (workflow e) (workflowCtx e)); cbn in H; [|discriminate H].
      destruct (Workflow_Error (workflow e) (workflowCtx e)); cbn in H; [|discriminate H].
      inversion H; subst. left. reflexivity.
    + inversion H; subst. left. reflexivity.
  - cbn [executeNewEvents_loop] in H.
    destruct (executeEvent event e) as [[e1 [m|]]|] eqn:He; cbn in H;
      [| |discriminate H].
    + inversion H; subst. right. exists i. split; [lia|reflexivity].
    + apply IH in H as [H|(j & Hj & H)]; [left; exact H|].
      right. exists j. split; [lia|exact H].
Qed.

(** The synthetic [WorkflowTaskStarted] event is always dispatched: the
    first event of the list is among the executed ones. *)
Lemma executeNewEvents_started e events :
  executeNewEvents
    (createNewEvent e history.EventType_WorkflowTaskStarted
       history.WorkflowTaskStartedAttributes [] :: events) e =
  executeNewEvents_loop
    (createNewEvent e history.EventType_WorkflowTaskStarted
       history.WorkflowTaskStartedAttributes [] :: events) 1%nat events
    (with_workflowState
       (workflowstate.SetTime (clock e)
          (workflowstate.SetReplaying false (workflowState e)))
       (with_workflowState (workflowstate.SetReplaying false (workflowState e)) e)).
Proof. reflexivity. Qed.

Lemma executeNewEvents_nonempty e events e' executed err :
  executeNewEvents
    ([createNewEvent e history.EventType_WorkflowTaskStarted
        history.WorkflowTaskStartedAttributes []] ++ events) e =
    Ret (e', (executed, err)) ->
  executed <> [].
Proof.
  cbn [app]. rewrite executeNewEvents_started. intros H.
  apply executeNewEvents_loop_result in H as [->|(j & Hj & ->)]; [discriminate|].
  destruct j as [|j]; [lia|discriminate].
Qed.

(** A successful [ExecuteTask_events]: some events were executed, the
    commands were translated without error, and the sequence ids were set
    on the executed events followed by the new events of the commands. *)
Lemma ExecuteTask_events_Some t skipNewEvents e e' r :
  ExecuteTask_events t skipNewEvents e = Ret (e', (Some r, None)) ->
  exists e1 e2 executedEvents o,
    sameFrame e e1 /\
    executedEvents <> [] /\
    processCommands t e1 = Ret (e2, (o, None)) /\
    setSequenceIDs (executedEvents ++ newEventsOf o) e2 = (Executed r, e') /\
    Completed r = completedOf o /\
    ActivityEvents r = activityEventsOf o /\
    WorkflowEvents r = workflowEventsOf o.
Proof.
  unfold ExecuteTask_events. intros H.
  assert (Hgen : forall e1 executedEvents,
    sameFrame e e1 -> executedEvents <> [] ->
    ('(e, (completed, newCommandEvents, activityEvents, workflowEvents, err)) ←
        processCommands t e1;
      match err with
      | Some m => mret (e, (None, Some (Errorf_w "processing commands" m)))
      | None =>
          let '(executedEvents, e) :=
            setSequenceIDs (executedEvents ++ newCommandEvents) e in
          mret (e, (Some {| Completed := completed; Executed := executedEvents;
                            ActivityEvents := activityEvents;
                            WorkflowEvents := workflowEvents |}, None))
      end) = Ret (e', (Some r, None)) ->
    exists e1 e2 executedEvents o,
      sameFrame e e1 /\
      executedEvents <> [] /\
      processCommands t e1 = Ret (e2, (o, None)) /\
      setSequenceIDs (executedEvents ++ newEventsOf o) e2 = (Executed r, e') /\
      Completed r = completedOf o /\
      ActivityEvents r = activityEventsOf o /\
      WorkflowEvents r = workflowEventsOf o).
  { clear H. intros e1 executedEvents Hf Hne H.
    destruct (processCommands t e1) as [[e2 [[[[b n] a] w] err]]|] eqn:Hp;
      [|discriminate H].
    cbv [mbind Res_bind mret Res_ret] in H. cbv beta iota in H.
    destruct err as [m|]; [inversion H|].
    destruct (setSequenceIDs (executedEvents ++ n) e2) as [ids e3] eqn:Hs.
    inversion H; subst. clear H.
    exists e1, e2, executedEvents, (b, n, a, w).
    repeat split; try reflexivity; try assumption; apply Hf. }
  destruct skipNewEvents; cbn [negb] in H.
  - eapply Hgen; [| |exact H]; [apply sameFrame_refl|discriminate].
  - destruct (executeNewEvents _ e) as [[e0 [evs err]]|] eqn:He; [|discriminate H].
    pose proof (executeNewEvents_nonempty _ _ _ _ _ He) as Hne.
    apply executeNewEvents_frame in He.
    destruct err as [m|].
    + eapply Hgen; [|exact Hne|exact H].
      eapply sameFrame_trans; [exact He|apply workflowCompleted_frame].
    + eapply Hgen; [exact He|exact Hne|exact H].
Qed.

(** A successful [ExecuteTask] reaches the execution of the events with an
    executor whose last sequence id is the task's. *)
Lemma ExecuteTask_Some t e e' r :
  ExecuteTask t e = Ret (e', (Some r, None)) ->
  exists e0 skipNewEvents,
    ExecuteTask_events t skipNewEvents e0 = Ret (e', (Some r, None)) /\
    lastSequenceID e0 = task.LastSequenceID t.
Proof.
  unfold ExecuteTask. intros H.
  set (ec := with_workflowState (workflowstate.ClearCommands (workflowState e)) e) in *.
  destruct (Z.gtb_spec (task.LastSequenceID t) (lastSequenceID ec)) as [Hgt|Hle].
  - destruct (historyProvider ec (task.WorkflowInstance t) (lastSequenceID ec))
      as [h [m|]]; [inversion H|].
    destruct (replayHistory h ec) as [[e1 err]|]; [|discriminate H].
    cbv [mbind Res_bind] in H. cbv beta iota in H.
    destruct err as [m|].
    + destruct (Z.eqb_spec (task.LastSequenceID t)
                  (lastSequenceID (workflowCompleted None (Some m) e1))) as [Heq|Hne];
        cbn [negb] in H; [|inversion H].
      exists (workflowCompleted None (Some m) e1), true. split; [exact H|congruence].
    + destruct (Z.eqb_spec (task.LastSequenceID t) (lastSequenceID e1)) as [Heq|Hne];
        cbn [negb] in H; [|inversion H].
      exists e1, false. split; [exact H|congruence].
  - destruct (Z.ltb_spec (task.LastSequenceID t) (lastSequenceID ec)) as [Hlt|Hge].
    + inversion H.
    + exists ec, false. split; [exact H|lia].
Qed.

(** The ids assigned by a successful [ExecuteTask], in terms of the
    task's last sequence id. *)
Lemma Executed_sequence_ids_consecutive_aux t e e' r :
  ExecuteTask t e = Ret (e', (Some r, None)) ->
  min_int64 <= task.LastSequenceID t ->
  task.LastSequenceID t + Z.of_nat (length (Executed r)) <= max_int64 ->
  map history.SequenceID (Executed r) =
    consecutiveFrom (task.LastSequenceID t) (length (Executed r)) /\
  lastSequenceID e' = task.LastSequenceID t + Z.of_nat (length (Executed r)) /\
  Executed r <> [] /\
  exists (pre : executor) (events : list history.Event),
    setSequenceIDs events pre = (Executed r, e') /\
    lastSequenceID pre = task.LastSequenceID t.
Proof.
  intros H Hmin Hmax.
  apply ExecuteTask_Some in H as (e0 & skip & H & Hlast).
  apply ExecuteTask_events_Some in H
    as (e1 & e2 & executedEvents & o & [Hf1 _] & Hne & Hp & Hs & _).
  apply processCommands_frame in Hp as [Hf2 _].
  assert (Hpre : lastSequenceID e2 = task.LastSequenceID t) by congruence.
  pose proof (setSequenceIDs_length (executedEvents ++ newEventsOf o) e2) as Hlen.
  rewrite Hs in Hlen. cbn [fst] in Hlen.
  destruct (setSequenceIDs_consecutive (executedEvents ++ newEventsOf o) e2)
    as [Hids Hend].
  { lia. }
  { rewrite <- Hlen, Hpre. exact Hmax. }
  rewrite Hs in Hids, Hend. cbn [fst snd] in Hids, Hend.
  rewrite <- Hlen, Hpre in Hids, Hend.
  split; [exact Hids|]. split; [exact Hend|]. split.
  - intros Hnil. rewrite Hnil in Hlen. rewrite length_app in Hlen.
    destruct executedEvents; [congruence|cbn in Hlen; lia].
  - eauto.
Qed.

(** C3. After a successful [ExecuteTask] the sequence ids of the events of
    [Executed], in order, are the consecutive integers that start one after
    the last sequence id the executor had when it began to assign them
    (which is the task's last sequence id), and the executor's last
    sequence id is then the last id assigned.  The arithmetic is that of
    [int64]: the statement is for tasks whose ids do not overflow. *)
Theorem Executed_sequence_ids_are_consecutive
    (t : task.Workflow) (e e' : executor) (r : ExecutionResult) :
  ExecuteTask t e = Ret (e', (Some r, None)) ->
  min_int64 <= task.LastSequenceID t ->
  task.LastSequenceID t + Z.of_nat (length (Executed r)) <= max_int64 ->
  exists (pre : executor) (events : list history.Event),
    setSequenceIDs events pre = (Executed r, e') /\
    lastSequenceID pre = task.LastSequenceID t /\
    map history.SequenceID (Executed r) =
      consecutiveFrom (lastSequenceID pre) (length (Executed r)) /\
    lastSequenceID e' = lastSequenceID pre + Z.of_nat (length (Executed r)) /\
    last (map history.SequenceID (Executed r)) = Some (lastSequenceID e').
Proof.
  intros H Hmin Hmax.
  destruct (Executed_sequence_ids_consecutive_aux t e e' r H Hmin Hmax)
    as (Hids & Hend & Hne & pre & events & Hs & Hpre).
  exists pre, events. rewrite Hpre.
  split; [exact Hs|]. split; [reflexivity|]. split; [exact Hids|]. split; [exact Hend|].
  rewrite Hids, Hend. unfold consecutiveFrom.
  destruct (length (Executed r)) as [|k] eqn:Hk.
  - destruct (Executed r); [congruence|discriminate Hk].
  - replace (Z.of_nat (S k)) with (Z.of_nat k + 1) by lia.
    rewrite seqZ_app by lia.
    change (seqZ (task.LastSequenceID t + 1 + Z.of_nat k) 1)
      with [task.LastSequenceID t + 1 + Z.of_nat k].
    rewrite last_snoc. f_equal. lia.
Qed.

(** *** Copies handed to the activity workers and to other instances *)

Lemma pendingOutputs_append o1 o2 :
  pendingOutputs o1 -> pendingOutputs o2 -> pendingOutputs (appendOutputs o1 o2).
Proof.
  destruct o1 as [[[b1 n1] a1] w1], o2 as [[[b2 n2] a2] w2].
  unfold pendingOutputs, appendOutputs, newEventsOf, activityEventsOf, workflowEventsOf.
  cbn [fst snd]. intros (H1 & H2 & H3 & H4) (H5 & H6 & H7 & H8).
  repeat split; try (apply Forall_app; split; assumption).
  intros x Hx. apply elem_of_app in Hx as [Hx|Hx]; apply elem_of_app; auto.
Qed.

Lemma pendingOutputs_command e instance c o :
  commandEvents e instance c = Ret (inl o) -> pendingOutputs o.
Proof.
  intros H. unfold commandEvents, processCommand in H.
  destruct (command.Type_ c), (command.Attr c); try discriminate H;
    try destruct (core.SubWorkflow instance);
    try match type of H with context [String.eqb ?a ?b] => destruct (String.eqb a b) end;
    cbn in H; inversion H; subst o; clear H;
    unfold pendingOutputs, newEventsOf, activityEventsOf, workflowEventsOf;
    cbn [fst snd];
    repeat split;
    first [ solve [repeat constructor]
          | intros x Hx; first [exact Hx|inversion Hx] ].
Qed.

Lemma pendingOutputs_translates e instance cs : forall o,
  translates e instance cs o -> pendingOutputs o.
Proof.
  induction cs as [|c cs IH]; intros o H.
  - apply translates_nil in H as ->.
    unfold pendingOutputs. cbn.
    (split; [|split; [|split]]); [constructor..|intros x Hx; exact Hx].
  - apply translates_cons in H as (oc & o2 & Hc & H2 & ->).
    apply pendingOutputs_append; [eapply pendingOutputs_command, Hc|apply IH, H2].
Qed.

Lemma set_SequenceID_pending ev :
  history.SequenceID ev = 0 -> history.set_SequenceID 0 ev = ev.
Proof. destruct ev. cbn. intros ->. reflexivity. Qed.

(** C10. Sequence ids are assigned to the elements of [Executed] only.  In
    the result of every successful [ExecuteTask] each event of
    [ActivityEvents] and each event inside [WorkflowEvents] still has the
    sequence id zero it was created with; each activity event is the copy
    of an event of [Executed] that differs from it in the sequence id
    only, and that one carries a positive id whenever the task's last
    sequence id is not negative (and no [int64] overflow occurs). *)
Theorem copies_keep_unassigned_sequence_id
    (t : task.Workflow) (e e' : executor) (r : ExecutionResult) :
  ExecuteTask t e = Ret (e', (Some r, None)) ->
  Forall (fun ev => history.SequenceID ev = 0) (ActivityEvents r) /\
  Forall (fun we => history.SequenceID (history.HistoryEvent we) = 0) (WorkflowEvents r) /\
  (forall a, a ∈ ActivityEvents r ->
     exists x, x ∈ Executed r /\ history.set_SequenceID 0 x = a) /\
  (0 <= task.LastSequenceID t ->
   task.LastSequenceID t + Z.of_nat (length (Executed r)) <= max_int64 ->
   Forall (fun x => 0 < history.SequenceID x) (Executed r)).
Proof.
  intros H. pose proof H as H0.
  apply ExecuteTask_Some in H as (e0 & skip & H & Hlast).
  apply ExecuteTask_events_Some in H
    as (e1 & e2 & executedEvents & o & _ & _ & Hp & Hs & _ & Ha & Hw).
  destruct o as [[[ob on] oa] ow].
  apply processCommands_translates in Hp as [Htr _].
  apply pendingOutputs_translates in Htr as (Hn0 & Ha0 & Hw0 & Hsub).
  rewrite Ha, Hw. split; [exact Ha0|]. split; [exact Hw0|]. split.
  - intros a Hin.
    assert (Hin' : a ∈ map (history.set_SequenceID 0) (Executed r)).
    { pose proof (setSequenceIDs_events (executedEvents ++ newEventsOf (ob, on, oa, ow)) e2) as Hev.
      rewrite Hs in Hev. cbn [fst] in Hev. rewrite Hev.
      apply list_elem_of_fmap. exists a. split.
      - symmetry. apply set_SequenceID_pending.
        rewrite Forall_forall in Ha0. apply Ha0, Hin.
      - apply elem_of_app. right. apply Hsub, Hin. }
    apply list_elem_of_fmap in Hin' as (x & -> & Hx). eauto.
  - intros Hmin Hmax.
    destruct (Executed_sequence_ids_consecutive_aux t e e' r H0) as [Hids _].
    { unfold min_int64. lia. }
    { exact Hmax. }
    apply Forall_forall. intros x Hx.
    assert (Hid : history.SequenceID x ∈ map history.SequenceID (Executed r))
      by (apply list_elem_of_fmap; eauto).
    rewrite Hids in Hid. unfold consecutiveFrom in Hid.
    apply elem_of_seqZ in Hid. lia.
Qed.

(** *** A failing event in a turn without replay *)

Lemma setSequenceIDs_assignFrom events : forall e,
  (setSequenceIDs events e).1 = assignFrom (lastSequenceID e) events.
Proof.
  induction events as [|event events IH]; intros e; [reflexivity|].
  cbn [setSequenceIDs assignFrom]. unfold nextSequenceID.
  specialize (IH (with_lastSequenceID (wrap64 (lastSequenceID e + 1)) e)).
  destruct (setSequenceIDs events _) as [rest e1]. cbn in *. rewrite IH. reflexivity.
Qed.

Lemma dispatched_frame e events e' :
  dispatched e events e' -> sameFrame e e'.
Proof.
  induction 1 as [e|e event e1 events e2 He _ IH].
  - apply sameFrame_refl.
  - eapply sameFrame_trans; [eapply executeEvent_frame, He|exact IH].
Qed.

(** The loop of [executeNewEvents] stops at the first event whose handler
    returns an error, and returns the events before it. *)
Lemma executeNewEvents_loop_stops newEvents e pre e1 :
  dispatched e pre e1 ->
  forall i event post e2 m,
  executeEvent event e1 = Ret (e2, Some m) ->
  executeNewEvents_loop newEvents i (pre ++ event :: post) e =
    Ret (e2, (take (i + length pre) newEvents, Some m)).
Proof.
  induction 1 as [e|e ev e1 events e' He _ IH]; intros i event post e2 m Hfail.
  - cbn [app executeNewEvents_loop length]. rewrite Hfail. cbn.
    rewrite Nat.add_0_r. reflexivity.
  - cbn [app executeNewEvents_loop length]. rewrite He. cbn.
    rewrite (IH (S i) event post e2 m Hfail).
    replace (i + S (length events))%nat with (S i + length events)%nat by lia.
    reflexivity.
Qed.

Lemma knownCommand_events e instance c :
  knownCommand c = true -> exists o, commandEvents e instance c = Ret (inl o).
Proof.
  unfold knownCommand, commandEvents, processCommand.
  destruct (command.Type_ c), (command.Attr c); try discriminate; intros _;
    try destruct (core.SubWorkflow instance); eauto.
Qed.

Lemma knownCommands_translate e instance cs :
  Forall (fun c => knownCommand c = true) cs ->
  exists o, translates e instance cs o.
Proof.
  induction 1 as [|c cs Hc _ [o Ho]].
  - exists (false, [], [], []). apply translates_nil. reflexivity.
  - destruct (knownCommand_events e instance c Hc) as [oc Hoc].
    exists (appendOutputs oc o). apply translates_cons. eauto.
Qed.

Lemma translates_processCommands t e o :
  translates e (task.WorkflowInstance t) (workflowstate.commands (workflowState e)) o ->
  processCommands t e =
    Ret (with_workflowState
           (workflowstate.set_commands
              (map commit (workflowstate.commands (workflowState e))) (workflowState e)) e,
         (o, None)).
Proof.
  unfold translates, processCommands, workflowstate.Commands. intros ->. reflexivity.
Qed.

(** The [CompleteWorkflow] command that records an error, translated. *)
Lemma completeWorkflow_events e instance id m :
  commandEvents e instance (command.NewCompleteWorkflowCommand id None (Some m)) =
  Ret (inl (true,
            [pendingEvent e history.EventType_WorkflowExecutionFinished id None
               (history.ExecutionCompletedAttributes None m)],
            [],
            parentNotification e instance None m)).
Proof.
  unfold commandEvents, processCommand, parentNotification. cbn.
  destruct (core.SubWorkflow instance); [|reflexivity].
  destruct (decide (m = "")) as [->|Hne]; [reflexivity|].
  apply String.eqb_neq in Hne. rewrite Hne. reflexivity.
Qed.

(** C8. In a turn without replay [ExecuteTask] dispatches a fresh
    [WorkflowTaskStarted] event and then the new events of the task, in
    order.  When the events before index [i] are dispatched and the handler
    of event [i] returns the error [m], the workflow is recorded completed
    with [m] (a [CompleteWorkflow] command is added to the log), the log is
    still translated by [processCommands], and [ExecuteTask] returns a
    result, not an error: [Executed] holds exactly the first [i] events,
    then the new events of the commands, ending with the
    [WorkflowExecutionFinished] event that carries [m], with sequence ids
    assigned after the task's last sequence id.  (The commands left in the
    log are taken to be of known types, so that their translation does not
    itself fail.) *)
Theorem failing_event_completes_workflow
    (t : task.Workflow) (e e1 e2 : executor) (i : nat)
    (event : history.Event) (m : string) :
  let e0 := with_workflowState (workflowstate.ClearCommands (workflowState e)) e in
  let toExecute :=
    createNewEvent e0 history.EventType_WorkflowTaskStarted
      history.WorkflowTaskStartedAttributes [] :: task.NewEvents t in
  let e3 := workflowCompleted None (Some m) e2 in
  let finished :=
    pendingEvent e2 history.EventType_WorkflowExecutionFinished
      (workflowstate.scheduleEventID (workflowState e2)) None
      (history.ExecutionCompletedAttributes None m) in
  task.LastSequenceID t = lastSequenceID e ->
  dispatched
    (with_workflowState (workflowstate.SetReplaying false (workflowState e0)) e0)
    (take i toExecute) e1 ->
  toExecute !! i = Some event ->
  executeEvent event e1 = Ret (e2, Some m) ->
  Forall (fun c => knownCommand c = true) (workflowstate.commands (workflowState e2)) ->
  exists e' r o,
    ExecuteTask t e = Ret (e', (Some r, None)) /\
    workflowstate.commands (workflowState e3) =
      workflowstate.commands (workflowState e2) ++
      [command.NewCompleteWorkflowCommand
         (workflowstate.scheduleEventID (workflowState e2)) None (Some m)] /\
    workflowstate.commands (workflowState e') =
      map commit (workflowstate.commands (workflowState e3)) /\
    translates e3 (task.WorkflowInstance t)
      (workflowstate.commands (workflowState e2)) o /\
    Executed r =
      assignFrom (task.LastSequenceID t)
        (take i toExecute ++ newEventsOf o ++ [finished]) /\
    Completed r = true /\
    ActivityEvents r = activityEventsOf o /\
    WorkflowEvents r =
      workflowEventsOf o ++ parentNotification e2 (task.WorkflowInstance t) None m.
Proof.
  intros e0 toExecute e3 finished Hlast Hpre Hi Hfail Hknown.
  destruct (knownCommands_translate e3 (task.WorkflowInstance t) _ Hknown) as [o Ho].
  assert (Hlog : workflowstate.commands (workflowState e3) =
                 workflowstate.commands (workflowState e2) ++
                 [command.NewCompleteWorkflowCommand
                    (workflowstate.scheduleEventID (workflowState e2)) None (Some m)])
    by reflexivity.
  set (oc := (true, [finished], @nil history.Event,
              parentNotification e2 (task.WorkflowInstance t) None m) : CommandEvents).
  assert (Hall : translates e3 (task.WorkflowInstance t)
                   (workflowstate.commands (workflowState e3)) (appendOutputs o oc)).
  { rewrite Hlog. apply translates_app. exists o, oc. split; [exact Ho|]. split; [|reflexivity].
    apply translates_cons. exists oc, (false, [], [], []).
    split; [apply completeWorkflow_events|]. split; [apply translates_nil; reflexivity|].
    symmetry. apply appendOutputs_empty_r. }
  apply translates_processCommands in Hall.
  assert (Hexec : executeNewEvents toExecute e0 = Ret (e2, (take i toExecute, Some m))).
  { unfold executeNewEvents.
    rewrite <- (take_drop_middle toExecute i event Hi) at 2.
    rewrite (executeNewEvents_loop_stops _ _ _ _ Hpre 0%nat event _ e2 m Hfail).
    rewrite length_take_le; [reflexivity|].
    apply lookup_lt_Some in Hi. lia. }
  assert (Hseq : lastSequenceID e2 = task.LastSequenceID t).
  { apply dispatched_frame in Hpre as [Hp _]. apply executeEvent_frame in Hfail as [Hf _].
    rewrite Hf, Hp, Hlast. reflexivity. }
  set (e4 := with_workflowState
               (workflowstate.set_commands
                  (map commit (workflowstate.commands (workflowState e3)))
                  (workflowState e3)) e3) in *.
  destruct o as [[[ob on] oa] ow].
  destruct (setSequenceIDs (take i toExecute ++ on ++ [finished]) e4)
    as [executed e'] eqn:Hs.
  exists e',
    {| Completed := ob || true; Executed := executed;
       ActivityEvents := oa ++ [];
       WorkflowEvents := ow ++ parentNotification e2 (task.WorkflowInstance t) None m |},
    (ob, on, oa, ow).
  split.
  - unfold ExecuteTask. fold e0.
    assert (H0 : lastSequenceID e0 = task.LastSequenceID t) by (cbn; congruence).
    destruct (Z.gtb_spec (task.LastSequenceID t) (lastSequenceID e0)); [lia|].
    destruct (Z.ltb_spec (task.LastSequenceID t) (lastSequenceID e0)); [lia|].
    unfold ExecuteTask_events. cbn [negb app]. fold toExecute.
    rewrite Hexec. cbv [mbind Res_bind mret Res_ret]. cbv beta iota.
    fold e3. rewrite Hall. cbv beta iota.
    unfold appendOutputs, oc. rewrite Hs. reflexivity.
  - split; [exact Hlog|]. split.
    { pose proof (f_equal snd Hs) as He'. cbn [snd] in He'.
      assert (Hws : forall l x, workflowState (setSequenceIDs l x).2 = workflowState x).
      { clear. induction l as [|a l IH]; intros x; [reflexivity|].
        cbn [setSequenceIDs]. unfold nextSequenceID.
        specialize (IH (with_lastSequenceID (wrap64 (lastSequenceID x + 1)) x)).
        destruct (setSequenceIDs l _). cbn in *. exact IH. }
      rewrite <- He', Hws. reflexivity. }
    split; [exact Ho|]. split.
    { pose proof (setSequenceIDs_assignFrom (take i toExecute ++ on ++ [finished]) e4) as Ha.
      rewrite Hs in Ha. cbn [fst] in Ha. cbn [Executed]. rewrite Ha.
      f_equal. exact Hseq. }
    cbn. rewrite orb_true_r, app_nil_r. repeat split; reflexivity.
Qed.

(** *** An error during replay *)

(** When replay stops at an event of a history that is in order, the
    executor's last sequence id is that of an earlier event, or the one it
    started with: it is below the sequence id of every event not yet
    replayed. *)
Lemma replayHistory_loop_error last history : forall e e1 m,
  replayHistory_loop history e = Ret (e1, Some m) ->
  increasingFrom (lastSequenceID e) (map history.SequenceID history) ->
  Forall (fun ev => history.SequenceID ev <= last) history ->
  lastSequenceID e1 < last.
Proof.
  induction history as [|event rest IH]; intros e e1 m H Hinc Hle.
  - inversion H.
  - cbn [replayHistory_loop] in H. cbn [map increasingFrom] in Hinc.
    destruct Hinc as [Hlt Hinc]. apply Forall_cons in Hle as [Hev Hle].
    destruct (executeEvent event e) as [[e' [m'|]]|] eqn:He; cbn in H;
      [| |discriminate H].
    + inversion H; subst. apply executeEvent_frame in He as [Hf _]. lia.
    + eapply IH; [exact H|exact Hinc|exact Hle].
Qed.

(** C1, on the code.  The task is ahead of the executor, the provider
    returns the missing history in order (sequence ids increasing, after
    the executor's and up to the task's last sequence id), and replaying it
    raises an error.  The executor adds the [CompleteWorkflow] command and
    sets [skipNewEvents], but the comparison of sequence ids that follows
    then fails, because the id of the failing event was never recorded:
    [ExecuteTask] returns the error "even after fetching history ...", no
    [ExecutionResult], and [processCommands] is not reached. *)
Theorem replay_error_returns_error
    (t : task.Workflow) (e e1 : executor) (h : list history.Event) (m : string) :
  let e0 := with_workflowState (workflowstate.ClearCommands (workflowState e)) e in
  lastSequenceID e < task.LastSequenceID t ->
  historyProvider e (task.WorkflowInstance t) (lastSequenceID e) = (h, None) ->
  increasingFrom (lastSequenceID e) (map history.SequenceID h) ->
  Forall (fun ev => history.SequenceID ev <= task.LastSequenceID t) h ->
  replayHistory h e0 = Ret (e1, Some m) ->
  ExecuteTask t e =
    Ret (workflowCompleted None (Some m) e1,
         (None,
          Some "even after fetching history and replaying history executor state does not match task")).
Proof.
  intros e0 Hlt Hh Hinc Hle Hreplay.
  unfold ExecuteTask. fold e0.
  change (lastSequenceID e0) with (lastSequenceID e).
  change (historyProvider e0) with (historyProvider e).
  destruct (Z.gtb_spec (task.LastSequenceID t) (lastSequenceID e)); [|lia].
  rewrite Hh, Hreplay. cbv [mbind Res_bind]. cbv beta iota.
  unfold replayHistory in Hreplay.
  apply (replayHistory_loop_error (task.LastSequenceID t)) in Hreplay;
    [|exact Hinc|exact Hle].
  change (lastSequenceID (workflowCompleted None (Some m) e1)) with (lastSequenceID e1).
  destruct (Z.eqb_spec (task.LastSequenceID t) (lastSequenceID e1)); [lia|].
  reflexivity.
Qed.

End TaskProperties.

(** ** Further properties of ExecuteTask *)

Section FurtherTaskProperties.
Context {RT : Runtime}.

(** X1. When the task is ahead of the executor and fetching the missing
    history fails, [ExecuteTask] returns that error wrapped as "getting
    workflow history" and no result: nothing is replayed or dispatched, and
    the executor is as before except for its cleared command log. *)
Theorem history_fetch_error_is_returned
    (t : task.Workflow) (e : executor) (h : list history.Event) (m : string) :
  lastSequenceID e < task.LastSequenceID t ->
  historyProvider e (task.WorkflowInstance t) (lastSequenceID e) = (h, Some m) ->
  ExecuteTask t e =
    Ret (cleared e, (None, Some (Errorf_w "getting workflow history" m))).
Proof.
  intros Hlt Hh. unfold ExecuteTask. fold (cleared e).
  change (lastSequenceID (cleared e)) with (lastSequenceID e).
  change (historyProvider (cleared e)) with (historyProvider e).
  destruct (Z.gtb_spec (task.LastSequenceID t) (lastSequenceID e)); [|lia].
  rewrite Hh. reflexivity.
Qed.

(** X2. A task whose last sequence id is behind the executor's is
    rejected: [ExecuteTask] returns the error "task has older history than
    current state, cannot execute" without asking for history and without
    dispatching any event; only the command log is cleared. *)
Theorem stale_task_is_rejected (t : task.Workflow) (e : executor) :
  task.LastSequenceID t < lastSequenceID e ->
  ExecuteTask t e =
    Ret (cleared e,
         (None, Some "task has older history than current state, cannot execute")).
Proof.
  intros Hlt. unfold ExecuteTask. fold (cleared e).
  change (lastSequenceID (cleared e)) with (lastSequenceID e).
  destruct (Z.gtb_spec (task.LastSequenceID t) (lastSequenceID e)); [lia|].
  destruct (Z.ltb_spec (task.LastSequenceID t) (lastSequenceID e)); [|lia].
  reflexivity.
Qed.

Lemma last_cons_default (a n : Z) (l : list Z) :
  List.last (a :: l) n = List.last l a.
Proof.
  revert a n. induction l as [|b l IH]; intros a n; [reflexivity|].
  change (List.last (a :: b :: l) n) with (List.last (b :: l) n).
  rewrite (IH b n), (IH b a). reflexivity.
Qed.

Lemma replayHistory_loop_progress h : forall e e' r,
  replayHistory_loop h e = Ret (e', r) ->
  match r with
  | None => lastSequenceID e' = lastReplayed (lastSequenceID e) h
  | Some m =>
      exists pre event post e1,
        h = pre ++ event :: post /\
        executeEvent event e1 = Ret (e', Some m) /\
        lastSequenceID e' = lastReplayed (lastSequenceID e) pre
  end.
Proof.
  unfold lastReplayed.
  induction h as [|event rest IH]; intros e e' r H.
  - inversion H; subst. reflexivity.
  - cbn [replayHistory_loop] in H.
    destruct (executeEvent event e) as [[e1 [m|]]|] eqn:He; cbn in H;
      [| |discriminate H].
    + inversion H; subst. exists [], event, rest, e.
      split; [reflexivity|]. split; [exact He|].
      apply executeEvent_frame in He as [Hf _]. exact Hf.
    + apply IH in H. cbn [lastSequenceID with_lastSequenceID] in H.
      destruct r as [m|].
      * destruct H as (pre & ev & post & e2 & -> & Hev & Hlast).
        exists (event :: pre), ev, post, e2.
        split; [reflexivity|]. split; [exact Hev|].
        cbn [map app]. rewrite last_cons_default. exact Hlast.
      * cbn [map]. rewrite last_cons_default. exact H.
Qed.

(** X3. [replayHistory] records its progress in the executor's last
    sequence id.  When every event is replayed, the last sequence id is the
    sequence id of the last event of the history (unchanged for an empty
    history).  When the handler of an event returns an error, replay stops
    there and the last sequence id is that of the event before it: the
    failing event is not counted. *)
Theorem replayHistory_records_progress
    (h : list history.Event) (e e' : executor) (r : error) :
  replayHistory h e = Ret (e', r) ->
  match r with
  | None => lastSequenceID e' = lastReplayed (lastSequenceID e) h
  | Some m =>
      exists pre event post e1,
        h = pre ++ event :: post /\
        executeEvent event e1 = Ret (e', Some m) /\
        lastSequenceID e' = lastReplayed (lastSequenceID e) pre
  end.
Proof.
  unfold replayHistory. intros H. apply replayHistory_loop_progress in H. exact H.
Qed.

(** X4. After a replay without error [ExecuteTask] goes on to the new
    events only if the history ended at the task's last sequence id;
    otherwise it returns the error "even after fetching history and
    replaying history executor state does not match task". *)
Theorem replay_must_reach_task_sequence_id
    (t : task.Workflow) (e e1 : executor) (h : list history.Event) :
  lastSequenceID e < task.LastSequenceID t ->
  historyProvider e (task.WorkflowInstance t) (lastSequenceID e) = (h, None) ->
  replayHistory h (cleared e) = Ret (e1, None) ->
  ExecuteTask t e =
    if decide (lastReplayed (lastSequenceID e) h = task.LastSequenceID t)
    then ExecuteTask_events t false e1
    else Ret (e1,
              (None,
               Some "even after fetching history and replaying history executor state does not match task")).
Proof.
  intros Hlt Hh Hreplay.
  pose proof (replayHistory_records_progress _ _ _ _ Hreplay) as Hlast.
  cbn beta iota in Hlast.
  change (lastSequenceID (cleared e)) with (lastSequenceID e) in Hlast.
  unfold ExecuteTask. fold (cleared e).
  change (lastSequenceID (cleared e)) with (lastSequenceID e).
  change (historyProvider (cleared e)) with (historyProvider e).
  destruct (Z.gtb_spec (task.LastSequenceID t) (lastSequenceID e)); [|lia].
  rewrite Hh, Hreplay. cbv [mbind Res_bind]. cbv beta iota.
  rewrite <- Hlast.
  destruct (Z.eqb_spec (task.LastSequenceID t) (lastSequenceID e1)) as [Heq|Hne];
    cbn [negb].
  - rewrite decide_True by congruence. reflexivity.
  - rewrite decide_False by congruence. reflexivity.
Qed.

(** *** Turns that reach the translation of commands *)

Lemma taskResult_spec executedEvents o e :
  exists e' r,
    taskResult executedEvents o e = (e', (Some r, None)) /\
    Executed r = assignFrom (lastSequenceID e) (executedEvents ++ newEventsOf o) /\
    Completed r = completedOf o /\
    ActivityEvents r = activityEventsOf o /\
    WorkflowEvents r = workflowEventsOf o.
Proof.
  unfold taskResult.
  pose proof (setSequenceIDs_assignFrom (executedEvents ++ newEventsOf o) e) as Ha.
  destruct (setSequenceIDs (executedEvents ++ newEventsOf o) e) as [executed e'].
  cbn [fst] in Ha. eexists _, _. split; [reflexivity|].
  cbn. rewrite Ha. repeat split; reflexivity.
Qed.

(** The end of [ExecuteTask]: the commands are translated and the ids set. *)
Lemma flush_commands t e executedEvents o :
  translates e (task.WorkflowInstance t) (workflowstate.commands (workflowState e)) o ->
  ('(e, (completed, newCommandEvents, activityEvents, workflowEvents, err)) ←
      processCommands t e;
    match err with
    | Some m => mret (e, (None, Some (Errorf_w "processing commands" m)))
    | None =>
        let '(executedEvents, e) :=
          setSequenceIDs (executedEvents ++ newCommandEvents) e in
        mret (e, (Some {| Completed := completed; Executed := executedEvents;
                          ActivityEvents := activityEvents;
                          WorkflowEvents := workflowEvents |}, None))
    end) = Ret (taskResult executedEvents o (committed e)).
Proof.
  intros H. apply translates_processCommands in H. rewrite H.
  destruct o as [[[b n] a] w]. unfold taskResult, committed.
  cbv [mbind Res_bind mret Res_ret]. cbv beta iota.
  cbn [newEventsOf completedOf activityEventsOf workflowEventsOf fst snd].
  destruct (setSequenceIDs _ _). reflexivity.
Qed.

Lemma ExecuteTask_events_skip t e o :
  translates e (task.WorkflowInstance t) (workflowstate.commands (workflowState e)) o ->
  ExecuteTask_events t true e = Ret (taskResult [taskStarted e] o (committed e)).
Proof.
  intros H. unfold ExecuteTask_events. cbn [negb].
  change (mret (e, [createNewEvent e history.EventType_WorkflowTaskStarted
                      history.WorkflowTaskStartedAttributes []]) ≫= ?k)
    with (k (e, [taskStarted e])).
  cbv beta iota. apply (flush_commands t e [taskStarted e] o H).
Qed.

Lemma ExecuteTask_events_run t e e1 events err o :
  executeNewEvents (taskStarted e :: task.NewEvents t) e = Ret (e1, (events, err)) ->
  translates
    (match err with Some m => workflowCompleted None (Some m) e1 | None => e1 end)
    (task.WorkflowInstance t)
    (workflowstate.commands
       (workflowState
          (match err with Some m => workflowCompleted None (Some m) e1 | None => e1 end))) o ->
  ExecuteTask_events t false e =
    Ret (taskResult events o
           (committed
              (match err with Some m => workflowCompleted None (Some m) e1 | None => e1 end))).
Proof.
  intros Hrun H. unfold ExecuteTask_events. cbn [negb app].
  change (createNewEvent e history.EventType_WorkflowTaskStarted
            history.WorkflowTaskStartedAttributes []) with (taskStarted e).
  rewrite Hrun. cbv [mbind Res_bind]. cbv beta iota.
  destruct err as [m|].
  - apply (flush_commands t _ events o H).
  - apply (flush_commands t _ events o H).
Qed.

Lemma completeWorkflow_events_of e instance id result err :
  commandEvents e instance (command.NewCompleteWorkflowCommand id result err) =
  Ret (inl (true, [finishedEvent e id result err], [],
            parentNotification e instance result (default "" err))).
Proof.
  unfold commandEvents, processCommand, parentNotification, finishedEvent. cbn.
  destruct (core.SubWorkflow instance); [|reflexivity].
  destruct (decide (default "" err = "")) as [Heq|Hne].
  - rewrite Heq. reflexivity.
  - apply String.eqb_neq in Hne. rewrite Hne. reflexivity.
Qed.

(** The log of known commands followed by a [CompleteWorkflow] command
    translates into the outputs of the former followed by the finished
    event and the message to the parent. *)
Lemma translates_completed e instance cs id result err :
  Forall (fun c => knownCommand c = true) cs ->
  exists o,
    translates e instance cs o /\
    translates e instance (cs ++ [command.NewCompleteWorkflowCommand id result err])
      (completedOf o || true,
       newEventsOf o ++ [finishedEvent e id result err],
       activityEventsOf o,
       workflowEventsOf o ++ parentNotification e instance result (default "" err)).
Proof.
  intros Hknown. destruct (knownCommands_translate e instance cs Hknown) as [o Ho].
  exists o. split; [exact Ho|].
  apply translates_app.
  exists o, (true, [finishedEvent e id result err], [],
             parentNotification e instance result (default "" err)).
  split; [exact Ho|]. split.
  - apply translates_cons. eexists _, (false, [], [], []).
    split; [apply completeWorkflow_events_of|]. split; [apply translates_nil; reflexivity|].
    symmetry. apply appendOutputs_empty_r.
  - destruct o as [[[b n] a] w]. cbn. rewrite app_nil_r. reflexivity.
Qed.

(** The loop of [executeNewEvents] when every event is dispatched. *)
Lemma executeNewEvents_loop_all newEvents e rest e1 :
  dispatched e rest e1 ->
  forall i,
  executeNewEvents_loop newEvents i rest e =
  executeNewEvents_loop newEvents (i + length rest) [] e1.
Proof.
  induction 1 as [e|e ev e1 events e' He _ IH]; intros i.
  - cbn [length]. rewrite Nat.add_0_r. reflexivity.
  - cbn [executeNewEvents_loop length]. rewrite He. cbn.
    rewrite (IH (S i)).
    replace (i + S (length events))%nat with (S i + length events)%nat by lia.
    reflexivity.
Qed.

(** X5. When replay raises an error and the executor's last sequence id
    nevertheless equals the task's, [ExecuteTask] skips the new events of
    the task: [Executed] holds the [WorkflowTaskStarted] event, the new
    events of the commands left in the log and the
    [WorkflowExecutionFinished] event carrying the replay error, and
    [Completed] is true.  None of the task's new events is dispatched or
    returned.  (The commands left in the log are of known types.) *)
Theorem replay_error_skips_new_events
    (t : task.Workflow) (e e1 : executor) (h : list history.Event) (m : string) :
  let e2 := workflowCompleted None (Some m) e1 in
  lastSequenceID e < task.LastSequenceID t ->
  historyProvider e (task.WorkflowInstance t) (lastSequenceID e) = (h, None) ->
  replayHistory h (cleared e) = Ret (e1, Some m) ->
  lastSequenceID e1 = task.LastSequenceID t ->
  Forall (fun c => knownCommand c = true) (workflowstate.commands (workflowState e1)) ->
  exists e' r o,
    ExecuteTask t e = Ret (e', (Some r, None)) /\
    translates e2 (task.WorkflowInstance t)
      (workflowstate.commands (workflowState e1)) o /\
    Executed r =
      assignFrom (task.LastSequenceID t)
        (taskStarted e1 :: newEventsOf o ++
         [finishedEvent e1 (workflowstate.scheduleEventID (workflowState e1)) None (Some m)]) /\
    Completed r = true /\
    ActivityEvents r = activityEventsOf o.
Proof.
  intros e2 Hlt Hh Hreplay Hlast Hknown.
  destruct (translates_completed e2 (task.WorkflowInstance t) _
              (workflowstate.scheduleEventID (workflowState e1)) None (Some m) Hknown)
    as (o & Ho & Hall).
  change (workflowstate.commands (workflowState e1) ++
          [command.NewCompleteWorkflowCommand
             (workflowstate.scheduleEventID (workflowState e1)) None (Some m)])
    with (workflowstate.commands (workflowState e2)) in Hall.
  apply (ExecuteTask_events_skip t e2) in Hall.
  destruct (taskResult_spec [taskStarted e2]
              (completedOf o || true,
               newEventsOf o ++
                 [finishedEvent e2 (workflowstate.scheduleEventID (workflowState e1))
                    None (Some m)],
               activityEventsOf o,
               workflowEventsOf o ++
                 parentNotification e2 (task.WorkflowInstance t) None (default "" (Some m)))
              (committed e2))
    as (e' & r & Hres & Hex & Hc & Ha & _).
  exists e', r, o. split.
  - unfold ExecuteTask. fold (cleared e).
    change (lastSequenceID (cleared e)) with (lastSequenceID e).
    change (historyProvider (cleared e)) with (historyProvider e).
    destruct (Z.gtb_spec (task.LastSequenceID t) (lastSequenceID e)); [|lia].
    rewrite Hh, Hreplay. cbv [mbind Res_bind]. cbv beta iota. fold e2.
    change (lastSequenceID e2) with (lastSequenceID e1).
    destruct (Z.eqb_spec (task.LastSequenceID t) (lastSequenceID e1)); [|congruence].
    cbn [negb]. rewrite Hall, Hres. reflexivity.
  - split; [exact Ho|]. split.
    + rewrite Hex. cbn [newEventsOf fst snd app].
      change (lastSequenceID (committed e2)) with (lastSequenceID e1).
      rewrite Hlast. reflexivity.
    + split; [rewrite Hc; cbn; apply orb_true_r|exact Ha].
Qed.

(** X6. In a turn without replay in which every event is dispatched,
    [Executed] is the [WorkflowTaskStarted] event, then all new events of
    the task in order, then the new events of the commands, with sequence
    ids assigned after the task's last sequence id.  When the workflow
    function has finished by then, the [CompleteWorkflow] command with its
    result and error is added to the log before the translation, so that
    the last new event is [WorkflowExecutionFinished] and [Completed] is
    true.  (The commands in the log are of known types.) *)
Theorem dispatched_events_are_executed
    (t : task.Workflow) (e e1 : executor) (finished : bool)
    (result : payload.Payload) (err : error) :
  let e0 := cleared e in
  let toExecute := taskStarted e0 :: task.NewEvents t in
  let e2 := afterEvents finished result err e1 in
  task.LastSequenceID t = lastSequenceID e ->
  dispatched
    (with_workflowState (workflowstate.SetReplaying false (workflowState e0)) e0)
    toExecute e1 ->
  Workflow_Completed (workflow e1) (workflowCtx e1) = Ret finished ->
  (finished = true -> Workflow_Result (workflow e1) (workflowCtx e1) = Ret result) ->
  (finished = true -> Workflow_Error (workflow e1) (workflowCtx e1) = Ret err) ->
  Forall (fun c => knownCommand c = true) (workflowstate.commands (workflowState e1)) ->
  exists e' r o,
    ExecuteTask t e = Ret (e', (Some r, None)) /\
    translates e2 (task.WorkflowInstance t)
      (workflowstate.commands (workflowState e1)) o /\
    Executed r =
      assignFrom (task.LastSequenceID t)
        (toExecute ++ newEventsOf o ++
         (if finished
          then [finishedEvent e1 (workflowstate.scheduleEventID (workflowState e1))
                  result err]
          else [])) /\
    Completed r = (completedOf o || finished) /\
    ActivityEvents r = activityEventsOf o.
Proof.
  intros e0 toExecute e2 Hlast Hdisp Hcompleted Hresult Herror Hknown.
  assert (Hseq : lastSequenceID e1 = task.LastSequenceID t).
  { apply dispatched_frame in Hdisp as [Hp _]. rewrite Hp, Hlast. reflexivity. }
  assert (Hrun : executeNewEvents toExecute e0 = Ret (e2, (toExecute, None))).
  { unfold executeNewEvents.
    rewrite (executeNewEvents_loop_all toExecute _ _ _ Hdisp 0%nat).
    cbn [executeNewEvents_loop]. rewrite Hcompleted.
    cbv [mbind Res_bind]. cbv beta iota. unfold e2, afterEvents.
    destruct finished; [|reflexivity].
    rewrite (Hresult eq_refl), (Herror eq_refl). reflexivity. }
  assert (Hstart : ExecuteTask t e = ExecuteTask_events t false e0).
  { unfold ExecuteTask. fold (cleared e). fold e0.
    assert (H0 : lastSequenceID e0 = task.LastSequenceID t) by (cbn; congruence).
    destruct (Z.gtb_spec (task.LastSequenceID t) (lastSequenceID e0)); [lia|].
    destruct (Z.ltb_spec (task.LastSequenceID t) (lastSequenceID e0)); [lia|].
    reflexivity. }
  destruct finished.
  - destruct (translates_completed e2 (task.WorkflowInstance t) _
                (workflowstate.scheduleEventID (workflowState e1)) result err Hknown)
      as (o & Ho & Hall).
    change (workflowstate.commands (workflowState e1) ++
            [command.NewCompleteWorkflowCommand
               (workflowstate.scheduleEventID (workflowState e1)) result err])
      with (workflowstate.commands (workflowState e2)) in Hall.
    pose proof (ExecuteTask_events_run t e0 e2 toExecute None _ Hrun Hall) as Hev.
    match type of Hev with _ = Ret (taskResult ?l ?o' ?x) =>
      destruct (taskResult_spec l o' x) as (e' & r & Hres & Hex & Hc & Ha & _) end.
    exists e', r, o. split; [rewrite Hstart, Hev, Hres; reflexivity|].
    split; [exact Ho|]. split.
    + rewrite Hex. cbn [newEventsOf fst snd].
      change (lastSequenceID (committed e2)) with (lastSequenceID e1).
      rewrite Hseq. reflexivity.
    + split; [exact Hc|exact Ha].
  - destruct (knownCommands_translate e2 (task.WorkflowInstance t) _ Hknown) as [o Ho].
    pose proof (ExecuteTask_events_run t e0 e2 toExecute None o Hrun Ho) as Hev.
    destruct (taskResult_spec toExecute o (committed e2))
      as (e' & r & Hres & Hex & Hc & Ha & _).
    exists e', r, o. split; [rewrite Hstart, Hev, Hres; reflexivity|].
    split; [exact Ho|]. split.
    + rewrite Hex, app_nil_r.
      change (lastSequenceID (committed e2)) with (lastSequenceID e1).
      rewrite Hseq. reflexivity.
    + split; [rewrite Hc, orb_false_r; reflexivity|exact Ha].
Qed.

Lemma setSequenceIDs_workflowState events : forall e,
  workflowState (setSequenceIDs events e).2 = workflowState e.
Proof.
  induction events as [|event events IH]; intros e; [reflexivity|].
  cbn [setSequenceIDs]. unfold nextSequenceID.
  specialize (IH (with_lastSequenceID (wrap64 (lastSequenceID e + 1)) e)).
  destruct (setSequenceIDs events _). cbn in *. exact IH.
Qed.

(** X7. After every [ExecuteTask] that returns a result, every command in
    the executor's command log is marked [Committed]: the commands the
    workflow issued during the turn have all been translated. *)
Theorem successful_task_commits_all_commands
    (t : task.Workflow) (e e' : executor) (r : ExecutionResult) :
  ExecuteTask t e = Ret (e', (Some r, None)) ->
  Forall (fun c => command.State c = command.CommandState_Committed)
    (workflowstate.commands (workflowState e')).
Proof.
  intros H.
  apply ExecuteTask_Some in H as (e0 & skip & H & _).
  apply ExecuteTask_events_Some in H
    as (e1 & e2 & executedEvents & o & _ & _ & Hp & Hs & _).
  destruct o as [[[b n] a] w].
  apply processCommands_translates in Hp as [_ ->].
  pose proof (setSequenceIDs_workflowState
                (executedEvents ++ newEventsOf (b, n, a, w))
                (with_workflowState
                   (workflowstate.set_commands
                      (map commit (workflowstate.commands (workflowState e1)))
                      (workflowState e1)) e1)) as Hws.
  rewrite Hs in Hws. cbn [snd] in Hws. rewrite Hws. cbn.
  apply Forall_forall. intros c Hin.
  apply list_elem_of_fmap in Hin as (c0 & -> & _). reflexivity.
Qed.

End FurtherTaskProperties.

(** ** Further properties of the translation of commands *)

Section FurtherCommandProperties.
Context {RT : Runtime}.

(** The loop on a log in two parts: the second part is processed on the
    outputs of the first when the first ends without error, and is left
    untouched otherwise. *)
Lemma processCommands_loop_app e instance l1 rest :
  forall completed newEvents activityEvents workflowEvents,
  processCommands_loop e instance (l1 ++ rest) completed newEvents activityEvents workflowEvents =
  '(cs1, (o1, err1)) ← processCommands_loop e instance l1
                         completed newEvents activityEvents workflowEvents;
  match err1 with
  | Some m => mret (cs1 ++ rest, (o1, Some m))
  | None =>
      let '(completed, newEvents, activityEvents, workflowEvents) := o1 in
      '(cs2, out) ← processCommands_loop e instance rest
                      completed newEvents activityEvents workflowEvents;
      mret (cs1 ++ cs2, out)
  end.
Proof.
  induction l1 as [|c l1 IH]; intros completed newEvents activityEvents workflowEvents.
  - cbn [app processCommands_loop]. cbn.
    destruct (processCommands_loop e instance rest completed newEvents
                activityEvents workflowEvents) as [[cs2 out]|]; reflexivity.
  - cbn [app processCommands_loop].
    destruct (processCommand e instance _ completed newEvents activityEvents workflowEvents)
      as [[o|m]|]; [|reflexivity..].
    destruct o as [[[b1 n1] a1] w1]. cbn. rewrite IH.
    destruct (processCommands_loop e instance l1 b1 n1 a1 w1) as [[cs1 [o1 err1]]|];
      [|reflexivity].
    cbn. destruct err1 as [m|]; [reflexivity|].
    destruct o1 as [[[b2 n2] a2] w2].
    destruct (processCommands_loop e instance rest b2 n2 a2 w2) as [[cs2 out]|];
      reflexivity.
Qed.

(** X8. A command whose type is none of the seven known ones makes
    [processCommands] return the error "unknown command type" together with
    false and nil outputs: the events of the commands translated before it
    are discarded.  The commands up to and including the unknown one have
    been marked committed by then, the ones after it are untouched. *)
Theorem unknown_command_type_discards_outputs
    (t : task.Workflow) (e : executor) (l1 l2 : list command.Command)
    (c : command.Command) (o1 : CommandEvents) :
  workflowstate.commands (workflowState e) = l1 ++ c :: l2 ->
  translates e (task.WorkflowInstance t) l1 o1 ->
  command.Type_ c = command.CommandType_Unknown ->
  processCommands t e =
    Ret (with_workflowState
           (workflowstate.set_commands (map commit l1 ++ commit c :: l2) (workflowState e)) e,
         (false, [], [], [],
          Some ("unknown command type: " +:+
                CommandType_String command.CommandType_Unknown))).
Proof.
  intros Hlog H1 Hty. unfold processCommands, workflowstate.Commands.
  rewrite Hlog, processCommands_loop_app. unfold translates in H1. rewrite H1.
  destruct o1 as [[[b1 n1] a1] w1].
  cbv beta iota delta [mbind Res_bind mret Res_ret processCommands_loop].
  fold (commit c).
  unfold processCommand. change (command.Type_ (commit c)) with (command.Type_ c).
  rewrite Hty. reflexivity.
Qed.

Lemma completedOf_append o1 o2 :
  completedOf (appendOutputs o1 o2) = completedOf o1 || completedOf o2.
Proof. destruct o1 as [[[b1 n1] a1] w1], o2 as [[[b2 n2] a2] w2]. reflexivity. Qed.

Lemma newEventsOf_append o1 o2 :
  newEventsOf (appendOutputs o1 o2) = newEventsOf o1 ++ newEventsOf o2.
Proof. destruct o1 as [[[b1 n1] a1] w1], o2 as [[[b2 n2] a2] w2]. reflexivity. Qed.

Lemma activityEventsOf_append o1 o2 :
  activityEventsOf (appendOutputs o1 o2) = activityEventsOf o1 ++ activityEventsOf o2.
Proof. destruct o1 as [[[b1 n1] a1] w1], o2 as [[[b2 n2] a2] w2]. reflexivity. Qed.

Lemma workflowEventsOf_append o1 o2 :
  workflowEventsOf (appendOutputs o1 o2) = workflowEventsOf o1 ++ workflowEventsOf o2.
Proof. destruct o1 as [[[b1 n1] a1] w1], o2 as [[[b2 n2] a2] w2]. reflexivity. Qed.

Lemma command_flags e instance c o :
  commandEvents e instance c = Ret (inl o) ->
  completedOf o = isCompleteWorkflow c /\
  activityEventsOf o = List.filter isActivityScheduled (newEventsOf o).
Proof.
  intros H. unfold isCompleteWorkflow.
  unfold commandEvents, processCommand in H.
  destruct (command.Type_ c) eqn:Hty; destruct (command.Attr c) eqn:Ha;
    try destruct (core.SubWorkflow instance);
    cbn in H; try discriminate H;
    inversion H; subst o; split; reflexivity.
Qed.

Lemma translates_flags e instance cs : forall o,
  translates e instance cs o ->
  completedOf o = existsb isCompleteWorkflow cs /\
  activityEventsOf o = List.filter isActivityScheduled (newEventsOf o).
Proof.
  induction cs as [|c cs IH]; intros o H.
  - apply translates_nil in H as ->. split; reflexivity.
  - apply translates_cons in H as (oc & o2 & Hc & H2 & ->).
    destruct (command_flags _ _ _ _ Hc) as [Hc1 Hc2].
    destruct (IH o2 H2) as [IH1 IH2].
    rewrite completedOf_append, activityEventsOf_append, newEventsOf_append,
      List.filter_app, Hc1, Hc2, IH1, IH2.
    split; reflexivity.
Qed.

(** X9. When [processCommands] returns without error, its [completed]
    flag is true exactly when the command log holds a [CompleteWorkflow]
    command, wherever in the log it stands. *)
Theorem completed_iff_CompleteWorkflow_command
    (t : task.Workflow) (e e' : executor) (completed : bool)
    (newEvents activityEvents : list history.Event)
    (workflowEvents : list history.WorkflowEvent) :
  processCommands t e =
    Ret (e', (completed, newEvents, activityEvents, workflowEvents, None)) ->
  completed = existsb isCompleteWorkflow (workflowstate.commands (workflowState e)).
Proof.
  intros H. apply processCommands_translates in H as [H _].
  apply translates_flags in H as [H _]. exact H.
Qed.

(** X10. When [processCommands] returns without error, the activity events
    are exactly the [ActivityScheduled] events among the new events, in the
    same order: every activity recorded in the history is routed to the
    activity workers, and nothing else is. *)
Theorem activity_events_are_the_scheduled_activities
    (t : task.Workflow) (e e' : executor) (completed : bool)
    (newEvents activityEvents : list history.Event)
    (workflowEvents : list history.WorkflowEvent) :
  processCommands t e =
    Ret (e', (completed, newEvents, activityEvents, workflowEvents, None)) ->
  activityEvents = List.filter isActivityScheduled newEvents.
Proof.
  intros H. apply processCommands_translates in H as [H _].
  apply translates_flags in H as [_ H]. exact H.
Qed.

(** The outputs of the turn around the outputs [oc] of one command. *)
Lemma outputs_around o1 oc o2 completed newEvents activityEvents workflowEvents :
  (completed, newEvents, activityEvents, workflowEvents) =
    appendOutputs o1 (appendOutputs oc o2) ->
  newEvents = newEventsOf o1 ++ newEventsOf oc ++ newEventsOf o2 /\
  activityEvents = activityEventsOf o1 ++ activityEventsOf oc ++ activityEventsOf o2 /\
  workflowEvents = workflowEventsOf o1 ++ workflowEventsOf oc ++ workflowEventsOf o2.
Proof.
  destruct o1 as [[[b1 n1] a1] w1], oc as [[[bc nc] ac] wc], o2 as [[[b2 n2] a2] w2].
  cbn. intros H. inversion H. repeat split; reflexivity.
Qed.

(** X11. Every [ScheduleSubWorkflow] command that [processCommands]
    processes appends the [SubWorkflowScheduled] event (instance, name and
    inputs of the command, the command's id as schedule event id) to the
    local new events, and to the workflow events one message addressed to
    the new sub-workflow instance: the [WorkflowExecutionStarted] event
    with the same name, inputs and schedule event id. *)
Theorem ScheduleSubWorkflow_scheduled_and_started
    (t : task.Workflow) (e e' : executor) (completed : bool)
    (newEvents activityEvents : list history.Event)
    (workflowEvents : list history.WorkflowEvent)
    (l1 l2 : list command.Command) (c : command.Command) :
  processCommands t e =
    Ret (e', (completed, newEvents, activityEvents, workflowEvents, None)) ->
  workflowstate.commands (workflowState e) = l1 ++ c :: l2 ->
  command.Type_ c = command.CommandType_ScheduleSubWorkflow ->
  exists sub name inputs o1 o2,
    command.Attr c = command.ScheduleSubWorkflowCommandAttr sub name inputs /\
    translates e (task.WorkflowInstance t) l1 o1 /\
    translates e (task.WorkflowInstance t) l2 o2 /\
    newEvents =
      newEventsOf o1 ++
      [pendingEvent e history.EventType_SubWorkflowScheduled (command.ID c) None
         (history.SubWorkflowScheduledAttributes sub name inputs)] ++
      newEventsOf o2 /\
    activityEvents = activityEventsOf o1 ++ activityEventsOf o2 /\
    workflowEvents =
      workflowEventsOf o1 ++
      [{| history.WorkflowInstance := sub;
          history.HistoryEvent :=
            pendingEvent e history.EventType_WorkflowExecutionStarted (command.ID c) None
              (history.ExecutionStartedAttributes name inputs) |}] ++
      workflowEventsOf o2.
Proof.
  intros H Hlog Hty.
  destruct (processCommands_split _ _ _ _ _ _ _ _ _ _ H Hlog)
    as (o1 & oc & o2 & H1 & Hc & H2 & Hout).
  apply outputs_around in Hout as (Hn & Ha & Hw).
  unfold commandEvents, processCommand in Hc. rewrite Hty in Hc.
  destruct (command.Attr c) as [|sub name inputs| | | | |]; try discriminate Hc.
  cbn in Hc. inversion Hc; subst oc. clear Hc.
  exists sub, name, inputs, o1, o2. repeat split; assumption.
Qed.

(** X12. Every [ScheduleActivity] command that [processCommands]
    processes appends one and the same [ActivityScheduled] event (name and
    inputs of the command, the command's id as schedule event id) to the
    local new events and to the activity events, and nothing to the
    workflow events. *)
Theorem ScheduleActivity_recorded_and_routed
    (t : task.Workflow) (e e' : executor) (completed : bool)
    (newEvents activityEvents : list history.Event)
    (workflowEvents : list history.WorkflowEvent)
    (l1 l2 : list command.Command) (c : command.Command) :
  processCommands t e =
    Ret (e', (completed, newEvents, activityEvents, workflowEvents, None)) ->
  workflowstate.commands (workflowState e) = l1 ++ c :: l2 ->
  command.Type_ c = command.CommandType_ScheduleActivity ->
  exists name inputs o1 o2,
    let scheduled :=
      pendingEvent e history.EventType_ActivityScheduled (command.ID c) None
        (history.ActivityScheduledAttributes name inputs) in
    command.Attr c = command.ScheduleActivityTaskCommandAttr name inputs /\
    translates e (task.WorkflowInstance t) l1 o1 /\
    translates e (task.WorkflowInstance t) l2 o2 /\
    newEvents = newEventsOf o1 ++ [scheduled] ++ newEventsOf o2 /\
    activityEvents = activityEventsOf o1 ++ [scheduled] ++ activityEventsOf o2 /\
    workflowEvents = workflowEventsOf o1 ++ workflowEventsOf o2.
Proof.
  intros H Hlog Hty.
  destruct (processCommands_split _ _ _ _ _ _ _ _ _ _ H Hlog)
    as (o1 & oc & o2 & H1 & Hc & H2 & Hout).
  apply outputs_around in Hout as (Hn & Ha & Hw).
  unfold commandEvents, processCommand in Hc. rewrite Hty in Hc.
  destruct (command.Attr c) as [name inputs| | | | | |]; try discriminate Hc.
  cbn in Hc. inversion Hc; subst oc. clear Hc.
  exists name, inputs, o1, o2. repeat split; assumption.
Qed.

(** X13. Every [SideEffect] command that [processCommands] processes
    appends the [SideEffectResult] event carrying the result recorded in
    the command, under the command's id, to the local new events, and
    nothing to the activity events or the workflow events: a side effect is
    recorded, never routed. *)
Theorem SideEffect_result_is_recorded
    (t : task.Workflow) (e e' : executor) (completed : bool)
    (newEvents activityEvents : list history.Event)
    (workflowEvents : list history.WorkflowEvent)
    (l1 l2 : list command.Command) (c : command.Command) :
  processCommands t e =
    Ret (e', (completed, newEvents, activityEvents, workflowEvents, None)) ->
  workflowstate.commands (workflowState e) = l1 ++ c :: l2 ->
  command.Type_ c = command.CommandType_SideEffect ->
  exists result o1 o2,
    command.Attr c = command.SideEffectCommandAttr result /\
    translates e (task.WorkflowInstance t) l1 o1 /\
    translates e (task.WorkflowInstance t) l2 o2 /\
    newEvents =
      newEventsOf o1 ++
      [pendingEvent e history.EventType_SideEffectResult (command.ID c) None
         (history.SideEffectResultAttributes result)] ++
      newEventsOf o2 /\
    activityEvents = activityEventsOf o1 ++ activityEventsOf o2 /\
    workflowEvents = workflowEventsOf o1 ++ workflowEventsOf o2.
Proof.
  intros H Hlog Hty.
  destruct (processCommands_split _ _ _ _ _ _ _ _ _ _ H Hlog)
    as (o1 & oc & o2 & H1 & Hc & H2 & Hout).
  apply outputs_around in Hout as (Hn & Ha & Hw).
  unfold commandEvents, processCommand in Hc. rewrite Hty in Hc.
  destruct (command.Attr c) as [| | |result| | |]; try discriminate Hc.
  cbn in Hc. inversion Hc; subst oc. clear Hc.
  exists result, o1, o2. repeat split; assumption.
Qed.

(** X14. Every [CancelSubWorkflow] command that [processCommands]
    processes appends a [SubWorkflowCancellationRequested] event to the
    local new events and a workflow-cancellation message addressed to the
    sub-workflow instance.  The recorded event has no schedule event id
    (zero, not the command's id) and carries attributes of the
    [SubWorkflowScheduledAttributes] type, with the instance only. *)
Theorem CancelSubWorkflow_requested_and_sent
    (t : task.Workflow) (e e' : executor) (completed : bool)
    (newEvents activityEvents : list history.Event)
    (workflowEvents : list history.WorkflowEvent)
    (l1 l2 : list command.Command) (c : command.Command) :
  processCommands t e =
    Ret (e', (completed, newEvents, activityEvents, workflowEvents, None)) ->
  workflowstate.commands (workflowState e) = l1 ++ c :: l2 ->
  command.Type_ c = command.CommandType_CancelSubWorkflow ->
  exists sub o1 o2,
    command.Attr c = command.CancelSubWorkflowCommandAttr sub /\
    translates e (task.WorkflowInstance t) l1 o1 /\
    translates e (task.WorkflowInstance t) l2 o2 /\
    newEvents =
      newEventsOf o1 ++
      [pendingEvent e history.EventType_SubWorkflowCancellationRequested 0 None
         (history.SubWorkflowScheduledAttributes sub "" [])] ++
      newEventsOf o2 /\
    activityEvents = activityEventsOf o1 ++ activityEventsOf o2 /\
    workflowEvents =
      workflowEventsOf o1 ++
      [{| history.WorkflowInstance := sub;
          history.HistoryEvent :=
            {| history.SequenceID := 0;
               history.Type_ := history.EventType_WorkflowExecutionCanceled;
               history.Timestamp := time_Now;
               history.ScheduleEventID := 0;
               history.VisibleAt := None;
               history.Attributes := history.ExecutionCanceledAttributes |} |}] ++
      workflowEventsOf o2.
Proof.
  intros H Hlog Hty.
  destruct (processCommands_split _ _ _ _ _ _ _ _ _ _ H Hlog)
    as (o1 & oc & o2 & H1 & Hc & H2 & Hout).
  apply outputs_around in Hout as (Hn & Ha & Hw).
  unfold commandEvents, processCommand in Hc. rewrite Hty in Hc.
  destruct (command.Attr c) as [| |sub| | | |]; try discriminate Hc.
  cbn in Hc. inversion Hc; subst oc. clear Hc.
  exists sub, o1, o2. repeat split; assumption.
Qed.

(** X15. The [SubWorkflowCancellationRequested] event that
    [processCommands] creates for a [CancelSubWorkflow] command cannot be
    dispatched: [executeEvent] asserts attributes of the type
    [SubWorkflowCancellationRequestedAttributes], the event carries
    [SubWorkflowScheduledAttributes], and the assertion panics, whatever
    the state of the executor. *)
Theorem cancellation_request_event_panics_when_dispatched
    (e ex : executor) (instance : core.WorkflowInstance)
    (c : command.Command) (o : CommandEvents) (event : history.Event) :
  commandEvents e instance c = Ret (inl o) ->
  command.Type_ c = command.CommandType_CancelSubWorkflow ->
  event ∈ newEventsOf o ->
  executeEvent event ex = Panic.
Proof.
  intros Hc Hty Hin.
  unfold commandEvents, processCommand in Hc. rewrite Hty in Hc.
  destruct (command.Attr c) as [| |sub| | | |]; try discriminate Hc.
  cbn in Hc. inversion Hc; subst o. clear Hc.
  cbn in Hin. apply list_elem_of_singleton in Hin. subst event.
  reflexivity.
Qed.

(** X16. The event that [processCommands] records for a
    [ScheduleActivity], [ScheduleSubWorkflow] or [ScheduleTimer] command is
    accepted on replay: dispatched to an executor whose pending command
    for that id has the same type and attributes, it returns nil and
    leaves the command log without that command. *)
Theorem recorded_schedule_event_replays
    (e ex : executor) (instance : core.WorkflowInstance)
    (c c' : command.Command) (o : CommandEvents) (event : history.Event) :
  commandEvents e instance c = Ret (inl o) ->
  command.Type_ c = command.CommandType_ScheduleActivity \/
  command.Type_ c = command.CommandType_ScheduleSubWorkflow \/
  command.Type_ c = command.CommandType_ScheduleTimer ->
  event ∈ newEventsOf o ->
  pendingCommand (command.ID c) ex = Some c' ->
  command.Type_ c' = command.Type_ c ->
  command.Attr c' = command.Attr c ->
  exists ex',
    executeEvent event ex = Ret (ex', None) /\
    workflowstate.commands (workflowState ex') = commandsWithout (command.ID c) ex.
Proof.
  intros Hc Hty Hin Hpending Hty' Hattr'.
  unfold commandEvents, processCommand in Hc.
  destruct Hty as [Hty|[Hty|Hty]]; rewrite Hty in Hc, Hty';
    destruct (command.Attr c) eqn:Ha; try discriminate Hc;
    cbn in Hc; inversion Hc; subst o; clear Hc;
    cbn in Hin; apply list_elem_of_singleton in Hin; subst event;
    unfold executeEvent;
    cbn [history.ScheduleEventID_opt history.Type_ history.Attributes].
  - unfold handleActivityScheduled. rewrite removeCommand_eq.
    cbn [history.ScheduleEventID history.ScheduleEventID_opt]. rewrite Hpending, Hty', Hattr'.
    rewrite bool_decide_eq_true_2 by reflexivity. cbn [negb].
    rewrite String.eqb_refl. cbn [negb]. eexists. split; reflexivity.
  - unfold handleSubWorkflowScheduled. rewrite removeCommand_eq.
    cbn [history.ScheduleEventID history.ScheduleEventID_opt]. rewrite Hpending, Hty', Hattr'.
    rewrite bool_decide_eq_true_2 by reflexivity. cbn [negb].
    rewrite String.eqb_refl. cbn [negb]. eexists. split; reflexivity.
  - unfold handleTimerScheduled. rewrite removeCommand_eq.
    cbn [history.ScheduleEventID history.ScheduleEventID_opt]. eexists. split; reflexivity.
Qed.

End FurtherCommandProperties.

(** ** Further properties of the dispatch of events *)

Section FurtherHandlerProperties.
Context {RT : Runtime}.

(** Case analysis on hypotheses that equate outcomes of Go code. *)
Ltac outcome_cases :=
  repeat match goal with
  | H : exists _, _ |- _ => destruct H
  | H : _ /\ _ |- _ => destruct H
  | H : _ \/ _ |- _ => destruct H
  | H : Some _ = Some _ |- _ => inversion H; clear H; subst
  | H : Ret _ = Ret _ |- _ => inversion H; clear H; subst
  | H : Panic = Ret _ |- _ => discriminate H
  | H : Ret _ = Panic |- _ => discriminate H
  | H : Some _ = None |- _ => discriminate H
  | H : None = Some _ |- _ => discriminate H
  | |- _ /\ _ => split
  end.

(** X17. The four events that report the end of an activity or of a
    sub-workflow ([ActivityCompleted], [ActivityFailed],
    [SubWorkflowCompleted], [SubWorkflowFailed]) are handled alike.
    Without a future registered for the schedule event id the handler
    returns an error and leaves the executor as it was, the command
    included.  With a future, the command of that id is removed, the
    future is resolved with the result, or with the failure as error, and
    the workflow is resumed. *)
Theorem completion_event_resolves_pending_future
    (event : history.Event) (e : executor) (v : payload.Payload) (err : error) :
  let id := history.ScheduleEventID event in
  completionOf event = Some (v, err) ->
  match workflowstate.FutureByScheduleEventID id (workflowState e) with
  | None => exists msg, executeEvent event e = Ret (e, Some msg)
  | Some f => executeEvent event e = resolveAndResume f v err (withoutCommand id e)
  end.
Proof.
  intros id H. unfold completionOf in H. unfold executeEvent.
  destruct (history.Type_ event); try discriminate H;
    destruct (history.Attributes event); try discriminate H;
    inversion H; subst;
    unfold handleActivityCompleted, handleActivityFailed,
      handleSubWorkflowCompleted, handleSubWorkflowFailed; fold id;
    (destruct (workflowstate.FutureByScheduleEventID id (workflowState e));
     [rewrite removeCommand_eq; reflexivity|eauto]).
Qed.

(** X18. [handleSubWorkflowScheduled] takes the command with the event's
    schedule event id out of the command log.  It returns an error exactly
    when there is no such command, the command is not of type
    [ScheduleSubWorkflow], or its workflow name differs from the event's.
    On a matching command it returns nil after writing the sub-workflow
    instance recorded in the event into the attributes of the command that
    was taken out. *)
Theorem handleSubWorkflowScheduled_determinism_check
    (event : history.Event) (inst : core.WorkflowInstance) (Name : string)
    (e : executor) :
  let id := history.ScheduleEventID event in
  let e1 := withoutCommand id e in
  (returnsError (handleSubWorkflowScheduled event inst Name e) <->
     (pendingCommand id e = None \/
      exists c, pendingCommand id e = Some c /\
        (command.Type_ c <> command.CommandType_ScheduleSubWorkflow \/
         exists n, subWorkflowName c = Some n /\ n <> Name))) /\
  (forall c, pendingCommand id e = Some c ->
     command.Type_ c = command.CommandType_ScheduleSubWorkflow ->
     subWorkflowName c = Some Name ->
     handleSubWorkflowScheduled event inst Name e =
       Ret (with_workflowCtx
              (Command_written (withSubWorkflowInstance inst c) (workflowCtx e1)) e1,
            None)) /\
  (forall e' m, handleSubWorkflowScheduled event inst Name e = Ret (e', Some m) ->
     e' = e1).
Proof.
  intros id e1. unfold handleSubWorkflowScheduled, returnsError.
  rewrite removeCommand_eq. fold id. fold (withoutCommand id e). fold e1.
  destruct (pendingCommand id e) as [c|] eqn:Hc.
  - unfold subWorkflowName, withSubWorkflowInstance.
    destruct (decide (command.Type_ c = command.CommandType_ScheduleSubWorkflow))
      as [Hty|Hty].
    + rewrite (bool_decide_eq_true_2 _ Hty). cbn [negb].
      destruct (command.Attr c) as [|i0 n inputs| | | | |] eqn:Hattr.
      2: destruct (String.eqb_spec Name n) as [->|Hn]; cbn [negb].
      all: cbv [mret Res_ret].
      all: split; [split|split].
      all: try solve [intros; outcome_cases; rewrite ?Hattr in *; outcome_cases;
                      try congruence; eauto 8].
      * intros _. right. exists c. split; [reflexivity|]. right. exists n.
        rewrite Hattr. split; [reflexivity|congruence].
    + rewrite (bool_decide_eq_false_2 _ Hty). cbn [negb]. cbv [mret Res_ret].
      split; [split|split].
      all: try solve [intros; outcome_cases; try congruence; eauto 8].
  - cbv [mret Res_ret]. split; [split|split].
    all: try solve [intros; outcome_cases; try congruence; eauto 8].
Qed.

(** X19. [executeEvent] panics on every event whose attributes are not of
    the type asserted for its event type: a history whose events carry the
    attributes of another event type is not reported as an error, it
    crashes the dispatch, and the executor is not left in any state. *)
Theorem mismatched_attributes_panic (event : history.Event) (e : executor) :
  attributesMatch (history.Type_ event) (history.Attributes event) = false ->
  executeEvent event e = Panic.
Proof.
  unfold attributesMatch, executeEvent.
  destruct (history.Type_ event); destruct (history.Attributes event);
    intros H; try discriminate H; reflexivity.
Qed.

(** The loop of [executeNewEvents] on the events from index [i] on. *)
Lemma executeNewEvents_loop_prefix newEvents rest :
  forall pre e e' executed err,
  newEvents = pre ++ rest ->
  executeNewEvents_loop newEvents (length pre) rest e = Ret (e', (executed, err)) ->
  exists j, (length pre <= j <= length newEvents)%nat /\
    executed = take j newEvents /\
    (err = None -> j = length newEvents) /\
    (forall m, err = Some m ->
       exists event e1 e2, newEvents !! j = Some event /\
         dispatched e (drop (length pre) (take j newEvents)) e1 /\
         executeEvent event e1 = Ret (e2, Some m) /\ e' = e2).
Proof.
  induction rest as [|event rest IH]; intros pre e e' executed err Hsplit H.
  - cbn [executeNewEvents_loop] in H. rewrite app_nil_r in Hsplit. subst pre.
    exists (length newEvents).
    destruct (Workflow_Completed (workflow e) (workflowCtx e)) as [[|]|];
      cbn in H; [| |discriminate H].
    + destruct (Workflow_Result (workflow e) (workflowCtx e)); cbn in H; [|discriminate H].
      destruct (Workflow_Error (workflow e) (workflowCtx e)); cbn in H; [|discriminate H].
      inversion H; subst. rewrite take_ge by lia.
      repeat split; try lia; try reflexivity. intros m Hm. discriminate Hm.
    + inversion H; subst. rewrite take_ge by lia.
      repeat split; try lia; try reflexivity. intros m Hm. discriminate Hm.
  - cbn [executeNewEvents_loop] in H.
    assert (Hlen : length newEvents = (length pre + S (length rest))%nat).
    { rewrite Hsplit, length_app. reflexivity. }
    destruct (executeEvent event e) as [[e1 [m|]]|] eqn:He; cbn in H;
      [| |discriminate H].
    + inversion H; subst e' executed err. clear H.
      exists (length pre). split; [lia|]. split; [reflexivity|].
      split; [discriminate|]. intros m0 Hm. inversion Hm; subst m0.
      exists event, e, e1. split.
      { rewrite Hsplit. apply list_lookup_middle. reflexivity. }
      split; [|split; [exact He|reflexivity]].
      rewrite drop_ge by (rewrite length_take; lia). constructor.
    + specialize (IH (pre ++ [event]) e1 e' executed err).
      rewrite length_app in IH. cbn [length] in IH.
      replace (length pre + 1)%nat with (S (length pre)) in IH by lia.
      destruct IH as (j & Hj & Hex & Hnone & Hsome).
      { rewrite <- app_assoc. exact Hsplit. }
      { exact H. }
      exists j. split; [lia|]. split; [exact Hex|]. split; [exact Hnone|].
      intros m Hm. destruct (Hsome m Hm) as (ev & ea & eb & Hlook & Hd & Hfail & Heq).
      exists ev, ea, eb. split; [exact Hlook|]. split; [|split; assumption].
      assert (Hdrop : drop (length pre) (take j newEvents) =
                      event :: drop (S (length pre)) (take j newEvents)).
      { apply drop_S. rewrite lookup_take_lt by lia.
        rewrite Hsplit. apply list_lookup_middle. reflexivity. }
      rewrite Hdrop. econstructor; [exact He|exact Hd].
Qed.

(** X20. [executeNewEvents] returns as executed a prefix of the events it
    was given: all of them when it returns nil, and otherwise exactly the
    events before the first one whose handler returned an error, which is
    the error returned; the failing event itself is not among the executed
    ones.  In both cases neither the last sequence id nor the clock of the
    executor has changed. *)
Theorem executeNewEvents_returns_dispatched_prefix
    (newEvents executed : list history.Event) (e e' : executor) (err : error) :
  executeNewEvents newEvents e = Ret (e', (executed, err)) ->
  sameFrame e e' /\
  match err with
  | None => executed = newEvents
  | Some m =>
      exists (j : nat) event e1,
        executed = take j newEvents /\
        newEvents !! j = Some event /\
        dispatched
          (with_workflowState (workflowstate.SetReplaying false (workflowState e)) e)
          executed e1 /\
        executeEvent event e1 = Ret (e', Some m)
  end.
Proof.
  intros H. split; [exact (executeNewEvents_frame _ _ _ _ H)|].
  unfold executeNewEvents in H.
  destruct (executeNewEvents_loop_prefix newEvents newEvents [] _ _ _ _ eq_refl H)
    as (j & Hj & Hex & Hnone & Hsome).
  destruct err as [m|].
  - destruct (Hsome m eq_refl) as (event & e1 & e2 & Hlook & Hd & Hfail & ->).
    exists j, event, e1. cbn [length] in Hd. rewrite drop_0 in Hd.
    rewrite Hex. repeat split; assumption.
  - rewrite Hex, (Hnone eq_refl). apply take_ge. lia.
Qed.

End FurtherHandlerProperties.

(** ** What a task returns *)

Section TaskOutcomes.
Context {RT : Runtime}.

(** The only error of the loop of [processCommands] is the one of the
    default case, and it comes with empty outputs. *)
Lemma processCommands_loop_error e instance cs :
  forall completed newEvents activityEvents workflowEvents cs' o m,
  processCommands_loop e instance cs completed newEvents activityEvents workflowEvents =
    Ret (cs', (o, Some m)) ->
  o = (false, [], [], []) /\
  m = "unknown command type: " +:+ CommandType_String command.CommandType_Unknown.
Proof.
  induction cs as [|c cs IH];
    intros completed newEvents activityEvents workflowEvents cs' o m H.
  - inversion H.
  - cbn [processCommands_loop] in H.
    destruct (processCommand e instance _ completed newEvents activityEvents workflowEvents)
      as [[o1|m1]|] eqn:Hc; [| |discriminate H].
    + destruct o1 as [[[b1 n1] a1] w1]. cbn in H.
      destruct (processCommands_loop e instance cs b1 n1 a1 w1)
        as [[cs1 [o1 err1]]|] eqn:Hl; [|discriminate H].
      cbn in H. inversion H; subst. eapply IH, Hl.
    + cbn in H. inversion H; subst. split; [reflexivity|].
      unfold processCommand in Hc.
      destruct (command.Type_ _); try destruct (command.Attr _);
        try destruct (core.SubWorkflow instance);
        cbn in Hc; try discriminate Hc; inversion Hc; reflexivity.
Qed.

Lemma ExecuteTask_events_outcome t skipNewEvents e e' r err :
  ExecuteTask_events t skipNewEvents e = Ret (e', (r, err)) ->
  match err with
  | None => exists result, r = Some result
  | Some m =>
      r = None /\
      m = Errorf_w "processing commands"
            ("unknown command type: " +:+ CommandType_String command.CommandType_Unknown)
  end.
Proof.
  unfold ExecuteTask_events. intros H.
  assert (Hgen : forall e1 executedEvents,
    ('(e, (completed, newCommandEvents, activityEvents, workflowEvents, err)) ←
        processCommands t e1;
      match err with
      | Some m => mret (e, (None, Some (Errorf_w "processing commands" m)))
      | None =>
          let '(executedEvents, e) :=
            setSequenceIDs (executedEvents ++ newCommandEvents) e in
          mret (e, (Some {| Completed := completed; Executed := executedEvents;
                            ActivityEvents := activityEvents;
                            WorkflowEvents := workflowEvents |}, None))
      end) = Ret (e', (r, err)) ->
    match err with
    | None => exists result, r = Some result
    | Some m =>
        r = None /\
        m = Errorf_w "processing commands"
              ("unknown command type: " +:+
               CommandType_String command.CommandType_Unknown)
    end).
  { clear H. intros e1 executedEvents H.
    unfold processCommands in H.
    destruct (processCommands_loop e1 (task.WorkflowInstance t) _ false [] [] [])
      as [[cs' [o err0]]|] eqn:Hl; [|discriminate H].
    cbv [mbind Res_bind mret Res_ret] in H. cbv beta iota in H.
    destruct o as [[[b n] a] w]. destruct err0 as [m|].
    - apply processCommands_loop_error in Hl as [_ ->].
      inversion H; subst. split; reflexivity.
    - destruct (setSequenceIDs (executedEvents ++ n) _) as [ids e3].
      inversion H; subst. eauto. }
  destruct skipNewEvents; cbn [negb] in H.
  - eapply Hgen. exact H.
  - destruct (executeNewEvents _ e) as [[e0 [evs [m|]]]|]; [| |discriminate H];
      eapply Hgen; exact H.
Qed.

(** X21. [ExecuteTask] returns either a result and a nil error, or no
    result and one of four errors: the history could not be fetched, the
    executor does not match the task after the replay, the task is older
    than the executor, or a command of an unknown type was found.  An
    error returned by an event handler is never the error of
    [ExecuteTask]. *)
Theorem ExecuteTask_returns_result_or_one_of_four_errors
    (t : task.Workflow) (e e' : executor) (r : option ExecutionResult) (err : error) :
  ExecuteTask t e = Ret (e', (r, err)) ->
  match err with
  | None => exists result, r = Some result
  | Some m =>
      r = None /\
      ((exists h m0,
          historyProvider e (task.WorkflowInstance t) (lastSequenceID e) = (h, Some m0) /\
          m = Errorf_w "getting workflow history" m0) \/
       m = "even after fetching history and replaying history executor state does not match task" \/
       m = "task has older history than current state, cannot execute" \/
       m = Errorf_w "processing commands"
             ("unknown command type: " +:+
              CommandType_String command.CommandType_Unknown))
  end.
Proof.
  unfold ExecuteTask. intros H.
  set (ec := with_workflowState (workflowstate.ClearCommands (workflowState e)) e) in *.
  assert (Hev : forall skip e0,
    ExecuteTask_events t skip e0 = Ret (e', (r, err)) ->
    match err with
    | None => exists result, r = Some result
    | Some m =>
        r = None /\
        ((exists h m0,
            historyProvider e (task.WorkflowInstance t) (lastSequenceID e) = (h, Some m0) /\
            m = Errorf_w "getting workflow history" m0) \/
         m = "even after fetching history and replaying history executor state does not match task" \/
         m = "task has older history than current state, cannot execute" \/
         m = Errorf_w "processing commands"
               ("unknown command type: " +:+
                CommandType_String command.CommandType_Unknown))
    end).
  { intros skip e0 H0. apply ExecuteTask_events_outcome in H0.
    destruct err as [m|]; [|exact H0]. destruct H0 as [-> ->]. auto 6. }
  destruct (task.LastSequenceID t >? lastSequenceID ec).
  - change (historyProvider ec) with (historyProvider e) in H.
    change (lastSequenceID ec) with (lastSequenceID e) in H.
    destruct (historyProvider e (task.WorkflowInstance t) (lastSequenceID e))
      as [h [m0|]] eqn:Hh.
    + inversion H; subst. split; [reflexivity|]. left. eauto.
    + destruct (replayHistory h ec) as [[e1 err1]|]; [|discriminate H].
      cbv [mbind Res_bind] in H. cbv beta iota in H.
      destruct err1 as [m1|].
      * destruct (negb (task.LastSequenceID t =?
                        lastSequenceID (workflowCompleted None (Some m1) e1))).
        -- inversion H; subst. auto.
        -- eapply Hev, H.
      * destruct (negb (task.LastSequenceID t =? lastSequenceID e1)).
        -- inversion H; subst. auto.
        -- eapply Hev, H.
  - destruct (task.LastSequenceID t <? lastSequenceID ec).
    + inversion H; subst. auto 6.
    + eapply Hev, H.
Qed.

(** A successful [ExecuteTask_events]: what was executed, the translation
    of the commands and the assignment of the ids. *)
Lemma ExecuteTask_events_shape t skipNewEvents e e' r :
  ExecuteTask_events t skipNewEvents e = Ret (e', (Some r, None)) ->
  exists (j : nat) o e2,
    translates e2 (task.WorkflowInstance t)
      (workflowstate.commands (workflowState e2)) o /\
    Executed r =
      assignFrom (lastSequenceID e)
        (taskStarted e :: take j (task.NewEvents t) ++ newEventsOf o) /\
    Completed r = completedOf o /\
    ActivityEvents r = activityEventsOf o /\
    WorkflowEvents r = workflowEventsOf o /\
    (skipNewEvents = true -> j = 0%nat).
Proof.
  unfold ExecuteTask_events. intros H.
  assert (Hgen : forall e1 executedEvents,
    sameFrame e e1 ->
    ('(e, (completed, newCommandEvents, activityEvents, workflowEvents, err)) ←
        processCommands t e1;
      match err with
      | Some m => mret (e, (None, Some (Errorf_w "processing commands" m)))
      | None =>
          let '(executedEvents, e) :=
            setSequenceIDs (executedEvents ++ newCommandEvents) e in
          mret (e, (Some {| Completed := completed; Executed := executedEvents;
                            ActivityEvents := activityEvents;
                            WorkflowEvents := workflowEvents |}, None))
      end) = Ret (e', (Some r, None)) ->
    exists o e2,
      translates e2 (task.WorkflowInstance t)
        (workflowstate.commands (workflowState e2)) o /\
      Executed r = assignFrom (lastSequenceID e) (executedEvents ++ newEventsOf o) /\
      Completed r = completedOf o /\
      ActivityEvents r = activityEventsOf o /\
      WorkflowEvents r = workflowEventsOf o).
  { clear H. intros e1 executedEvents [Hf _] H.
    destruct (processCommands t e1) as [[e2 [[[[b n] a] w] err]]|] eqn:Hp;
      [|discriminate H].
    cbv [mbind Res_bind mret Res_ret] in H. cbv beta iota in H.
    destruct err as [m|]; [inversion H|].
    pose proof (setSequenceIDs_assignFrom (executedEvents ++ n) e2) as Hs.
    destruct (setSequenceIDs (executedEvents ++ n) e2) as [ids e3].
    inversion H; subst. clear H. cbn [fst] in Hs.
    pose proof (processCommands_frame _ _ _ _ Hp) as [Hf2 _].
    apply processCommands_translates in Hp as [Htr _].
    exists (b, n, a, w), e1. split; [exact Htr|].
    cbn [Executed Completed ActivityEvents WorkflowEvents newEventsOf completedOf
         activityEventsOf workflowEventsOf fst snd].
    rewrite Hs, Hf2, Hf. repeat split; reflexivity. }
  change (createNewEvent e history.EventType_WorkflowTaskStarted
            history.WorkflowTaskStartedAttributes []) with (taskStarted e) in H.
  destruct skipNewEvents; cbn [negb] in H.
  - destruct (Hgen e [taskStarted e] (sameFrame_refl e)) as (o & e2 & Ho).
    { exact H. }
    exists 0%nat, o, e2. rewrite take_0. destruct Ho as (H1 & H2 & H3 & H4 & H5).
    repeat split; assumption.
  - cbn [app] in H.
    destruct (executeNewEvents (taskStarted e :: task.NewEvents t) e)
      as [[e0 [evs err]]|] eqn:He; [|discriminate H].
    pose proof (executeNewEvents_frame _ _ _ _ He) as Hf.
    assert (Hevs : exists j, evs = taskStarted e :: take j (task.NewEvents t)).
    { pose proof (executeNewEvents_started e (task.NewEvents t)) as Hst.
      change (createNewEvent e history.EventType_WorkflowTaskStarted
                history.WorkflowTaskStartedAttributes []) with (taskStarted e) in Hst.
      rewrite Hst in He.
      apply executeNewEvents_loop_result in He as [->|(j & Hj & ->)].
      - exists (length (task.NewEvents t)). rewrite take_ge by lia. reflexivity.
      - destruct j as [|j]; [lia|]. exists j. reflexivity. }
    destruct Hevs as (j & ->).
    destruct err as [m|].
    + destruct (Hgen (workflowCompleted None (Some m) e0)
                  (taskStarted e :: take j (task.NewEvents t))) as (o & e2 & Ho).
      { eapply sameFrame_trans; [exact Hf|apply workflowCompleted_frame]. }
      { exact H. }
      exists j, o, e2. destruct Ho as (H1 & H2 & H3 & H4 & H5).
      repeat split; try assumption. discriminate.
    + destruct (Hgen e0 (taskStarted e :: take j (task.NewEvents t)) Hf)
        as (o & e2 & Ho).
      { exact H. }
      exists j, o, e2. destruct Ho as (H1 & H2 & H3 & H4 & H5).
      repeat split; try assumption. discriminate.
Qed.

(** A successful [ExecuteTask] reaches the execution of the events with
    the clock it started with and the last sequence id of the task. *)
Lemma ExecuteTask_Some_clock t e e' r :
  ExecuteTask t e = Ret (e', (Some r, None)) ->
  exists e0 skipNewEvents,
    ExecuteTask_events t skipNewEvents e0 = Ret (e', (Some r, None)) /\
    lastSequenceID e0 = task.LastSequenceID t /\
    clock e0 = clock e /\
    (skipNewEvents = false \/ lastSequenceID e < task.LastSequenceID t).
Proof.
  unfold ExecuteTask. intros H.
  set (ec := with_workflowState (workflowstate.ClearCommands (workflowState e)) e) in *.
  destruct (Z.gtb_spec (task.LastSequenceID t) (lastSequenceID ec)) as [Hgt|Hle].
  - destruct (historyProvider ec (task.WorkflowInstance t) (lastSequenceID ec))
      as [h [m|]]; [inversion H|].
    destruct (replayHistory h ec) as [[e1 err]|] eqn:Hr; [|discriminate H].
    cbv [mbind Res_bind] in H. cbv beta iota in H.
    unfold replayHistory in Hr. apply replayHistory_loop_frame in Hr.
    change (clock (with_workflowState _ ec)) with (clock e) in Hr.
    change (lastSequenceID ec) with (lastSequenceID e) in Hgt.
    destruct err as [m|].
    + destruct (Z.eqb_spec (task.LastSequenceID t)
                  (lastSequenceID (workflowCompleted None (Some m) e1))) as [Heq|Hne];
        cbn [negb] in H; [|inversion H].
      exists (workflowCompleted None (Some m) e1), true.
      repeat split; try assumption; [congruence|right; lia].
    + destruct (Z.eqb_spec (task.LastSequenceID t) (lastSequenceID e1)) as [Heq|Hne];
        cbn [negb] in H; [|inversion H].
      exists e1, false. repeat split; try assumption; [congruence|left; reflexivity].
  - destruct (Z.ltb_spec (task.LastSequenceID t) (lastSequenceID ec)) as [Hlt|Hge].
    + inversion H.
    + exists ec, false. repeat split; try assumption; [lia|left; reflexivity].
Qed.

(** X22. The events a successful [ExecuteTask] returns as [Executed] are,
    in this order, the [WorkflowTaskStarted] event it created, a prefix of
    the new events of the task, and the new events of the commands of the
    turn, numbered from the task's last sequence id on; the other fields of
    the result are the outputs of the same commands.  No event of the
    replayed history and no event outside the task appears in [Executed]. *)
Theorem Executed_is_task_started_then_new_events_then_command_events
    (t : task.Workflow) (e e' : executor) (r : ExecutionResult) :
  ExecuteTask t e = Ret (e', (Some r, None)) ->
  exists (j : nat) o e2,
    translates e2 (task.WorkflowInstance t)
      (workflowstate.commands (workflowState e2)) o /\
    Executed r =
      assignFrom (task.LastSequenceID t)
        (taskStarted e :: take j (task.NewEvents t) ++ newEventsOf o) /\
    Completed r = completedOf o /\
    ActivityEvents r = activityEventsOf o /\
    WorkflowEvents r = workflowEventsOf o.
Proof.
  intros H. apply ExecuteTask_Some_clock in H as (e0 & skip & H & Hlast & Hclock & _).
  apply ExecuteTask_events_shape in H as (j & o & e2 & Htr & Hex & Hc & Ha & Hw & _).
  exists j, o, e2. rewrite Hlast in Hex.
  assert (Hts : taskStarted e0 = taskStarted e).
  { unfold taskStarted, pendingEvent. rewrite Hclock. reflexivity. }
  rewrite Hts in Hex. repeat split; assumption.
Qed.

(** X23. After a successful [ExecuteTask] the executor can take the next
    task of the instance as it is: when the last sequence id of the next
    task is the one the backend reaches by appending the executed events
    to the history (the task's last sequence id plus their number), the
    next [ExecuteTask] fetches and replays nothing, rejects nothing, and
    goes on to execute the new events after clearing the command log.
    (The ids stay within [int64].) *)
Theorem next_task_runs_without_replay
    (t t' : task.Workflow) (e e' : executor) (r : ExecutionResult) :
  ExecuteTask t e = Ret (e', (Some r, None)) ->
  min_int64 <= task.LastSequenceID t ->
  task.LastSequenceID t + Z.of_nat (length (Executed r)) <= max_int64 ->
  task.LastSequenceID t' = task.LastSequenceID t + Z.of_nat (length (Executed r)) ->
  ExecuteTask t' e' = ExecuteTask_events t' false (cleared e').
Proof.
  intros H Hmin Hmax Hnext.
  destruct (Executed_sequence_ids_consecutive_aux t e e' r H Hmin Hmax)
    as (_ & Hend & _).
  unfold ExecuteTask. fold (cleared e').
  change (lastSequenceID (cleared e')) with (lastSequenceID e').
  rewrite Hend, <- Hnext.
  destruct (Z.gtb_spec (task.LastSequenceID t') (task.LastSequenceID t')) as [Hgt|_];
    [lia|].
  destruct (Z.ltb_spec (task.LastSequenceID t') (task.LastSequenceID t')) as [Hlt|_];
    [lia|].
  reflexivity.
Qed.

End TaskOutcomes.

(** ** Concrete runs *)

Section Runs.
Local Existing Instance Demo.runtime.

(** C1 at a concrete input: the persisted history scheduled the activity
    "B", the workflow now schedules "add"; replay fails at the third event
    and [ExecuteTask] returns an error. *)
Lemma replay_error_returns_error_witness :
  returned (ExecuteTask Demo.staleTask (Demo.fresh Demo.changedHistory)) =
  Some (None,
        Some "even after fetching history and replaying history executor state does not match task").
Proof.
  set (e := Demo.fresh Demo.changedHistory).
  set (e0 := with_workflowState (workflowstate.ClearCommands (workflowState e)) e).
  assert (H := replay_error_returns_error Demo.staleTask e
                 (stateOf (replayHistory Demo.changedHistory e0) e0)
                 Demo.changedHistory Demo.mismatch).
  cbv zeta in H. rewrite H.
  - reflexivity.
  - vm_compute. reflexivity.
  - vm_compute. reflexivity.
  - vm_compute. repeat split.
  - repeat constructor; vm_compute; discriminate.
  - apply returned_Ret. vm_compute. reflexivity.
Defined.

(** C2, counterexample: two timers, the first cancelled.  The [CancelTimer]
    command has id 3 and is committed, but its [TimerCanceled] event carries
    the id 1 of the timer: no event has schedule event id 3. *)
Lemma CancelTimer_event_not_under_command_id :
  let e := Demo.withCommands Demo.timerLog in
  ~ (forall cs events,
       processed Demo.timerTask e = Some (cs, events) ->
       forall c, c ∈ cs ->
         command.State c = command.CommandState_Committed ->
         countEvents (command.ID c) (matchingEventType (command.Type_ c)) events = 1%nat).
Proof.
  intros e H.
  specialize (H (map commit Demo.timerLog)
                (turnEvents Demo.timerNewEvents Demo.timerWorkflowEvents)).
  assert (Hp : processed Demo.timerTask e =
               Some (map commit Demo.timerLog,
                     turnEvents Demo.timerNewEvents Demo.timerWorkflowEvents))
    by (vm_compute; reflexivity).
  specialize (H Hp (commit Demo.cancelFirstTimer)).
  assert (Hin : commit Demo.cancelFirstTimer ∈ map commit Demo.timerLog)
    by (cbn; do 2 apply list_elem_of_further; apply list_elem_of_here).
  specialize (H Hin eq_refl). vm_compute in H. discriminate H.
Qed.

Lemma committed_commands_have_their_event_witness :
  let events := turnEvents Demo.timerNewEvents Demo.timerWorkflowEvents in
  countEvents 2 history.EventType_TimerScheduled events = 1%nat /\
  countEvents 1 history.EventType_TimerCanceled events = 1%nat.
Proof.
  intros events.
  destruct (committed_commands_have_their_event Demo.timerTask
              (Demo.withCommands Demo.timerLog)
              (map commit Demo.timerLog) events) as [_ H].
  - vm_compute. reflexivity.
  - vm_compute. repeat constructor; intros Hin;
      repeat (apply elem_of_cons in Hin as [Hin|Hin]; [discriminate Hin|]);
      inversion Hin.
  - split.
    + destruct (H (commit (Demo.pendingCommandOf 2 command.CommandType_ScheduleTimer
                             (command.ScheduleTimerCommandAttr 120)))) as [H1 _].
      * cbn. apply list_elem_of_further, list_elem_of_here.
      * apply H1. reflexivity.
    + destruct (H (commit Demo.cancelFirstTimer)) as [_ H2].
      * cbn. do 2 apply list_elem_of_further. apply list_elem_of_here.
      * destruct (H2 1 eq_refl eq_refl) as [-> _]. vm_compute. reflexivity.
Defined.

Lemma Executed_sequence_ids_are_consecutive_witness :
  let t := Demo.firstTask in
  let e := Demo.fresh [] in
  map history.SequenceID (Executed Demo.firstResult) = [1; 2; 3] /\
  lastSequenceID (stateOf (ExecuteTask t e) e) = 3.
Proof.
  intros t e.
  destruct (Executed_sequence_ids_are_consecutive t e
              (stateOf (ExecuteTask t e) e) Demo.firstResult)
    as (pre & events & _ & Hpre & Hids & Hend & _).
  - apply returned_Ret. vm_compute. reflexivity.
  - vm_compute. discriminate.
  - vm_compute. discriminate.
  - rewrite Hend, Hpre. split; reflexivity.
Defined.

Lemma ScheduleTimer_scheduled_and_fired_witness :
  exists o2,
    translates (Demo.withCommands Demo.timerLog) Demo.instance
      (tail Demo.timerLog) o2 /\
    Demo.timerNewEvents =
      Demo.pending history.EventType_TimerScheduled 1 None
        (history.TimerScheduledAttributes 110) :: newEventsOf o2 /\
    Demo.timerWorkflowEvents =
      {| history.WorkflowInstance := Demo.instance;
         history.HistoryEvent :=
           Demo.pending history.EventType_TimerFired 1 (Some 110)
             (history.TimerFiredAttributes 110) |} :: workflowEventsOf o2.
Proof.
  set (e := Demo.withCommands Demo.timerLog).
  destruct (ScheduleTimer_scheduled_and_fired Demo.timerTask e
              (stateOf (processCommands Demo.timerTask e) e)
              false Demo.timerNewEvents [] Demo.timerWorkflowEvents
              [] (tail Demo.timerLog)
              (Demo.pendingCommandOf 1 command.CommandType_ScheduleTimer
                 (command.ScheduleTimerCommandAttr 110)))
    as (At & o1 & o2 & Hattr & Ho1 & Ho2 & Hn & _ & Hw).
  - apply returned_Ret. vm_compute. reflexivity.
  - vm_compute. reflexivity.
  - reflexivity.
  - apply translates_nil in Ho1. subst o1. inversion Hattr; subst At.
    exists o2. split; [exact Ho2|]. split; [exact Hn|exact Hw].
Defined.

Lemma CompleteWorkflow_finishes_and_notifies_parent_witness :
  let e := Demo.withCommands [Demo.completeCommand] in
  returned (processCommands Demo.childTask e) =
    Some (true, [Demo.childFinished], [], [Demo.childNotification], None) /\
  parentNotification e Demo.child (Some "R") "" = [Demo.childNotification].
Proof.
  intros e.
  assert (Hp : returned (processCommands Demo.childTask e) =
               Some (true, [Demo.childFinished], [], [Demo.childNotification], None))
    by (vm_compute; reflexivity).
  split; [exact Hp|].
  destruct (CompleteWorkflow_finishes_and_notifies_parent Demo.childTask e
              (stateOf (processCommands Demo.childTask e) e)
              true [Demo.childFinished] [] [Demo.childNotification]
              [] [] Demo.completeCommand)
    as (result & err & o1 & o2 & Hattr & Ho1 & Ho2 & _ & _ & _ & Hw).
  - apply returned_Ret. exact Hp.
  - vm_compute. reflexivity.
  - reflexivity.
  - apply translates_nil in Ho1, Ho2. subst o1 o2.
    inversion Hattr; subst result err.
    cbn [workflowEventsOf snd app] in Hw. rewrite app_nil_r in Hw.
    symmetry. exact Hw.
Defined.

Lemma failing_event_completes_workflow_witness :
  exists r,
    returned (ExecuteTask Demo.strayTask (Demo.fresh [])) = Some (Some r, None) /\
    Completed r = true /\
    length (Executed r) = 4%nat.
Proof.
  set (t := Demo.strayTask). set (e := Demo.fresh []).
  set (e0 := with_workflowState (workflowstate.ClearCommands (workflowState e)) e).
  set (toExecute :=
         createNewEvent e0 history.EventType_WorkflowTaskStarted
           history.WorkflowTaskStartedAttributes [] :: task.NewEvents t).
  set (start := with_workflowState
                  (workflowstate.SetReplaying false (workflowState e0)) e0).
  set (e1 := (dispatchAll (take 2 toExecute) start).2).
  destruct (failing_event_completes_workflow t e e1
              (stateOf (executeEvent Demo.strayCompletion e1) e1)
              2 Demo.strayCompletion Demo.noFuture)
    as (e' & r & o & H & _ & _ & Ho & Hex & Hc & _).
  - vm_compute. reflexivity.
  - apply dispatchAll_dispatched. vm_compute. reflexivity.
  - vm_compute. reflexivity.
  - apply returned_Ret. vm_compute. reflexivity.
  - apply forallb_knownCommand. vm_compute. reflexivity.
  - exists r. rewrite H. split; [reflexivity|]. split; [exact Hc|].
    rewrite Hex.
    assert (Hlen : forall n l, length (assignFrom n l) = length l).
    { clear. intros n l. revert n. induction l as [|a l IH]; intros n; cbn;
        [reflexivity|rewrite IH; reflexivity]. }
    rewrite Hlen, !length_app.
    assert (Hon : length (newEventsOf o) = 1%nat).
    { assert (Hcs : workflowstate.commands
                      (workflowState (stateOf (executeEvent Demo.strayCompletion e1) e1)) =
                    [Demo.pendingCommandOf 1 command.CommandType_ScheduleActivity
                       (command.ScheduleActivityTaskCommandAttr "add" Demo.inputs)])
        by (vm_compute; reflexivity).
      rewrite Hcs in Ho. apply translates_cons in Ho as (oc & o2 & Hoc & Ho2 & ->).
      apply translates_nil in Ho2 as ->. cbn in Hoc. inversion Hoc; subst oc.
      reflexivity. }
    rewrite Hon. reflexivity.
Defined.

Lemma copies_keep_unassigned_sequence_id_witness :
  Forall (fun ev => history.SequenceID ev = 0) (ActivityEvents Demo.firstResult) /\
  Forall (fun x => 0 < history.SequenceID x) (Executed Demo.firstResult).
Proof.
  set (t := Demo.firstTask). set (e := Demo.fresh []).
  destruct (copies_keep_unassigned_sequence_id t e
              (stateOf (ExecuteTask t e) e) Demo.firstResult)
    as (Ha & _ & _ & Hpos).
  - apply returned_Ret. vm_compute. reflexivity.
  - split; [exact Ha|]. apply Hpos; vm_compute; discriminate.
Defined.

(** C9, counterexample.  After the workflow "Crash" has recorded its side
    effect, a future is registered for schedule event id 1; the
    [SideEffectResult] event resolves it, the scheduler reports the failure
    of the resumed workflow function as the error of [Continue], and the
    handler returns that error although the future was registered. *)
Lemma handleSideEffectResult_error_with_registered_future :
  let e := Demo.started "Crash" in
  let event := Demo.event 3 history.EventType_SideEffectResult 1
                 (history.SideEffectResultAttributes (Some "42")) in
  ~ (returnsError (handleSideEffectResult event (Some "42") e) <->
     workflowstate.FutureByScheduleEventID 1 (workflowState e) = None).
Proof.
  intros e event [H _].
  assert (Hf : workflowstate.FutureByScheduleEventID 1 (workflowState e) = Some 1)
    by (vm_compute; reflexivity).
  rewrite Hf in H. enough (Some 1 = None) by discriminate.
  apply H. apply returnsError_iff. vm_compute. reflexivity.
Qed.

End Runs.

(** ** The further properties at concrete inputs *)

Section FurtherRuns.
Local Existing Instance Demo.runtime.

(** X1 at a concrete input: the backend is down, the task is ahead of the
    executor. *)
Lemma history_fetch_error_is_returned_witness :
  returned (ExecuteTask Demo.staleTask Cases.offline) =
  Some (None, Some "getting workflow history: backend down").
Proof.
  rewrite (history_fetch_error_is_returned Demo.staleTask Cases.offline [] "backend down").
  - reflexivity.
  - vm_compute. reflexivity.
  - reflexivity.
Defined.

(** X2 at a concrete input: the executor has seen five events, the task
    three. *)
Lemma stale_task_is_rejected_witness :
  returned (ExecuteTask Demo.staleTask Cases.ahead) = Some (None, Some Cases.older).
Proof.
  rewrite (stale_task_is_rejected Demo.staleTask Cases.ahead).
  - reflexivity.
  - vm_compute. reflexivity.
Defined.

(** X3 at a concrete input: the three recorded events replay without
    error. *)
Lemma replayHistory_records_progress_witness :
  let e := Demo.fresh [] in
  lastSequenceID (stateOf (replayHistory Cases.recorded e) e) = 3.
Proof.
  intros e.
  rewrite (replayHistory_records_progress Cases.recorded e
             (stateOf (replayHistory Cases.recorded e) e) None).
  - reflexivity.
  - apply returned_Ret. vm_compute. reflexivity.
Defined.

(** X4 at a concrete input: three events are persisted, the task says
    five. *)
Lemma replay_must_reach_task_sequence_id_witness :
  returned (ExecuteTask Cases.lateTask (Demo.fresh Cases.recorded)) =
  Some (None,
        Some "even after fetching history and replaying history executor state does not match task").
Proof.
  set (e := Demo.fresh Cases.recorded).
  rewrite (replay_must_reach_task_sequence_id Cases.lateTask e
             (stateOf (replayHistory Cases.recorded (cleared e)) (cleared e))
             Cases.recorded).
  - destruct (decide _) as [Heq|_]; [vm_compute in Heq; discriminate Heq|reflexivity].
  - vm_compute. reflexivity.
  - vm_compute. reflexivity.
  - apply returned_Ret. vm_compute. reflexivity.
Defined.

(** X5 at a concrete input: the second persisted event cannot be replayed,
    the task's new event is not executed. *)
Lemma replay_error_skips_new_events_witness :
  exists r,
    returned (ExecuteTask Cases.brokenTask (Demo.fresh Cases.broken)) =
      Some (Some r, None) /\
    Completed r = true /\
    map history.Type_ (Executed r) =
      [history.EventType_WorkflowTaskStarted; history.EventType_WorkflowExecutionFinished].
Proof.
  set (e := Demo.fresh Cases.broken).
  destruct (replay_error_skips_new_events Cases.brokenTask e
              (stateOf (replayHistory Cases.broken (cleared e)) (cleared e))
              Cases.broken Cases.notScheduled)
    as (e' & r & o & H & Ho & Hex & Hc & _).
  - vm_compute. reflexivity.
  - vm_compute. reflexivity.
  - apply returned_Ret. vm_compute. reflexivity.
  - vm_compute. reflexivity.
  - apply forallb_knownCommand. vm_compute. reflexivity.
  - exists r. rewrite H. split; [reflexivity|]. split; [exact Hc|].
    assert (Hcs : workflowstate.commands
                    (workflowState
                       (stateOf (replayHistory Cases.broken (cleared e)) (cleared e))) = [])
      by (vm_compute; reflexivity).
    rewrite Hcs in Ho. apply translates_nil in Ho as ->.
    rewrite Hex. reflexivity.
Defined.

(** X6 at a concrete input: the first turn of the activity workflow. *)
Lemma dispatched_events_are_executed_witness :
  exists r,
    returned (ExecuteTask Demo.firstTask (Demo.fresh [])) = Some (Some r, None) /\
    Completed r = false /\
    map history.Type_ (Executed r) =
      [history.EventType_WorkflowTaskStarted; history.EventType_WorkflowExecutionStarted;
       history.EventType_ActivityScheduled].
Proof.
  set (t := Demo.firstTask). set (e := Demo.fresh []).
  set (e0 := cleared e).
  set (start := with_workflowState
                  (workflowstate.SetReplaying false (workflowState e0)) e0).
  set (e1 := (dispatchAll (taskStarted e0 :: task.NewEvents t) start).2).
  destruct (dispatched_events_are_executed t e e1 false None None)
    as (e' & r & o & H & Ho & Hex & Hc & _).
  - vm_compute. reflexivity.
  - apply dispatchAll_dispatched. vm_compute. reflexivity.
  - vm_compute. reflexivity.
  - discriminate.
  - discriminate.
  - apply forallb_knownCommand. vm_compute. reflexivity.
  - exists r. rewrite H. split; [reflexivity|].
    assert (Hcs : workflowstate.commands (workflowState e1) =
                  [Demo.pendingCommandOf 1 command.CommandType_ScheduleActivity
                     (command.ScheduleActivityTaskCommandAttr "add" Demo.inputs)])
      by (vm_compute; reflexivity).
    rewrite Hcs in Ho. apply translates_cons in Ho as (oc & o2 & Hoc & Ho2 & ->).
    apply translates_nil in Ho2 as ->. cbn in Hoc. inversion Hoc; subst oc.
    split; [rewrite Hc; reflexivity|]. rewrite Hex. reflexivity.
Defined.

(** X7 at a concrete input: the first turn of the activity workflow. *)
Lemma successful_task_commits_all_commands_witness :
  let e := Demo.fresh [] in
  Forall (fun c => command.State c = command.CommandState_Committed)
    (workflowstate.commands (workflowState (stateOf (ExecuteTask Demo.firstTask e) e))).
Proof.
  intros e.
  apply (successful_task_commits_all_commands Demo.firstTask e _ Demo.firstResult).
  apply returned_Ret. vm_compute. reflexivity.
Defined.

(** X8 at a concrete input: a command of an unknown type between two
    timers. *)
Lemma unknown_command_type_discards_outputs_witness :
  returned (processCommands Demo.timerTask
              (Demo.withCommands [Cases.timer 1 110; Cases.unknown; Cases.timer 3 130])) =
  Some (false, [], [], [], Some "unknown command type: Unknown").
Proof.
  rewrite (unknown_command_type_discards_outputs Demo.timerTask
             (Demo.withCommands [Cases.timer 1 110; Cases.unknown; Cases.timer 3 130])
             [Cases.timer 1 110] [Cases.timer 3 130] Cases.unknown Cases.timerOutputs).
  - reflexivity.
  - reflexivity.
  - vm_compute. reflexivity.
  - reflexivity.
Defined.

(** X9 at a concrete input: a log with one [CompleteWorkflow] command. *)
Lemma completed_iff_CompleteWorkflow_command_witness :
  true = existsb isCompleteWorkflow [Demo.completeCommand].
Proof.
  set (e := Demo.withCommands [Demo.completeCommand]).
  apply (completed_iff_CompleteWorkflow_command Demo.childTask e
           (stateOf (processCommands Demo.childTask e) e)
           true [Demo.childFinished] [] [Demo.childNotification]).
  apply returned_Ret. vm_compute. reflexivity.
Defined.

(** X10 at a concrete input: an activity and a timer. *)
Lemma activity_events_are_the_scheduled_activities_witness :
  [Cases.activityScheduled] =
  List.filter isActivityScheduled [Cases.activityScheduled; Cases.timerScheduled].
Proof.
  set (e := Demo.withCommands [Cases.activity; Cases.timer 2 120]).
  apply (activity_events_are_the_scheduled_activities Demo.timerTask e
           (stateOf (processCommands Demo.timerTask e) e)
           false [Cases.activityScheduled; Cases.timerScheduled]
           [Cases.activityScheduled] [Cases.timerFired]).
  apply returned_Ret. vm_compute. reflexivity.
Defined.

(** X11 at a concrete input: one sub-workflow is scheduled. *)
Lemma ScheduleSubWorkflow_scheduled_and_started_witness :
  let e := Demo.withCommands [Cases.subWorkflow] in
  pendingEvent e history.EventType_SubWorkflowScheduled 5 None
    (history.SubWorkflowScheduledAttributes Demo.child "Sub" Demo.inputs) =
  Cases.subWorkflowScheduled.
Proof.
  intros e.
  destruct (ScheduleSubWorkflow_scheduled_and_started Demo.timerTask e
              (stateOf (processCommands Demo.timerTask e) e)
              false [Cases.subWorkflowScheduled] [] [Cases.subWorkflowStarted]
              [] [] Cases.subWorkflow)
    as (sub & name & inputs & o1 & o2 & Hattr & Ho1 & Ho2 & Hn & _).
  - apply returned_Ret. vm_compute. reflexivity.
  - reflexivity.
  - reflexivity.
  - apply translates_nil in Ho1, Ho2. subst o1 o2. inversion Hattr; subst.
    cbn [newEventsOf fst snd app] in Hn. inversion Hn. reflexivity.
Defined.

(** X12 at a concrete input: an activity and a timer. *)
Lemma ScheduleActivity_recorded_and_routed_witness :
  exists o2,
    translates (Demo.withCommands [Cases.activity; Cases.timer 2 120]) Demo.instance
      [Cases.timer 2 120] o2 /\
    [Cases.activityScheduled; Cases.timerScheduled] =
      Cases.activityScheduled :: newEventsOf o2 /\
    [Cases.activityScheduled] = Cases.activityScheduled :: activityEventsOf o2.
Proof.
  set (e := Demo.withCommands [Cases.activity; Cases.timer 2 120]).
  destruct (ScheduleActivity_recorded_and_routed Demo.timerTask e
              (stateOf (processCommands Demo.timerTask e) e)
              false [Cases.activityScheduled; Cases.timerScheduled]
              [Cases.activityScheduled] [Cases.timerFired]
              [] [Cases.timer 2 120] Cases.activity)
    as (name & inputs & o1 & o2 & Hattr & Ho1 & Ho2 & Hn & Ha & _).
  - apply returned_Ret. vm_compute. reflexivity.
  - reflexivity.
  - reflexivity.
  - apply translates_nil in Ho1. subst o1. inversion Hattr; subst.
    exists o2. split; [exact Ho2|]. split; [exact Hn|exact Ha].
Defined.

(** X13 at a concrete input: one recorded side effect. *)
Lemma SideEffect_result_is_recorded_witness :
  let e := Demo.withCommands [Cases.sideEffect] in
  pendingEvent e history.EventType_SideEffectResult 4 None
    (history.SideEffectResultAttributes (Some "42")) = Cases.sideEffectResult.
Proof.
  intros e.
  destruct (SideEffect_result_is_recorded Demo.timerTask e
              (stateOf (processCommands Demo.timerTask e) e)
              false [Cases.sideEffectResult] [] []
              [] [] Cases.sideEffect)
    as (result & o1 & o2 & Hattr & Ho1 & Ho2 & Hn & _).
  - apply returned_Ret. vm_compute. reflexivity.
  - reflexivity.
  - reflexivity.
  - apply translates_nil in Ho1, Ho2. subst o1 o2. inversion Hattr; subst.
    cbn [newEventsOf fst snd app] in Hn. inversion Hn. reflexivity.
Defined.

(** X14 at a concrete input: one sub-workflow is cancelled. *)
Lemma CancelSubWorkflow_requested_and_sent_witness :
  let e := Demo.withCommands [Cases.cancelSubWorkflow] in
  pendingEvent e history.EventType_SubWorkflowCancellationRequested 0 None
    (history.SubWorkflowScheduledAttributes Demo.child "" []) =
  Cases.cancellationRequested.
Proof.
  intros e.
  destruct (CancelSubWorkflow_requested_and_sent Demo.timerTask e
              (stateOf (processCommands Demo.timerTask e) e)
              false [Cases.cancellationRequested] [] [Cases.cancellationSent]
              [] [] Cases.cancelSubWorkflow)
    as (sub & o1 & o2 & Hattr & Ho1 & Ho2 & Hn & _).
  - apply returned_Ret. vm_compute. reflexivity.
  - reflexivity.
  - reflexivity.
  - apply translates_nil in Ho1, Ho2. subst o1 o2. inversion Hattr; subst.
    cbn [newEventsOf fst snd app] in Hn. inversion Hn. reflexivity.
Defined.

(** X15 at a concrete input: the recorded cancellation request is
    dispatched to a fresh executor. *)
Lemma cancellation_request_event_panics_when_dispatched_witness :
  executeEvent Cases.cancellationRequested (Demo.fresh []) = Panic.
Proof.
  apply (cancellation_request_event_panics_when_dispatched
           (Demo.fresh []) (Demo.fresh []) Demo.instance Cases.cancelSubWorkflow
           (false, [Cases.cancellationRequested], [], [Cases.cancellationSent])
           Cases.cancellationRequested).
  - vm_compute. reflexivity.
  - reflexivity.
  - apply list_elem_of_here.
Defined.

(** X16 at a concrete input: the event recorded for the activity of the
    workflow "W" is replayed on an executor that has run "W" again. *)
Lemma recorded_schedule_event_replays_witness :
  exists ex',
    executeEvent Cases.activityScheduled (Demo.started "W") = Ret (ex', None) /\
    workflowstate.commands (workflowState ex') = [].
Proof.
  destruct (recorded_schedule_event_replays
              (Demo.fresh []) (Demo.started "W") Demo.instance
              Cases.activity Cases.activity
              (false, [Cases.activityScheduled], [Cases.activityScheduled], [])
              Cases.activityScheduled)
    as (ex' & H1 & H2).
  - vm_compute. reflexivity.
  - left. reflexivity.
  - apply list_elem_of_here.
  - vm_compute. reflexivity.
  - reflexivity.
  - reflexivity.
  - exists ex'. split; [exact H1|]. rewrite H2. vm_compute. reflexivity.
Defined.

(** X17 at a concrete input: an activity completes that was never
    scheduled. *)
Lemma completion_event_resolves_pending_future_witness :
  exists msg,
    executeEvent Demo.strayCompletion (Demo.fresh []) = Ret (Demo.fresh [], Some msg).
Proof.
  pose proof (completion_event_resolves_pending_future Demo.strayCompletion
                (Demo.fresh []) (Some "3") None eq_refl) as H.
  cbv zeta in H.
  assert (Hf : workflowstate.FutureByScheduleEventID
                 (history.ScheduleEventID Demo.strayCompletion)
                 (workflowState (Demo.fresh [])) = None)
    by (vm_compute; reflexivity).
  rewrite Hf in H. exact H.
Defined.

(** X19 at a concrete input: an [ActivityCompleted] event with the
    attributes of a cancelled timer. *)
Lemma mismatched_attributes_panic_witness :
  executeEvent Cases.corrupted (Demo.fresh []) = Panic.
Proof.
  apply mismatched_attributes_panic. reflexivity.
Defined.

(** X20 at a concrete input: the third event of the turn completes an
    activity that was never scheduled. *)
Lemma executeNewEvents_returns_dispatched_prefix_witness :
  let e := Demo.fresh [] in
  sameFrame e (stateOf (executeNewEvents Demo.strayTaskEvents e) e).
Proof.
  intros e.
  destruct (executeNewEvents_returns_dispatched_prefix Demo.strayTaskEvents
              (take 2 Demo.strayTaskEvents) e
              (stateOf (executeNewEvents Demo.strayTaskEvents e) e)
              (Some Demo.noFuture)) as [H _].
  - apply returned_Ret. vm_compute. reflexivity.
  - exact H.
Defined.

(** X21 at a concrete input: the first turn of the activity workflow
    returns a result and no error. *)
Lemma ExecuteTask_returns_result_or_one_of_four_errors_witness :
  exists result, Some Demo.firstResult = Some result.
Proof.
  set (e := Demo.fresh []).
  apply (ExecuteTask_returns_result_or_one_of_four_errors Demo.firstTask e
           (stateOf (ExecuteTask Demo.firstTask e) e) (Some Demo.firstResult) None).
  apply returned_Ret. vm_compute. reflexivity.
Defined.

(** X22 at a concrete input: the first turn of the activity workflow. *)
Lemma Executed_is_task_started_then_new_events_then_command_events_witness :
  exists (j : nat) o,
    Executed Demo.firstResult =
      assignFrom 0
        (taskStarted (Demo.fresh []) :: take j (task.NewEvents Demo.firstTask) ++
         newEventsOf o) /\
    ActivityEvents Demo.firstResult = activityEventsOf o.
Proof.
  set (e := Demo.fresh []).
  destruct (Executed_is_task_started_then_new_events_then_command_events
              Demo.firstTask e (stateOf (ExecuteTask Demo.firstTask e) e)
              Demo.firstResult)
    as (j & o & e2 & _ & Hex & _ & Ha & _).
  - apply returned_Ret. vm_compute. reflexivity.
  - exists j, o. split; [exact Hex|exact Ha].
Defined.

(** X23 at a concrete input: after the first turn of the activity
    workflow, which executed three events, the task that delivers the
    result of the activity has last sequence id three. *)
Lemma next_task_runs_without_replay_witness :
  let e := Demo.fresh [] in
  let e' := stateOf (ExecuteTask Demo.firstTask e) e in
  ExecuteTask Demo.staleTask e' = ExecuteTask_events Demo.staleTask false (cleared e').
Proof.
  intros e e'.
  apply (next_task_runs_without_replay Demo.firstTask Demo.staleTask e e'
           Demo.firstResult).
  - apply returned_Ret. vm_compute. reflexivity.
  - vm_compute. discriminate.
  - vm_compute. discriminate.
  - reflexivity.
Defined.

End FurtherRuns.
